(** * kombine: the ensemble sampler of [kombine/sampler.py]

    A shallow embedding of [Sampler.__init__] and [Sampler.sample].

    - numbers are IEEE binary64 values ([PrimFloat.float]), which is what a
      numpy [float64] array holds: [nan], the infinities and rounding are
      those of the machine;
    - a numpy array of shape [(n,)] is a [list float], one of shape [(n, d)]
      a list of [n] rows; elementwise arithmetic broadcasts and raises as
      numpy does on these shapes;
    - array objects live in a store and are named by their address, so that
      [lnprior = lnprior0] shares the caller's array and [p = np.array(p0)]
      does not;
    - [sample] runs in a state-and-exception monad over the sampler object,
      the store and the random source: an exception leaves every mutation
      made before it in place, as in Python;
    - the proposal ([OptimizedKDE]), [np.random.rand] and [np.log] are
      outside this file and enter through the class [Externals].

    Taken for granted: the two evaluators and the density call are
    functions of the points they are given and return arrays of their own;
    a fitted proposal depends on the points as they were when it was
    fitted; the optional arrays are one-dimensional [float64] arrays and
    [p0] a two-dimensional one; [iterations] and [update_interval] are
    integers. *)

From Stdlib Require Import ZArith List Bool Floats Lia.
From stdpp Require Import base option list list_numbers.
Import ListNotations.

Local Open Scope Z_scope.

(** ** numpy arrays *)

Module np.

Inductive exn : Set :=
  | ValueError          (* operands could not be broadcast together *)
  | IndexError          (* index out of bounds, boolean index of the wrong length *)
  | ZeroDivisionError
  | AttributeError      (* attribute access on None *)
  | BadAddress.         (* an address that names no array: no Python program has one *)

Inductive result (A : Type) : Type :=
  | Ok (a : A)
  | Raise (e : exn).
Arguments Ok {A} a.
Arguments Raise {A} e.

Definition rbind {A B} (r : result A) (k : A -> result B) : result B :=
  match r with
  | Ok a => k a
  | Raise e => Raise e
  end.

(** A [float64] array of shape [(n,)], and one of shape [(n, d)] as its
    rows. *)
Abbreviation vec := (list float).
Abbreviation mat := (list (list float)).

(** [np.zeros((n,))], [np.zeros((n, d))] and [np.zeros((k, n, d))]; a
    negative leading dimension is a [ValueError]. *)
Definition zeros1 (n : nat) : vec := replicate n 0%float.
Definition zeros2 (n d : nat) : mat := replicate n (zeros1 d).

Definition zeros_rows {A} (k : Z) (row : A) : result (list A) :=
  if k <? 0 then Raise ValueError else Ok (replicate (Z.to_nat k) row).

(** Broadcasting of two one-dimensional operands: equal lengths, or one of
    them of length one. *)
Definition broadcast2 {A B C} (f : A -> B -> C) (a : list A) (b : list B)
  : result (list C) :=
  if (length a =? length b)%nat then Ok (zip_with f a b)
  else match a, b with
       | [x], _ => Ok (map (f x) b)
       | _, [y] => Ok (map (fun x => f x y) a)
       | _, _ => Raise ValueError
       end.

Definition add (a b : vec) : result vec := broadcast2 PrimFloat.add a b.
Definition sub (a b : vec) : result vec := broadcast2 PrimFloat.sub a b.
(** [a > b] *)
Definition gt (a b : vec) : result (list bool) :=
  broadcast2 (fun x y => PrimFloat.ltb y x) a b.

(** Assignment of [v] into a slot of length [n]: [v] has that length or
    length one. *)
Definition broadcast_to {A} (n : nat) (v : list A) : result (list A) :=
  if (length v =? n)%nat then Ok v
  else match v with
       | [x] => Ok (replicate n x)
       | _ => Raise ValueError
       end.

Fixpoint traverse {A B} (f : A -> result B) (l : list A) : result (list B) :=
  match l with
  | [] => Ok []
  | x :: l' => rbind (f x) (fun y => rbind (traverse f l') (fun ys => Ok (y :: ys)))
  end.

Definition broadcast_to2 (n d : nat) (m : mat) : result mat :=
  rbind (traverse (broadcast_to d) m) (broadcast_to n).

(** [np.sum(mask)] and [np.any(mask)] *)
Fixpoint count (m : list bool) : nat :=
  match m with
  | [] => O
  | b :: m' => if b then S (count m') else count m'
  end.

Definition any (m : list bool) : bool := existsb id m.

(** [a[mask]]: the entries of [a] where the mask is true. *)
Fixpoint mask_get {A} (a : list A) (m : list bool) : list A :=
  match a, m with
  | x :: a', b :: m' => if b then x :: mask_get a' m' else mask_get a' m'
  | _, _ => []
  end.

Definition getitem_mask {A} (a : list A) (m : list bool) : result (list A) :=
  if (length m =? length a)%nat then Ok (mask_get a m) else Raise IndexError.

(** [a[mask] = v]: the entries of [v], in order, written where the mask is
    true; the other entries of [a] stay. *)
Fixpoint mask_put {A} (a : list A) (m : list bool) (v : list A) : list A :=
  match a, m with
  | x :: a', true :: m' =>
      match v with
      | y :: v' => y :: mask_put a' m' v'
      | [] => x :: mask_put a' m' []
      end
  | x :: a', false :: m' => x :: mask_put a' m' v
  | _, _ => a
  end.

Definition setitem_mask {A} (a : list A) (m : list bool) (v : list A)
  : result (list A) :=
  if (length m =? length a)%nat
  then rbind (broadcast_to (count m) v) (fun v' => Ok (mask_put a m v'))
  else Raise IndexError.

Definition width (a : mat) : nat := length (hd [] a).

(** [a[mask] = v] on rows: each row of [v] is first broadcast to the row
    length of [a]. *)
Definition setitem_mask_rows (a : mat) (m : list bool) (v : mat) : result mat :=
  if (length m =? length a)%nat
  then rbind (broadcast_to2 (count m) (width a) v) (fun v' => Ok (mask_put a m v'))
  else Raise IndexError.

(** A Python index into a sequence of length [len]: negative indices count
    from the end. *)
Definition py_index (len : nat) (i : Z) : option nat :=
  let j := if i <? 0 then i + Z.of_nat len else i in
  if (0 <=? j) && (j <? Z.of_nat len) then Some (Z.to_nat j) else None.

(** [h[i] = v]: numpy resolves the index [i] first, then broadcasts the
    value to the slot, which is where [v] may have failed, and stores it. *)
Definition setitem {A} (h : list A) (i : Z) (v : result A) : result (list A) :=
  match py_index (length h) i with
  | Some j => rbind v (fun x => Ok (<[j := x]> h))
  | None => Raise IndexError
  end.

(** A boolean stored into a float array. *)
Definition of_bool (b : bool) : float := if b then 1%float else 0%float.

Definition shape2 (n d : nat) (a : mat) : Prop :=
  length a = n /\ Forall (fun r => length r = d) a.

End np.

Export np.

(** ** What the sampler is given

    [OptimizedKDE(p, pool)] fits a proposal to the points [p]; the fitted
    object is called on points ([self._kde(p)], their log density) and
    asked for draws ([self._kde.draw(N=n)]).  The fit and the draws may
    consume randomness, [np.random.rand(n)] does. *)

Class Externals : Type := {
  pool : Type;
  kde : Type;
  rng : Type;
  OptimizedKDE : mat -> option pool -> rng -> kde * rng;
  kde_call : kde -> mat -> vec;
  kde_draw : kde -> nat -> rng -> mat * rng;
  random_rand : nat -> rng -> vec * rng;
  log : float -> float
}.

(** The shapes these promise: [rand(n)] has [n] entries, a density call
    returns one number per point, a draw of [n] has [n] points, and the
    points drawn have as many coordinates as the points fitted. *)
Class ExternalsShapes `{Externals} : Prop := {
  random_rand_shape : forall n g, length (random_rand n g).1 = n;
  kde_call_shape : forall k x, length (kde_call k x) = length x;
  kde_draw_shape : forall k n g, length (kde_draw k n g).1 = n;
  kde_draw_width : forall p po g d n g',
    p <> [] -> Forall (fun r => length r = d) p ->
    Forall (fun r => length r = d) (kde_draw (OptimizedKDE p po g).1 n g').1
}.

Section Kombine.

Context `{Externals}.

(** ** The sampler object and the machine it runs on *)

Record Sampler : Type := {
  nwalkers : nat;
  dim : nat;
  _get_lnprior : mat -> vec;
  _get_lnlike : mat -> vec;
  iterations : Z;
  _kde : option kde;
  _pool : option pool;
  accepted : list vec;
  _chain : list mat;
  _lnpost : list vec;
  _lnprop : list vec
}.

(** One proposal fit: the value of [self.iterations] when it was made and
    the points it was made from. *)
Definition fit : Type := Z * mat.

Record machine : Type := {
  self : Sampler;
  heap1 : list vec;       (* the arrays of shape (n,), by address *)
  heap2 : list mat;       (* the arrays of shape (n, d), by address *)
  gen : rng;
  fits : list fit         (* the OptimizedKDE(...) calls made so far, oldest first *)
}.

Definition M (A : Type) : Type := machine -> result A * machine.

Definition ret {A} (a : A) : M A := fun m => (Ok a, m).
Definition raise {A} (e : exn) : M A := fun m => (Raise e, m).
Definition bind {A B} (c : M A) (k : A -> M B) : M B :=
  fun m => match c m with
           | (Ok a, m') => k a m'
           | (Raise e, m') => (Raise e, m')
           end.
Definition lift {A} (r : result A) : M A := fun m => (r, m).

Declare Scope py_scope.
Delimit Scope py_scope with py.
Notation "x <- c ;; k" := (bind c (fun x => k))
  (at level 100, c at next level, right associativity) : py_scope.
Notation "c ;; k" := (bind c (fun _ => k))
  (at level 100, right associativity) : py_scope.
Local Open Scope py_scope.

Definition set_self (x : Sampler) (m : machine) : machine :=
  {| self := x; heap1 := heap1 m; heap2 := heap2 m; gen := gen m; fits := fits m |}.
Definition set_heap1 (x : list vec) (m : machine) : machine :=
  {| self := self m; heap1 := x; heap2 := heap2 m; gen := gen m; fits := fits m |}.
Definition set_heap2 (x : list mat) (m : machine) : machine :=
  {| self := self m; heap1 := heap1 m; heap2 := x; gen := gen m; fits := fits m |}.
Definition set_gen (x : rng) (m : machine) : machine :=
  {| self := self m; heap1 := heap1 m; heap2 := heap2 m; gen := x; fits := fits m |}.
Definition set_fits (x : list fit) (m : machine) : machine :=
  {| self := self m; heap1 := heap1 m; heap2 := heap2 m; gen := gen m; fits := x |}.

Definition get_self : M Sampler := fun m => (Ok (self m), m).

Definition with_self (f : Sampler -> Sampler) : M unit := fun m =>
  (Ok tt, set_self (f (self m)) m).

Definition set_iterations (i : Z) (s : Sampler) : Sampler :=
  {| nwalkers := nwalkers s; dim := dim s; _get_lnprior := _get_lnprior s;
     _get_lnlike := _get_lnlike s; iterations := i; _kde := _kde s;
     _pool := _pool s; accepted := accepted s; _chain := _chain s;
     _lnpost := _lnpost s; _lnprop := _lnprop s |}.
Definition set_kde (k : option kde) (s : Sampler) : Sampler :=
  {| nwalkers := nwalkers s; dim := dim s; _get_lnprior := _get_lnprior s;
     _get_lnlike := _get_lnlike s; iterations := iterations s; _kde := k;
     _pool := _pool s; accepted := accepted s; _chain := _chain s;
     _lnpost := _lnpost s; _lnprop := _lnprop s |}.
Definition set_accepted (h : list vec) (s : Sampler) : Sampler :=
  {| nwalkers := nwalkers s; dim := dim s; _get_lnprior := _get_lnprior s;
     _get_lnlike := _get_lnlike s; iterations := iterations s; _kde := _kde s;
     _pool := _pool s; accepted := h; _chain := _chain s;
     _lnpost := _lnpost s; _lnprop := _lnprop s |}.
Definition set_chain (h : list mat) (s : Sampler) : Sampler :=
  {| nwalkers := nwalkers s; dim := dim s; _get_lnprior := _get_lnprior s;
     _get_lnlike := _get_lnlike s; iterations := iterations s; _kde := _kde s;
     _pool := _pool s; accepted := accepted s; _chain := h;
     _lnpost := _lnpost s; _lnprop := _lnprop s |}.
Definition set_lnpost (h : list vec) (s : Sampler) : Sampler :=
  {| nwalkers := nwalkers s; dim := dim s; _get_lnprior := _get_lnprior s;
     _get_lnlike := _get_lnlike s; iterations := iterations s; _kde := _kde s;
     _pool := _pool s; accepted := accepted s; _chain := _chain s;
     _lnpost := h; _lnprop := _lnprop s |}.
Definition set_lnprop (h : list vec) (s : Sampler) : Sampler :=
  {| nwalkers := nwalkers s; dim := dim s; _get_lnprior := _get_lnprior s;
     _get_lnlike := _get_lnlike s; iterations := iterations s; _kde := _kde s;
     _pool := _pool s; accepted := accepted s; _chain := _chain s;
     _lnpost := _lnpost s; _lnprop := h |}.

(** The store: reading an array, writing it in place, making a new one. *)
Definition load1 (a : nat) : M vec := fun m =>
  match heap1 m !! a with
  | Some v => (Ok v, m)
  | None => (Raise BadAddress, m)
  end.
Definition load2 (a : nat) : M mat := fun m =>
  match heap2 m !! a with
  | Some v => (Ok v, m)
  | None => (Raise BadAddress, m)
  end.
Definition store1 (a : nat) (v : vec) : M unit := fun m =>
  (Ok tt, set_heap1 (<[a := v]> (heap1 m)) m).
Definition store2 (a : nat) (v : mat) : M unit := fun m =>
  (Ok tt, set_heap2 (<[a := v]> (heap2 m)) m).
Definition new1 (v : vec) : M nat := fun m =>
  (Ok (length (heap1 m)), set_heap1 (heap1 m ++ [v]) m).
Definition new2 (v : mat) : M nat := fun m =>
  (Ok (length (heap2 m)), set_heap2 (heap2 m ++ [v]) m).

(** Calls that use the random source. *)
Definition with_gen {A} (f : rng -> A * rng) : M A := fun m =>
  (Ok (f (gen m)).1, set_gen (f (gen m)).2 m).

(** [self._kde = OptimizedKDE(p, self._pool)], for the array at address [p]. *)
Definition build (p : nat) : M unit := fun m =>
  match heap2 m !! p with
  | None => (Raise BadAddress, m)
  | Some pv =>
      let fitted := OptimizedKDE pv (_pool (self m)) (gen m) in
      (Ok tt,
       set_fits (fits m ++ [(iterations (self m), pv)])
         (set_gen fitted.2 (set_self (set_kde (Some fitted.1) (self m)) m)))
  end.

(** [self._kde], which [sample] never finds to be [None] past its first
    lines. *)
Definition the_kde : M kde :=
  s <- get_self ;;
  match _kde s with
  | Some k => ret k
  | None => raise AttributeError
  end.

(** ** [Sampler.__init__] *)

Definition __init__ (nwalkers ndim : nat) (lnpriorfn lnlikefn : mat -> vec)
    (pool : option pool) : Sampler :=
  {| nwalkers := nwalkers;
     dim := ndim;
     _get_lnprior := lnpriorfn;
     _get_lnlike := lnlikefn;
     iterations := 0;
     _kde := None;
     _pool := pool;
     accepted := [];
     _chain := [];
     _lnpost := [];
     _lnprop := [] |}.

(** ** [Sampler.sample] *)

(** The local variables of [sample] that outlive a step: the addresses of
    the arrays [p], [lnprior], [lnlike] and [lnq]. *)
Record locals : Set := {
  p : nat;
  lnprior : nat;
  lnlike : nat;
  lnq : nat
}.

(** The candidates of one step: [p_p], [lnprior_p], [lnlike_p], [lnq_p]. *)
Record candidates : Type := {
  p_p : mat;
  lnprior_p : vec;
  lnlike_p : vec;
  lnq_p : vec
}.

(** Lines 126-132: draw the candidates and score them. *)
Definition propose : M candidates :=
  s <- get_self ;;
  k <- the_kde ;;
  pp <- with_gen (kde_draw k (nwalkers s)) ;;
  ret {| p_p := pp;
         lnprior_p := _get_lnprior s pp;
         lnlike_p := _get_lnlike s pp;
         lnq_p := kde_call k pp |}.

(** Line 135:
    [lnprior_p + lnlike_p - lnprior - lnlike + lnq - lnq_p], which Python
    evaluates from left to right. *)
Definition ln_mh_ratio_of (lnprior_p lnlike_p lnprior lnlike lnq lnq_p : vec)
  : result vec :=
  rbind (add lnprior_p lnlike_p) (fun t1 =>
  rbind (sub t1 lnprior) (fun t2 =>
  rbind (sub t2 lnlike) (fun t3 =>
  rbind (add t3 lnq) (fun t4 =>
  sub t4 lnq_p)))).

(** Lines 138-143: the acceptance mask, from the ratio and the random
    source. *)
Definition accept_mask (ln_mh_ratio : vec) : M (list bool) :=
  let acc := map (fun r => PrimFloat.ltb 0 r) ln_mh_ratio in
  let worse := map negb acc in
  let nworse := count worse in
  u <- with_gen (random_rand nworse) ;;
  lift (rbind (getitem_mask ln_mh_ratio worse) (fun r =>
        rbind (gt r (map log u)) (fun b =>
        setitem_mask acc worse b))).

(** Lines 146-150: the accepted walkers take the candidates' values, in
    place. *)
Definition update (l : locals) (c : candidates) (acc : list bool) : M unit :=
  if any acc then
    pv <- load2 (p l) ;;
    v <- lift (rbind (getitem_mask (p_p c) acc) (setitem_mask_rows pv acc)) ;;
    store2 (p l) v ;;
    a <- load1 (lnprior l) ;;
    v <- lift (rbind (getitem_mask (lnprior_p c) acc) (setitem_mask a acc)) ;;
    store1 (lnprior l) v ;;
    a <- load1 (lnlike l) ;;
    v <- lift (rbind (getitem_mask (lnlike_p c) acc) (setitem_mask a acc)) ;;
    store1 (lnlike l) v ;;
    a <- load1 (lnq l) ;;
    v <- lift (rbind (getitem_mask (lnq_p c) acc) (setitem_mask a acc)) ;;
    store1 (lnq l) v
  else ret tt.

(** Lines 153-158: the snapshot into the history, then the counter. *)
Definition record (l : locals) (acc : list bool) : M unit :=
  s <- get_self ;;
  pv <- load2 (p l) ;;
  h <- lift (setitem (_chain s) (iterations s)
               (broadcast_to2 (nwalkers s) (dim s) pv)) ;;
  with_self (set_chain h) ;;
  a <- load1 (lnprior l) ;;
  b <- load1 (lnlike l) ;;
  h <- lift (rbind (add a b) (fun v =>
             setitem (_lnpost s) (iterations s)
               (broadcast_to (nwalkers s) v))) ;;
  with_self (set_lnpost h) ;;
  a <- load1 (lnq l) ;;
  h <- lift (setitem (_lnprop s) (iterations s)
               (broadcast_to (nwalkers s) a)) ;;
  with_self (set_lnprop h) ;;
  h <- lift (setitem (accepted s) (iterations s)
               (broadcast_to (nwalkers s) (map of_bool acc))) ;;
  with_self (set_accepted h) ;;
  with_self (set_iterations (iterations s + 1)).

(** Lines 126-158: one step up to and including the counter. *)
Definition advance (l : locals) : M (list bool) :=
  c <- propose ;;
  a <- load1 (lnprior l) ;;
  b <- load1 (lnlike l) ;;
  q <- load1 (lnq l) ;;
  ln_mh_ratio <- lift (ln_mh_ratio_of (lnprior_p c) (lnlike_p c) a b q (lnq_p c)) ;;
  acc <- accept_mask ln_mh_ratio ;;
  update l c acc ;;
  record l acc ;;
  ret acc.

(** Lines 162-163: a new proposal from the current positions, and [lnq]
    bound to a new array, the new proposal's density there. *)
Definition rebuild (l : locals) : M locals :=
  build (p l) ;;
  k <- the_kde ;;
  pv <- load2 (p l) ;;
  q <- new1 (kde_call k pv) ;;
  ret {| p := p l; lnprior := lnprior l; lnlike := lnlike l; lnq := q |}.

(** Lines 161-163. *)
Definition refresh (update_interval : Z) (l : locals) : M locals :=
  s <- get_self ;;
  if update_interval =? 0 then raise ZeroDivisionError
  else if iterations s mod update_interval =? 0 then rebuild l
  else ret l.

(** The body of the loop, lines 125-163. *)
Definition step (update_interval : Z) (l : locals) : M locals :=
  advance l ;;
  refresh update_interval l.

(** [for i in xrange(int(iterations))] *)
Fixpoint loop (n : nat) (update_interval : Z) (l : locals) : M locals :=
  match n with
  | O => ret l
  | S n' => l' <- step update_interval l ;; loop n' update_interval l'
  end.

(** Lines 95-112: the copy of [p0], the first proposal, and the three
    arrays of scalars, the caller's where given. *)
Definition supplied (given : option nat) (compute : M nat) : M nat :=
  match given with
  | Some a => ret a
  | None => compute
  end.

Definition prologue (p0 : nat) (lnprior0 lnlike0 lnq0 : option nat) : M locals :=
  pv <- load2 p0 ;;
  p <- new2 pv ;;
  s <- get_self ;;
  match _kde s with
  | None => build p
  | Some _ => ret tt
  end ;;
  lnprior <- supplied lnprior0 (new1 (_get_lnprior s pv)) ;;
  lnlike <- supplied lnlike0 (new1 (_get_lnlike s pv)) ;;
  lnq <- supplied lnq0 (k <- the_kde ;; new1 (kde_call k pv)) ;;
  ret {| p := p; lnprior := lnprior; lnlike := lnlike; lnq := lnq |}.

(** Lines 115-122: the four histories, each longer by [iterations] rows of
    zeros. *)
Definition grow (iters : Z) : M unit :=
  s <- get_self ;;
  z <- lift (zeros_rows iters (zeros2 (nwalkers s) (dim s))) ;;
  with_self (set_chain (_chain s ++ z)) ;;
  z <- lift (zeros_rows iters (zeros1 (nwalkers s))) ;;
  with_self (set_lnpost (_lnpost s ++ z)) ;;
  z <- lift (zeros_rows iters (zeros1 (nwalkers s))) ;;
  with_self (set_lnprop (_lnprop s ++ z)) ;;
  z <- lift (zeros_rows iters (zeros1 (nwalkers s))) ;;
  with_self (set_accepted (accepted s ++ z)).

(** Lines 95-122, the part of [sample] before the loop. *)
Definition enter (p0 : nat) (lnprior0 lnlike0 lnq0 : option nat) (iters : Z)
  : M locals :=
  l <- prologue p0 lnprior0 lnlike0 lnq0 ;;
  grow iters ;;
  ret l.

(** [sample(p0, lnprior0, lnlike0, lnq0, iterations, update_interval)];
    the result names the four arrays returned. *)
Definition sample (p0 : nat) (lnprior0 lnlike0 lnq0 : option nat)
    (iters update_interval : Z) : M locals :=
  l <- prologue p0 lnprior0 lnlike0 lnq0 ;;
  grow iters ;;
  loop (Z.to_nat iters) update_interval l.

(** ** Machines on which [sample] runs

    The evaluators return one number per point; the arrays named by the
    locals have the shapes [(nwalkers, dim)] and [(nwalkers,)]; there is a
    proposal, whose draws have [dim] coordinates; the history has a slot
    left at [self.iterations]. *)

Definition contract (s : Sampler) : Prop :=
  (forall x, length (_get_lnprior s x) = length x) /\
  (forall x, length (_get_lnlike s x) = length x).

Definition draws_fit (s : Sampler) (k : kde) : Prop :=
  forall g, Forall (fun r => length r = dim s) (kde_draw k (nwalkers s) g).1.

Definition holds1 (m : machine) (a n : nat) : Prop :=
  exists v, heap1 m !! a = Some v /\ length v = n.

Definition holds2 (m : machine) (a n d : nat) : Prop :=
  exists v, heap2 m !! a = Some v /\ shape2 n d v.

Record shaped (l : locals) (m : machine) : Prop := {
  shaped_contract : contract (self m);
  shaped_kde : exists k, _kde (self m) = Some k /\ draws_fit (self m) k;
  shaped_p : holds2 m (p l) (nwalkers (self m)) (dim (self m));
  shaped_lnprior : holds1 m (lnprior l) (nwalkers (self m));
  shaped_lnlike : holds1 m (lnlike l) (nwalkers (self m));
  shaped_lnq : holds1 m (lnq l) (nwalkers (self m))
}.

Definition history_lengths (s : Sampler) (n : nat) : Prop :=
  length (_chain s) = n /\ length (_lnpost s) = n /\
  length (_lnprop s) = n /\ length (accepted s) = n.

Definition room (m : machine) : Prop :=
  exists n, history_lengths (self m) n /\ 0 <= iterations (self m) < Z.of_nat n.

Definition ready (l : locals) (m : machine) : Prop := shaped l m /\ room m.

(** A machine between two calls, and the arguments of a call: the history
    is as long as the counter says, [p0] names an array of shape
    [(nwalkers, dim)], and an optional array, where given, one of shape
    [(nwalkers,)]. *)
Definition given1 (m : machine) (a : option nat) (n : nat) : Prop :=
  match a with
  | Some a => holds1 m a n
  | None => True
  end.

Record callable (p0 : nat) (lnprior0 lnlike0 lnq0 : option nat) (m : machine)
  : Prop := {
  callable_contract : contract (self m);
  callable_kde : forall k, _kde (self m) = Some k -> draws_fit (self m) k;
  callable_p0 : holds2 m p0 (nwalkers (self m)) (dim (self m));
  callable_lnprior0 : given1 m lnprior0 (nwalkers (self m));
  callable_lnlike0 : given1 m lnlike0 (nwalkers (self m));
  callable_lnq0 : given1 m lnq0 (nwalkers (self m));
  callable_history : exists n, history_lengths (self m) n /\
                               iterations (self m) = Z.of_nat n
}.

(** ** The quantities of one step, named

    The candidates drawn from the proposal [k] on the machine [m], the
    random source after that draw, and the mask that lines 138-143 compute
    from a ratio [r] and the variates [u]. *)

Definition candidates_at (m : machine) (k : kde) : candidates :=
  let pp := (kde_draw k (nwalkers (self m)) (gen m)).1 in
  {| p_p := pp;
     lnprior_p := _get_lnprior (self m) pp;
     lnlike_p := _get_lnlike (self m) pp;
     lnq_p := kde_call k pp |}.

Definition gen_after_draw (m : machine) (k : kde) : rng :=
  (kde_draw k (nwalkers (self m)) (gen m)).2.

Definition worse_of (r : vec) : list bool :=
  map negb (map (fun x => PrimFloat.ltb 0 x) r).

Definition variates (r : vec) (g : rng) : vec :=
  (random_rand (count (worse_of r)) g).1.

Definition verdicts (r u : vec) : list bool :=
  mask_put (map (fun x => PrimFloat.ltb 0 x) r) (worse_of r)
    (zip_with (fun x y => PrimFloat.ltb y x) (mask_get r (worse_of r)) (map log u)).

(** The stores after lines 146-150: at each of the four addresses, the
    candidate's entries where the mask is true. *)
Definition masked_copy {A} (a : list A) (acc : list bool) (c : list A) : list A :=
  mask_put a acc (mask_get c acc).

Definition copy_into {A} (h : list (list A)) (addr : nat) (acc : list bool)
    (c : list A) : list (list A) :=
  match h !! addr with
  | Some a => <[addr := masked_copy a acc c]> h
  | None => h
  end.

Definition updated2 (l : locals) (c : candidates) (acc : list bool)
    (h : list mat) : list mat :=
  copy_into h (p l) acc (p_p c).

Definition updated1 (l : locals) (c : candidates) (acc : list bool)
    (h : list vec) : list vec :=
  copy_into
    (copy_into (copy_into h (lnprior l) acc (lnprior_p c))
       (lnlike l) acc (lnlike_p c))
    (lnq l) acc (lnq_p c).

(** The sampler after lines 153-158, for the arrays [pv], [a], [b], [q]
    found at the four addresses. *)
Definition recorded (s : Sampler) (pv : mat) (a b q : vec) (acc : list bool)
  : Sampler :=
  let i := Z.to_nat (iterations s) in
  set_iterations (iterations s + 1)
    (set_accepted (<[i := map of_bool acc]> (accepted s))
       (set_lnprop (<[i := q]> (_lnprop s))
          (set_lnpost (<[i := zip_with PrimFloat.add a b]> (_lnpost s))
             (set_chain (<[i := pv]> (_chain s)) s)))).

(** The ratio of line 135 on arrays of one length, the ratio and the mask
    of a step that starts on the machine [m] with the proposal [k], and
    the machine that lines 126-158 leave. *)
Definition ratios (c : candidates) (a b q : vec) : vec :=
  zip_with PrimFloat.sub
    (zip_with PrimFloat.add
       (zip_with PrimFloat.sub
          (zip_with PrimFloat.sub
             (zip_with PrimFloat.add (lnprior_p c) (lnlike_p c)) a) b) q)
    (lnq_p c).

Definition ratio_at (l : locals) (m : machine) (k : kde) : vec :=
  ratios (candidates_at m k) (heap1 m !!! lnprior l) (heap1 m !!! lnlike l)
    (heap1 m !!! lnq l).

Definition mask_at (l : locals) (m : machine) (k : kde) : list bool :=
  verdicts (ratio_at l m k) (variates (ratio_at l m k) (gen_after_draw m k)).

Definition advanced (l : locals) (m : machine) (k : kde) : machine :=
  let c := candidates_at m k in
  let acc := mask_at l m k in
  let h1 := updated1 l c acc (heap1 m) in
  let h2 := updated2 l c acc (heap2 m) in
  let g2 := (random_rand (count (worse_of (ratio_at l m k))) (gen_after_draw m k)).2 in
  set_self
    (recorded (self m) (h2 !!! p l) (h1 !!! lnprior l) (h1 !!! lnlike l)
       (h1 !!! lnq l) acc)
    (set_heap1 h1 (set_heap2 h2 (set_gen g2 m))).

(** The machine and the locals that lines 162-163 leave. *)
Definition rebuilt (l : locals) (m : machine) : machine :=
  let pv := heap2 m !!! p l in
  let fitted := OptimizedKDE pv (_pool (self m)) (gen m) in
  set_heap1 (heap1 m ++ [kde_call fitted.1 pv])
    (set_fits (fits m ++ [(iterations (self m), pv)])
       (set_gen fitted.2 (set_self (set_kde (Some fitted.1) (self m)) m))).

Definition rebound (l : locals) (m : machine) : locals :=
  {| p := p l; lnprior := lnprior l; lnlike := lnlike l;
     lnq := length (heap1 m) |}.

(** The entry of walker [j] in the array at an address. *)
Definition entry1 (m : machine) (a j : nat) : option float :=
  v ← heap1 m !! a; v !! j.
Definition entry2 (m : machine) (a j : nat) : option vec :=
  v ← heap2 m !! a; v !! j.

(** The arguments of a call of which one optional array has neither
    [nwalkers] entries nor one: each optional array given is an array, and
    one of them is of such a length. *)
Definition named1 (m : machine) (given : option nat) : Prop :=
  match given with
  | Some a => is_Some (heap1 m !! a)
  | None => True
  end.

Definition misfit (m : machine) (given : option nat) (n : nat) : Prop :=
  match given with
  | Some a => exists v, heap1 m !! a = Some v /\ length v <> n /\ length v <> 1%nat
  | None => False
  end.

(** Line 161 on the machine [m]. *)
Definition due (update_interval : Z) (m : machine) : bool :=
  iterations (self m) mod update_interval =? 0.

(** The values that the counter takes in a run of [iters] steps from the
    counter [c] and that are multiples of [update_interval]. *)
Definition rebuild_counts (c iters update_interval : Z) : list Z :=
  filter (fun x => x mod update_interval = 0) (seqZ (c + 1) iters).

(** The counter values at which the proposals so far were fitted. *)
Definition fit_counts (m : machine) : list Z := map fst (fits m).

(** What [n] steps from [(l, m)] to [(l', m')] keep and change. *)
Record ran (update_interval : Z) (n : nat) (l : locals) (m : machine)
    (l' : locals) (m' : machine) : Prop := {
  ran_shaped : shaped l' m';
  ran_static : nwalkers (self m') = nwalkers (self m) /\
               dim (self m') = dim (self m);
  ran_counter : iterations (self m') = iterations (self m) + Z.of_nat n;
  ran_lengths : forall hl, history_lengths (self m) hl ->
                           history_lengths (self m') hl;
  ran_prefix : forall i, (i < Z.to_nat (iterations (self m)))%nat ->
    _chain (self m') !! i = _chain (self m) !! i /\
    _lnpost (self m') !! i = _lnpost (self m) !! i /\
    _lnprop (self m') !! i = _lnprop (self m) !! i /\
    accepted (self m') !! i = accepted (self m) !! i;
  ran_locals : p l' = p l /\ lnprior l' = lnprior l /\ lnlike l' = lnlike l;
  ran_lnq :
    (rebuild_counts (iterations (self m)) (Z.of_nat n) update_interval = [] /\
     lnq l' = lnq l) \/
    (rebuild_counts (iterations (self m)) (Z.of_nat n) update_interval <> [] /\
     (length (heap1 m) <= lnq l')%nat);
  ran_heap1 : (length (heap1 m) <= length (heap1 m'))%nat;
  ran_heap2 : length (heap2 m') = length (heap2 m) /\
              forall x, x <> p l -> heap2 m' !! x = heap2 m !! x;
  ran_fits : fit_counts m' =
             fit_counts m ++
             rebuild_counts (iterations (self m)) (Z.of_nat n) update_interval
}.

(** The machine and the locals that lines 95-112 leave, and the sampler
    that lines 115-122 leave. *)
Definition built (pv : mat) (m : machine) : machine :=
  let fitted := OptimizedKDE pv (_pool (self m)) (gen m) in
  set_fits (fits m ++ [(iterations (self m), pv)])
    (set_gen fitted.2 (set_self (set_kde (Some fitted.1) (self m)) m)).

Definition alloc1 (given : option nat) (v : vec) (m : machine) : nat * machine :=
  match given with
  | Some a => (a, m)
  | None => (length (heap1 m), set_heap1 (heap1 m ++ [v]) m)
  end.

Definition prepared (p0 : nat) (lnprior0 lnlike0 lnq0 : option nat)
    (m : machine) : locals * machine :=
  let pv := heap2 m !!! p0 in
  let m1 := set_heap2 (heap2 m ++ [pv]) m in
  let m2 := match _kde (self m) with
            | None => built pv m1
            | Some _ => m1
            end in
  let a := alloc1 lnprior0 (_get_lnprior (self m) pv) m2 in
  let b := alloc1 lnlike0 (_get_lnlike (self m) pv) a.2 in
  let k := default (OptimizedKDE pv (_pool (self m)) (gen m)).1 (_kde (self m)) in
  let q := alloc1 lnq0 (kde_call k pv) b.2 in
  ({| p := length (heap2 m); lnprior := a.1; lnlike := b.1; lnq := q.1 |}, q.2).

Definition grown (iters : Z) (s : Sampler) : Sampler :=
  let k := Z.to_nat iters in
  set_accepted (accepted s ++ replicate k (zeros1 (nwalkers s)))
    (set_lnprop (_lnprop s ++ replicate k (zeros1 (nwalkers s)))
       (set_lnpost (_lnpost s ++ replicate k (zeros1 (nwalkers s)))
          (set_chain (_chain s ++ replicate k (zeros2 (nwalkers s) (dim s))) s))).

End Kombine.

Arguments Sampler {_}.
Arguments machine {_}.
Arguments M {_} A.

(** ** Scalars that go with the positions

    An evaluator that works point by point; the arrays of scalars of the
    loop holding the values of the evaluators, and of the proposal in
    force, at the positions of the ensemble; and an optional argument
    that, where given, holds the numbers [v]. *)

Section Current.

Context `{Externals}.

Definition rowwise (f : mat -> vec) : Prop :=
  exists g : vec -> float, forall x, f x = map g x.

Definition current (l : locals) (m : machine) : Prop :=
  exists (pv : mat) (k : kde),
    heap2 m !! p l = Some pv /\ _kde (self m) = Some k /\
    heap1 m !! lnprior l = Some (_get_lnprior (self m) pv) /\
    heap1 m !! lnlike l = Some (_get_lnlike (self m) pv) /\
    heap1 m !! lnq l = Some (kde_call k pv).

Definition holding (m : machine) (given : option nat) (v : vec) : Prop :=
  match given with
  | Some a => heap1 m !! a = Some v
  | None => True
  end.

(** The addresses given, in the order of the arguments. *)
Definition given_addresses (lnprior0 lnlike0 lnq0 : option nat) : list nat :=
  omap id [lnprior0; lnlike0; lnq0].

End Current.

(** ** Two runs side by side

    The loop at [(l1, m1)] and at [(l2, m2)] when the two differ in this
    only: the histories of the first have [s] more rows of zeros at their
    end, and the positions may be in two different arrays, which hold the
    same points. *)

Section Alike.

Context `{Externals}.

Definition alike (s : Z) (l1 : locals) (m1 : machine) (l2 : locals) (m2 : machine)
  : Prop :=
  self m1 = grown s (self m2) /\ gen m1 = gen m2 /\ fits m1 = fits m2 /\
  heap1 m1 = heap1 m2 /\
  lnprior l1 = lnprior l2 /\ lnlike l1 = lnlike l2 /\ lnq l1 = lnq l2 /\
  heap2 m1 !! p l1 = heap2 m2 !! p l2.

End Alike.

(** ** Histories with rows to spare

    The machine [mx] is the machine [m] with [e] more rows of zeros at the
    end of each of the four histories, rows that the counter does not
    account for. *)

Section Spare.

Context `{Externals}.

Definition spare (e : Z) (mx m : machine) : Prop :=
  self mx = grown e (self m) /\ heap1 mx = heap1 m /\ heap2 mx = heap2 m /\
  gen mx = gen m /\ fits mx = fits m.

End Spare.

(** ** A scripted proposal and a one-sided target

    A stand-in for the collaborators, to run [sample] on concrete inputs.
    The random source is a tape of numbers, read from its head.

    - the fitted proposal remembers its points; its log density at [x] is
      [-|x0 - c0|], with [x0] the first coordinate of [x] and [c0] that of
      the first fitted point;
    - a draw of [n] reads [n] numbers: the [i]-th point drawn has every
      coordinate equal to the [i]-th of them;
    - [rand(n)] reads [n] numbers;
    - past its end the tape reads [0.5];
    - [log u] is [u - 1], which stands for the logarithm: like it, it is
      negative for a variate below one, so that a walker with the ratio
      zero is accepted, and it is above [-inf].

    The target has the prior [x0 >= 0] (log density [0], and [-inf]
    outside) and the log likelihood [-x0]. *)

Module Scripted.

Definition coord0 (r : vec) : float := hd 0%float r.
Definition centre (k : mat) : float := coord0 (hd [] k).

Definition tape : Type := list float.
Definition read (n : nat) (g : tape) : vec := take n (g ++ replicate n 0.5%float).

#[export] Instance externals : Externals := {|
  pool := unit;
  kde := mat;
  rng := tape;
  OptimizedKDE := fun pts _ g => (pts, g);
  kde_call := fun k x =>
    map (fun r => PrimFloat.opp (PrimFloat.abs (PrimFloat.sub (coord0 r) (centre k)))) x;
  kde_draw := fun k n g =>
    (map (fun x => map (fun _ => x) (hd [] k)) (read n g), drop n g);
  random_rand := fun n g => (read n g, drop n g);
  log := fun u => PrimFloat.sub u 1%float
|}.

Definition lnpriorfn (x : mat) : vec :=
  map (fun r => if PrimFloat.ltb (coord0 r) 0%float then neg_infinity else 0%float) x.
Definition lnlikefn (x : mat) : vec :=
  map (fun r => PrimFloat.opp (coord0 r)) x.

(** A new sampler of [n] walkers on the line, and the machine a caller
    starts from: its arrays in the store, the tape to come, no fit yet. *)
Definition sampler (n : nat) : Sampler := __init__ n 1 lnpriorfn lnlikefn None.

Definition boot (n : nat) (vecs : list vec) (mats : list mat) (g : tape) : machine :=
  {| self := sampler n; heap1 := vecs; heap2 := mats; gen := g; fits := [] |}.

(** The machine after a call, whatever the call returned. *)
Definition after {A} (c : M A) (m : machine) : machine := (c m).2.

(** Two walkers at [2] and [1].  The tape gives the candidates [1] and
    [-1], then the variate [0.5]: the first walker is accepted with the
    ratio [2], the second rejected with the ratio [-inf], its candidate
    being outside the prior. *)
Definition start : machine :=
  boot 2 [] [ [[2]; [1]] ]%float [1; -1; 0.5]%float.

(** [start] at the head of the loop of a call of one step, and the locals
    there. *)
Definition primed : machine := after (enter 0 None None None 1) start.
Definition at_loop : locals := {| p := 1; lnprior := 0; lnlike := 1; lnq := 2 |}.

(** The proposal of [primed], fitted to the two walkers. *)
Definition fitted : mat := [[2]; [1]]%float.

(** Two walkers at [1] and at [-2], outside the prior; the candidates
    are [3] and [-1].  The first walker has the ratio [0] and is accepted
    with the variate [0.5]; the second has the ratio [nan], its log prior
    and its candidate's being both [-inf]. *)
Definition start_nan : machine :=
  boot 2 [] [ [[1]; [-2]] ]%float [3; -1; 0.5; 0.5]%float.
Definition primed_nan : machine :=
  after (enter 0 None None None 1) start_nan.
Definition fitted_nan : mat := [[1]; [-2]]%float.

(** [start] with an array of three numbers, to be passed as [lnprior0],
    and [start] with the array [lnq0] of the two walkers. *)
Definition start_long : machine :=
  boot 2 [ [0; 0; 0] ]%float [ [[2]; [1]] ]%float [1; -1; 0.5]%float.
Definition start_with_lnq : machine :=
  boot 2 [ [-0; -1] ]%float [ [[2]; [1]] ]%float [1; -1; 0.5]%float.

(** Two walkers at [-2], outside the prior, and [1]; both candidates are
    [3], inside it, so the first walker has the ratio [+inf]. *)
Definition start_escape : machine :=
  boot 2 [] [ [[-2]; [1]] ]%float [3; 3; 0.5; 0.5]%float.
Definition primed_escape : machine :=
  after (enter 0 None None None 1) start_escape.
Definition fitted_outside : mat := [[-2]; [1]]%float.

(** [start] with the array of the log priors of the two walkers, to be
    passed as [lnprior0]. *)
Definition start_with_lnprior : machine :=
  boot 2 [ [0; 0] ]%float [ [[2]; [1]] ]%float [1; -1; 0.5]%float.

(** [start] with a longer tape, at the head of the loop of a call of two
    steps: the second step has the candidates [0.5] and [-3], and rejects
    the second walker. *)
Definition start_two : machine :=
  boot 2 [] [ [[2]; [1]] ]%float [1; -1; 0.5; 0.5; -3; 0.5]%float.
Definition primed_two : machine :=
  after (enter 0 None None None 2) start_two.

(** A sampler of two walkers and an array of three points, to be passed
    as [p0]. *)
Definition start_three : machine :=
  boot 2 [] [ [[2]; [1]; [0]] ]%float [1; -1; 0.5]%float.

(** The machine that the call of [start_long] with the array of three
    numbers as [lnprior0] leaves when it fails, and that machine with the
    sampler that lines 95-112 of the call left, whose histories have no
    row yet. *)
Definition failed : machine :=
  after (sample 0 (Some 0%nat) None None 1 1) start_long.
Definition settled : machine :=
  set_self (self (after (prologue 0 (Some 0%nat) None None) start_long)) failed.

(** [start] with an array of one number, to be passed as [lnprior0], and
    that machine at the head of the loop of a call of one step. *)
Definition start_one : machine :=
  boot 2 [ [0] ]%float [ [[2]; [1]] ]%float [1; -1; 0.5]%float.
Definition primed_one : machine :=
  after (enter 0 (Some 0%nat) None None 1) start_one.

End Scripted.

(** * Lemmas *)

(** ** Arrays of matching shapes *)

Section Arrays.

Context {A B C : Type}.
Implicit Types (m : list bool) (j : nat).

Lemma broadcast2_same (f : A -> B -> C) (a : list A) (b : list B) :
  length a = length b -> broadcast2 f a b = Ok (zip_with f a b).
Proof.
  intros E. unfold broadcast2. rewrite E, Nat.eqb_refl. reflexivity.
Qed.

Lemma broadcast2_mismatch (f : A -> B -> C) (a : list A) (b : list B) :
  length a <> length b -> length a <> 1%nat -> length b <> 1%nat ->
  broadcast2 f a b = Raise ValueError.
Proof.
  intros E Ea Eb. unfold broadcast2.
  destruct (Nat.eqb_spec (length a) (length b)) as [|_]; [contradiction|].
  destruct a as [|x [|x' a]]; destruct b as [|y [|y' b]];
    simpl in *; congruence.
Qed.

Lemma broadcast_to_same n (v : list A) :
  length v = n -> broadcast_to n v = Ok v.
Proof.
  intros E. unfold broadcast_to. rewrite E, Nat.eqb_refl. reflexivity.
Qed.

Lemma traverse_broadcast_same d (a : list (list A)) :
  Forall (fun r => length r = d) a -> traverse (broadcast_to d) a = Ok a.
Proof.
  induction 1 as [|r a Hr _ IH]; simpl; [reflexivity|].
  rewrite (broadcast_to_same _ _ Hr). simpl. rewrite IH. reflexivity.
Qed.

Lemma length_mask_get (a : list A) m :
  length a = length m -> length (mask_get a m) = count m.
Proof.
  revert m. induction a as [|x a IH]; intros [|b m] E; simpl in *;
    try reflexivity; try discriminate.
  destruct b; simpl; rewrite IH by lia; reflexivity.
Qed.

Lemma length_mask_put (a v : list A) m : length (mask_put a m v) = length a.
Proof.
  revert m v. induction a as [|x a IH]; intros [|b m] v; simpl; try reflexivity.
  destruct b; [destruct v|]; simpl; rewrite IH; reflexivity.
Qed.

Lemma mask_put_stays (a v : list A) m j :
  m !! j = Some false -> mask_put a m v !! j = a !! j.
Proof.
  revert m v j. induction a as [|x a IH]; intros [|b m] v j Hj; simpl;
    try reflexivity.
  destruct j as [|j]; simpl in Hj.
  - injection Hj as ->. reflexivity.
  - destruct b; [destruct v|]; simpl; apply IH; exact Hj.
Qed.

(** The [j]-th entry of the mask, when true, is served by the entry of [v]
    whose index is the number of true entries before [j]. *)
Lemma mask_put_rank (a v : list A) m j :
  length a = length m -> (count m <= length v)%nat ->
  m !! j = Some true -> mask_put a m v !! j = v !! count (take j m).
Proof.
  revert m v j. induction a as [|x a IH]; intros [|b m] v j E Hv Hj;
    simpl in *; try discriminate.
  destruct j as [|j]; simpl in Hj.
  - injection Hj as ->. destruct v; simpl in *; [lia|reflexivity].
  - destruct b; [destruct v as [|y v]|]; simpl in *; try lia;
      apply IH; try lia; exact Hj.
Qed.

Lemma mask_get_rank (a : list A) m j :
  length a = length m ->
  m !! j = Some true -> mask_get a m !! count (take j m) = a !! j.
Proof.
  revert m j. induction a as [|x a IH]; intros [|b m] j E Hj;
    simpl in *; try discriminate.
  destruct j as [|j]; simpl in Hj.
  - injection Hj as ->. reflexivity.
  - destruct b; simpl; apply IH; try lia; exact Hj.
Qed.

Lemma mask_put_none (a v : list A) m : any m = false -> mask_put a m v = a.
Proof.
  revert m v. induction a as [|x a IH]; intros [|b m] v Hm; simpl;
    try reflexivity.
  unfold any in Hm. simpl in Hm. apply orb_false_iff in Hm as [Hb Hm].
  unfold id in Hb. subst b. rewrite IH by exact Hm. reflexivity.
Qed.

Lemma count_take_le m j : (count (take j m) <= count m)%nat.
Proof.
  revert j. induction m as [|b m IH]; intros [|j]; simpl; try lia.
  specialize (IH j). destruct b; lia.
Qed.

Lemma count_take_lt m j :
  m !! j = Some true -> (count (take j m) < count m)%nat.
Proof.
  revert j. induction m as [|b m IH]; intros [|j] Hj; simpl in *;
    try discriminate.
  - injection Hj as ->. lia.
  - specialize (IH j Hj). destruct b; lia.
Qed.

End Arrays.

(** [a[mask] = c[mask]]: the entries of [c] where the mask is true, those of
    [a] elsewhere. *)
Lemma masked_copy_lookup {A} (a c : list A) (m : list bool) (j : nat) (b : bool) :
  length a = length m -> length c = length m -> m !! j = Some b ->
  mask_put a m (mask_get c m) !! j = if b then c !! j else a !! j.
Proof.
  intros Ea Ec Hj. destruct b.
  - rewrite mask_put_rank; auto.
    + apply mask_get_rank; auto.
    + rewrite length_mask_get; auto.
  - apply mask_put_stays; exact Hj.
Qed.

Lemma setitem_mask_copy {A} (a c : list A) (m : list bool) :
  length a = length m -> length c = length m ->
  rbind (getitem_mask c m) (setitem_mask a m) = Ok (mask_put a m (mask_get c m)).
Proof.
  intros Ea Ec. unfold getitem_mask. rewrite Ec, Nat.eqb_refl. simpl.
  unfold setitem_mask. rewrite Ea, Nat.eqb_refl.
  rewrite broadcast_to_same by (apply length_mask_get; exact Ec).
  reflexivity.
Qed.

Lemma Forall_mask_get {A} (P : A -> Prop) (c : list A) (m : list bool) :
  Forall P c -> Forall P (mask_get c m).
Proof.
  intros Hc. revert m. induction Hc as [|x c Hx _ IH]; intros [|b m]; simpl;
    try constructor.
  destruct b; [constructor; auto|]; apply IH.
Qed.

Lemma Forall_mask_put {A} (P : A -> Prop) (a v : list A) (m : list bool) :
  Forall P a -> Forall P v -> Forall P (mask_put a m v).
Proof.
  intros Ha. revert m v. induction Ha as [|x a Hx Ha IH]; intros [|b m] v Hv;
    simpl; try constructor; auto.
  destruct b.
  - destruct Hv as [|y v Hy Hv]; constructor; auto.
  - constructor; auto.
Qed.

Lemma width_shape2 n d (a : mat) : shape2 n d a -> n <> O -> width a = d.
Proof.
  intros [El Hw] Hn. unfold width. destruct Hw; simpl in *; [congruence|assumption].
Qed.

Lemma broadcast_to2_same n d (a : mat) :
  shape2 n d a -> broadcast_to2 n d a = Ok a.
Proof.
  intros [El Hw]. unfold broadcast_to2.
  rewrite traverse_broadcast_same by exact Hw. simpl.
  apply broadcast_to_same. exact El.
Qed.

Lemma any_length m : any m = true -> length m <> O.
Proof. destruct m; simpl; [discriminate|lia]. Qed.

Lemma setitem_mask_rows_copy n d (a c : mat) (m : list bool) :
  shape2 n d a -> shape2 n d c -> length m = n -> any m = true ->
  rbind (getitem_mask c m) (setitem_mask_rows a m) = Ok (mask_put a m (mask_get c m)).
Proof.
  intros Ha Hc Em Hm.
  pose proof (any_length _ Hm) as Hn.
  destruct Ha as [Ea Wa], Hc as [Ec Wc].
  unfold getitem_mask. rewrite Ec, Em, Nat.eqb_refl. simpl.
  unfold setitem_mask_rows. rewrite Ea, Em, Nat.eqb_refl.
  rewrite (width_shape2 n d a); [|split; assumption|congruence].
  rewrite broadcast_to2_same; [reflexivity|].
  split; [apply length_mask_get; lia | apply Forall_mask_get; exact Wc].
Qed.

Lemma py_index_in (len : nat) (i : Z) :
  0 <= i < Z.of_nat len -> py_index len i = Some (Z.to_nat i).
Proof.
  intros Hi. unfold py_index.
  destruct (Z.ltb_spec i 0) as [|_]; [lia|].
  destruct (Z.leb_spec 0 i); [|lia].
  destruct (Z.ltb_spec i (Z.of_nat len)); [|lia]. reflexivity.
Qed.

Lemma setitem_in {A} (h : list A) (i : Z) (v : A) :
  0 <= i < Z.of_nat (length h) ->
  setitem h i (Ok v) = Ok (<[Z.to_nat i := v]> h).
Proof. intros Hi. unfold setitem. rewrite py_index_in by exact Hi. reflexivity. Qed.

(** ** The monad, the ratio and the mask *)

Section Monad.

Context `{ES : ExternalsShapes}.

Implicit Types (m : machine) (l : locals) (s : Sampler).

Lemma bind_ok {A B} (c : M A) (k : A -> M B) m a m' :
  c m = (Ok a, m') -> bind c k m = k a m'.
Proof. intros E. unfold bind. rewrite E. reflexivity. Qed.

Lemma bind_raise {A B} (c : M A) (k : A -> M B) m e m' :
  c m = (Raise e, m') -> bind c k m = (Raise e, m').
Proof. intros E. unfold bind. rewrite E. reflexivity. Qed.

Lemma load1_ok m a v : heap1 m !! a = Some v -> load1 a m = (Ok v, m).
Proof. intros E. unfold load1. rewrite E. reflexivity. Qed.

Lemma load2_ok m a v : heap2 m !! a = Some v -> load2 a m = (Ok v, m).
Proof. intros E. unfold load2. rewrite E. reflexivity. Qed.

Lemma the_kde_ok m k : _kde (self m) = Some k -> the_kde m = (Ok k, m).
Proof. intros E. unfold the_kde, bind, get_self. rewrite E. reflexivity. Qed.

Lemma propose_ok m k :
  _kde (self m) = Some k ->
  propose m = (Ok (candidates_at m k), set_gen (gen_after_draw m k) m).
Proof.
  intros E. unfold propose.
  rewrite (bind_ok get_self _ m (self m) m) by reflexivity.
  rewrite (bind_ok the_kde _ m k m) by (apply the_kde_ok; exact E).
  reflexivity.
Qed.

(** *** The ratio *)

Lemma ln_mh_ratio_lengths (lpp llp a b q lqp : vec) n :
  length lpp = n -> length llp = n -> length a = n -> length b = n ->
  length q = n -> length lqp = n ->
  ln_mh_ratio_of lpp llp a b q lqp =
    Ok (zip_with PrimFloat.sub
          (zip_with PrimFloat.add
             (zip_with PrimFloat.sub
                (zip_with PrimFloat.sub (zip_with PrimFloat.add lpp llp) a) b) q) lqp).
Proof.
  intros E1 E2 E3 E4 E5 E6. unfold ln_mh_ratio_of, add, sub.
  rewrite broadcast2_same by congruence. simpl.
  rewrite broadcast2_same by (rewrite length_zip_with; lia). simpl.
  rewrite broadcast2_same by (rewrite !length_zip_with; lia). simpl.
  rewrite broadcast2_same by (rewrite !length_zip_with; lia). simpl.
  rewrite broadcast2_same by (rewrite !length_zip_with; lia).
  reflexivity.
Qed.

Lemma ln_mh_ratio_length (lpp llp a b q lqp r : vec) n :
  length lpp = n -> length llp = n -> length a = n -> length b = n ->
  length q = n -> length lqp = n ->
  ln_mh_ratio_of lpp llp a b q lqp = Ok r -> length r = n.
Proof.
  intros E1 E2 E3 E4 E5 E6 Hr.
  rewrite (ln_mh_ratio_lengths _ _ _ _ _ _ n) in Hr by assumption.
  injection Hr as <-. rewrite !length_zip_with. lia.
Qed.

Lemma ln_mh_ratio_lookup (lpp llp a b q lqp r : vec) n j x1 x2 x3 x4 x5 x6 :
  length lpp = n -> length llp = n -> length a = n -> length b = n ->
  length q = n -> length lqp = n ->
  ln_mh_ratio_of lpp llp a b q lqp = Ok r ->
  lpp !! j = Some x1 -> llp !! j = Some x2 -> a !! j = Some x3 ->
  b !! j = Some x4 -> q !! j = Some x5 -> lqp !! j = Some x6 ->
  r !! j = Some (x1 + x2 - x3 - x4 + x5 - x6)%float.
Proof.
  intros E1 E2 E3 E4 E5 E6 Hr H1 H2 H3 H4 H5 H6.
  rewrite (ln_mh_ratio_lengths _ _ _ _ _ _ n) in Hr by assumption.
  injection Hr as <-.
  rewrite !lookup_zip_with, H1, H2, H3, H4, H5, H6. reflexivity.
Qed.

(** *** The mask *)

Lemma length_worse_of (r : vec) : length (worse_of r) = length r.
Proof. unfold worse_of. rewrite !length_map. reflexivity. Qed.

Lemma worse_of_lookup (r : vec) j x :
  r !! j = Some x -> worse_of r !! j = Some (negb (PrimFloat.ltb 0 x)).
Proof.
  intros Hj. unfold worse_of. rewrite !list_lookup_fmap, Hj. reflexivity.
Qed.

Lemma accept_mask_ok (r : vec) m :
  accept_mask r m =
    (Ok (verdicts r (variates r (gen m))),
     set_gen (random_rand (count (worse_of r)) (gen m)).2 m).
Proof.
  unfold accept_mask. fold (worse_of r).
  rewrite (bind_ok (with_gen _) _ m (variates r (gen m))
             (set_gen (random_rand (count (worse_of r)) (gen m)).2 m))
    by reflexivity.
  unfold lift, getitem_mask. rewrite length_worse_of, Nat.eqb_refl. simpl.
  unfold gt. rewrite broadcast2_same.
  2:{ rewrite length_mask_get by (rewrite length_worse_of; reflexivity).
      rewrite length_map. unfold variates. rewrite random_rand_shape.
      reflexivity. }
  simpl. unfold setitem_mask.
  rewrite length_worse_of, length_map, Nat.eqb_refl.
  rewrite broadcast_to_same.
  2:{ rewrite length_zip_with, length_map.
      rewrite length_mask_get by (rewrite length_worse_of; reflexivity).
      unfold variates. rewrite random_rand_shape. lia. }
  reflexivity.
Qed.

Lemma length_verdicts (r u : vec) : length (verdicts r u) = length r.
Proof. unfold verdicts. rewrite length_mask_put, length_map. reflexivity. Qed.

(** A walker with a positive ratio is accepted; any other is accepted when
    its ratio exceeds the logarithm of its variate, the one whose index is
    the number of such walkers before it. *)
Lemma verdicts_lookup (r u : vec) j x :
  length u = count (worse_of r) ->
  r !! j = Some x ->
  verdicts r u !! j =
    if PrimFloat.ltb 0 x then Some true
    else y ← u !! count (take j (worse_of r)); Some (PrimFloat.ltb (log y) x).
Proof.
  intros Hu Hj. unfold verdicts.
  pose proof (worse_of_lookup r j x Hj) as Hw.
  destruct (PrimFloat.ltb 0 x) eqn:Hx; simpl in Hw.
  - rewrite mask_put_stays by exact Hw.
    rewrite list_lookup_fmap, Hj. simpl. rewrite Hx. reflexivity.
  - rewrite mask_put_rank; try exact Hw.
    + rewrite lookup_zip_with.
      rewrite mask_get_rank by (try exact Hw; rewrite length_worse_of; reflexivity).
      rewrite Hj. simpl. rewrite list_lookup_fmap.
      destruct (u !! _); reflexivity.
    + rewrite length_map, length_worse_of. reflexivity.
    + rewrite length_zip_with, length_map.
      rewrite length_mask_get by (rewrite length_worse_of; reflexivity). lia.
Qed.

End Monad.

(** ** The stores after an update *)

Section Stores.

Context {A : Type}.
Implicit Types (h : list (list A)) (acc : list bool) (c : list A).

Lemma length_masked_copy (a : list A) acc c :
  length (masked_copy a acc c) = length a.
Proof. apply length_mask_put. Qed.

Lemma length_copy_into h addr acc c :
  length (copy_into h addr acc c) = length h.
Proof.
  unfold copy_into. destruct (h !! addr); [apply length_insert|reflexivity].
Qed.

Lemma copy_into_lookup h addr acc c x :
  copy_into h addr acc c !! x =
    if decide (x = addr) then (fun a => masked_copy a acc c) <$> h !! x
    else h !! x.
Proof.
  unfold copy_into. destruct (decide (x = addr)) as [->|Hx].
  - destruct (h !! addr) as [a|] eqn:Ha; simpl.
    + apply list_lookup_insert_eq. eapply lookup_lt_Some; eassumption.
    + exact Ha.
  - destruct (h !! addr); [apply list_lookup_insert_ne; congruence|reflexivity].
Qed.

Lemma copy_into_none h addr acc c :
  any acc = false -> copy_into h addr acc c = h.
Proof.
  intros Hacc. unfold copy_into, masked_copy.
  destruct (h !! addr) as [a|] eqn:Ha; [|reflexivity].
  rewrite mask_put_none by exact Hacc. apply list_insert_id. exact Ha.
Qed.

(** Whatever the addresses, an update keeps the lengths of the arrays ... *)
Lemma copy_into_length_at h addr acc c x v n :
  h !! x = Some v -> length v = n ->
  exists v', copy_into h addr acc c !! x = Some v' /\ length v' = n.
Proof.
  intros Hx Hn. rewrite copy_into_lookup, Hx.
  destruct (decide (x = addr)); simpl; eexists; split; try reflexivity;
    rewrite ?length_masked_copy; exact Hn.
Qed.

(** ... and the entries of the walkers it does not accept. *)
Lemma copy_into_stays h addr acc c x v j :
  h !! x = Some v -> acc !! j = Some false ->
  exists v', copy_into h addr acc c !! x = Some v' /\ v' !! j = v !! j.
Proof.
  intros Hx Hj. rewrite copy_into_lookup, Hx.
  destruct (decide (x = addr)); simpl; eexists; split; try reflexivity.
  apply mask_put_stays. exact Hj.
Qed.

Lemma copy_into_takes h addr acc c v j :
  h !! addr = Some v -> length v = length acc -> length c = length acc ->
  acc !! j = Some true ->
  exists v', copy_into h addr acc c !! addr = Some v' /\ v' !! j = c !! j.
Proof.
  intros Hx Ev Ec Hj. rewrite copy_into_lookup, Hx.
  rewrite decide_True by reflexivity. simpl. eexists; split; [reflexivity|].
  unfold masked_copy. rewrite (masked_copy_lookup v c acc j true); auto.
Qed.

End Stores.

(** ** The update and the snapshot *)

Section Update.

Context `{ES : ExternalsShapes}.

Implicit Types (m : machine) (l : locals) (s : Sampler).

Lemma machine_eta m :
  {| self := self m; heap1 := heap1 m; heap2 := heap2 m; gen := gen m;
     fits := fits m |} = m.
Proof. destruct m; reflexivity. Qed.

(** What the entries of [updated1] are, address by address. *)
Lemma updated1_length_at l c acc (h : list vec) x v n :
  h !! x = Some v -> length v = n ->
  exists v', updated1 l c acc h !! x = Some v' /\ length v' = n.
Proof.
  intros Hx Hn. unfold updated1.
  destruct (copy_into_length_at h (lnprior l) acc (lnprior_p c) x v n Hx Hn)
    as (v1 & H1 & E1).
  destruct (copy_into_length_at _ (lnlike l) acc (lnlike_p c) x v1 n H1 E1)
    as (v2 & H2 & E2).
  exact (copy_into_length_at _ (lnq l) acc (lnq_p c) x v2 n H2 E2).
Qed.

Lemma updated1_stays l c acc (h : list vec) x v j :
  h !! x = Some v -> acc !! j = Some false ->
  exists v', updated1 l c acc h !! x = Some v' /\ v' !! j = v !! j.
Proof.
  intros Hx Hj. unfold updated1.
  destruct (copy_into_stays h (lnprior l) acc (lnprior_p c) x v j Hx Hj)
    as (v1 & H1 & E1).
  destruct (copy_into_stays _ (lnlike l) acc (lnlike_p c) x v1 j H1 Hj)
    as (v2 & H2 & E2).
  destruct (copy_into_stays _ (lnq l) acc (lnq_p c) x v2 j H2 Hj)
    as (v3 & H3 & E3).
  exists v3. split; [exact H3|congruence].
Qed.

Lemma length_updated1 l c acc (h : list vec) :
  length (updated1 l c acc h) = length h.
Proof. unfold updated1. rewrite !length_copy_into. reflexivity. Qed.

Lemma length_updated2 l c acc (h : list mat) :
  length (updated2 l c acc h) = length h.
Proof. unfold updated2. apply length_copy_into. Qed.

(** *** Lines 146-150 *)

Lemma update_ok l c acc m n d pv :
  heap2 m !! p l = Some pv -> shape2 n d pv -> shape2 n d (p_p c) ->
  length acc = n ->
  length (lnprior_p c) = n -> length (lnlike_p c) = n -> length (lnq_p c) = n ->
  holds1 m (lnprior l) n -> holds1 m (lnlike l) n -> holds1 m (lnq l) n ->
  update l c acc m =
    (Ok tt, set_heap1 (updated1 l c acc (heap1 m))
              (set_heap2 (updated2 l c acc (heap2 m)) m)).
Proof.
  intros Hp Sp Spp Eacc E1 E2 E3 (a & Ha & La) (b & Hb & Lb) (q & Hq & Lq).
  unfold update. destruct (any acc) eqn:Hany.
  2:{ unfold updated1, updated2. rewrite !copy_into_none by exact Hany.
      unfold set_heap1, set_heap2. simpl. rewrite machine_eta. reflexivity. }
  rewrite (bind_ok _ _ _ _ _ (load2_ok m _ _ Hp)).
  unfold lift at 1.
  rewrite (setitem_mask_rows_copy n d) by assumption.
  unfold bind at 1. unfold bind at 1. unfold store2 at 1.
  (* lnprior *)
  set (m1 := set_heap2 _ m).
  assert (heap1 m1 = heap1 m) as Eh1 by reflexivity.
  rewrite (bind_ok (load1 (lnprior l)) _ m1 a m1)
    by (apply load1_ok; exact Ha).
  unfold lift at 1.
  rewrite setitem_mask_copy by congruence.
  unfold bind at 1. unfold bind at 1. unfold store1 at 1.
  set (m2 := set_heap1 _ m1).
  destruct (copy_into_length_at (heap1 m) (lnprior l) acc (lnprior_p c)
              (lnlike l) b n Hb Lb) as (b' & Hb' & Lb').
  assert (heap1 m2 = copy_into (heap1 m) (lnprior l) acc (lnprior_p c)) as Eh2.
  { unfold copy_into. rewrite Ha. reflexivity. }
  rewrite <- Eh2 in Hb'.
  rewrite (bind_ok (load1 (lnlike l)) _ m2 b' m2)
    by (apply load1_ok; exact Hb').
  unfold lift at 1.
  rewrite setitem_mask_copy by congruence.
  unfold bind at 1. unfold bind at 1. unfold store1 at 1.
  set (m3 := set_heap1 _ m2).
  assert (heap1 m3 = copy_into (heap1 m2) (lnlike l) acc (lnlike_p c)) as Eh3.
  { unfold copy_into. rewrite Hb'. reflexivity. }
  destruct (copy_into_length_at (heap1 m) (lnprior l) acc (lnprior_p c)
              (lnq l) q n Hq Lq) as (q1 & Hq1 & Lq1).
  rewrite <- Eh2 in Hq1.
  destruct (copy_into_length_at (heap1 m2) (lnlike l) acc (lnlike_p c)
              (lnq l) q1 n Hq1 Lq1) as (q' & Hq' & Lq').
  rewrite <- Eh3 in Hq'.
  rewrite (bind_ok (load1 (lnq l)) _ m3 q' m3)
    by (apply load1_ok; exact Hq').
  unfold lift at 1.
  rewrite setitem_mask_copy by congruence.
  unfold bind at 1. unfold store1.
  f_equal. unfold updated1, updated2.
  rewrite <- Eh2, <- Eh3.
  unfold copy_into at 1. rewrite Hq'.
  unfold copy_into at 1. rewrite Hp.
  reflexivity.
Qed.

(** *** Lines 153-158 *)

Lemma record_ok l acc m pv a b q hl :
  heap2 m !! p l = Some pv -> shape2 (nwalkers (self m)) (dim (self m)) pv ->
  heap1 m !! lnprior l = Some a -> length a = nwalkers (self m) ->
  heap1 m !! lnlike l = Some b -> length b = nwalkers (self m) ->
  heap1 m !! lnq l = Some q -> length q = nwalkers (self m) ->
  length acc = nwalkers (self m) ->
  history_lengths (self m) hl -> 0 <= iterations (self m) < Z.of_nat hl ->
  record l acc m = (Ok tt, set_self (recorded (self m) pv a b q acc) m).
Proof.
  intros Hp Sp Ha La Hb Lb Hq Lq Lacc (L1 & L2 & L3 & L4) Hit.
  unfold record.
  rewrite (bind_ok get_self _ m (self m) m) by reflexivity.
  rewrite (bind_ok _ _ _ _ _ (load2_ok m _ _ Hp)).
  unfold lift at 1. rewrite broadcast_to2_same by exact Sp.
  rewrite setitem_in by lia.
  unfold bind at 1. unfold bind at 1. unfold with_self at 1.
  set (m1 := set_self _ m).
  rewrite (bind_ok (load1 (lnprior l)) _ m1 a m1) by (apply load1_ok; exact Ha).
  rewrite (bind_ok (load1 (lnlike l)) _ m1 b m1) by (apply load1_ok; exact Hb).
  unfold lift at 1. unfold add. rewrite broadcast2_same by congruence.
  simpl rbind. rewrite broadcast_to_same by (rewrite length_zip_with; lia).
  rewrite setitem_in by lia.
  unfold bind at 1. unfold bind at 1. unfold with_self at 1.
  set (m2 := set_self _ m1).
  rewrite (bind_ok (load1 (lnq l)) _ m2 q m2) by (apply load1_ok; exact Hq).
  unfold lift at 1. rewrite broadcast_to_same by exact Lq.
  rewrite setitem_in by lia.
  unfold bind at 1. unfold bind at 1. unfold with_self at 1.
  set (m3 := set_self _ m2).
  unfold lift at 1. rewrite broadcast_to_same by (rewrite length_map; exact Lacc).
  rewrite setitem_in by lia.
  unfold bind at 1. unfold bind at 1. unfold with_self.
  reflexivity.
Qed.

End Update.

(** ** A step in closed form *)

Section Advance.

Context `{ES : ExternalsShapes}.

Implicit Types (m : machine) (l : locals) (s : Sampler) (k : kde).

(** *** The candidates have the shapes of the ensemble *)

Lemma candidates_shapes m k :
  contract (self m) -> draws_fit (self m) k ->
  let c := candidates_at m k in
  shape2 (nwalkers (self m)) (dim (self m)) (p_p c) /\
  length (lnprior_p c) = nwalkers (self m) /\
  length (lnlike_p c) = nwalkers (self m) /\
  length (lnq_p c) = nwalkers (self m).
Proof.
  intros [Cp Cl] Hd. simpl. unfold shape2.
  rewrite Cp, Cl, kde_call_shape, !kde_draw_shape.
  repeat split. apply Hd.
Qed.

Lemma shape2_masked_copy n d (a c : mat) acc :
  shape2 n d a -> shape2 n d c -> shape2 n d (masked_copy a acc c).
Proof.
  intros [La Wa] [Lc Wc]. split.
  - rewrite length_masked_copy. exact La.
  - apply Forall_mask_put; [exact Wa|apply Forall_mask_get; exact Wc].
Qed.

Lemma updated2_at l c acc (h : list mat) pv :
  h !! p l = Some pv ->
  updated2 l c acc h !! p l = Some (masked_copy pv acc (p_p c)).
Proof.
  intros Hp. unfold updated2. rewrite copy_into_lookup, Hp.
  rewrite decide_True by reflexivity. reflexivity.
Qed.

Lemma updated2_other l c acc (h : list mat) x :
  x <> p l -> updated2 l c acc h !! x = h !! x.
Proof.
  intros Hx. unfold updated2. rewrite copy_into_lookup.
  rewrite decide_False by exact Hx. reflexivity.
Qed.

Lemma ratio_at_ok l m k a b q :
  contract (self m) -> draws_fit (self m) k ->
  heap1 m !! lnprior l = Some a -> length a = nwalkers (self m) ->
  heap1 m !! lnlike l = Some b -> length b = nwalkers (self m) ->
  heap1 m !! lnq l = Some q -> length q = nwalkers (self m) ->
  let c := candidates_at m k in
  ln_mh_ratio_of (lnprior_p c) (lnlike_p c) a b q (lnq_p c) = Ok (ratio_at l m k)
  /\ length (ratio_at l m k) = nwalkers (self m).
Proof.
  intros Hc Hd Ha La Hb Lb Hq Lq c.
  destruct (candidates_shapes m k Hc Hd) as (_ & E1 & E2 & E3).
  fold c in E1, E2, E3.
  assert (ln_mh_ratio_of (lnprior_p c) (lnlike_p c) a b q (lnq_p c)
          = Ok (ratio_at l m k)) as Hr.
  { rewrite (ln_mh_ratio_lengths _ _ _ _ _ _ _ E1 E2 La Lb Lq E3).
    unfold ratio_at, ratios. fold c.
    rewrite (list_lookup_total_correct _ _ _ Ha).
    rewrite (list_lookup_total_correct _ _ _ Hb).
    rewrite (list_lookup_total_correct _ _ _ Hq). reflexivity. }
  split; [exact Hr|].
  exact (ln_mh_ratio_length _ _ _ _ _ _ _ _ E1 E2 La Lb Lq E3 Hr).
Qed.

Lemma length_mask_at l m k a b q :
  contract (self m) -> draws_fit (self m) k ->
  heap1 m !! lnprior l = Some a -> length a = nwalkers (self m) ->
  heap1 m !! lnlike l = Some b -> length b = nwalkers (self m) ->
  heap1 m !! lnq l = Some q -> length q = nwalkers (self m) ->
  length (mask_at l m k) = nwalkers (self m).
Proof.
  intros Hc Hd Ha La Hb Lb Hq Lq. unfold mask_at. rewrite length_verdicts.
  eapply ratio_at_ok; eassumption.
Qed.

(** *** Lines 126-158 *)

Lemma advance_ok l m k :
  ready l m -> _kde (self m) = Some k ->
  advance l m = (Ok (mask_at l m k), advanced l m k).
Proof.
  intros [[Hc (k0 & Hk0 & Hd) (pv & Hp & Sp) (a & Ha & La) (b & Hb & Lb)
            (q & Hq & Lq)] (hl & Hh & Hit)] Hk.
  assert (k0 = k) as -> by congruence. clear Hk0.
  destruct (candidates_shapes m k Hc Hd) as (Spp & E1 & E2 & E3).
  destruct (ratio_at_ok l m k a b q Hc Hd Ha La Hb Lb Hq Lq) as [Hr Lr].
  pose proof (length_mask_at l m k a b q Hc Hd Ha La Hb Lb Hq Lq) as Lacc.
  set (c := candidates_at m k) in *.
  unfold advance.
  rewrite (bind_ok _ _ _ _ _ (propose_ok m k Hk)). fold c.
  set (m1 := set_gen (gen_after_draw m k) m).
  rewrite (bind_ok (load1 (lnprior l)) _ m1 a m1) by (apply load1_ok; exact Ha).
  rewrite (bind_ok (load1 (lnlike l)) _ m1 b m1) by (apply load1_ok; exact Hb).
  rewrite (bind_ok (load1 (lnq l)) _ m1 q m1) by (apply load1_ok; exact Hq).
  unfold lift at 1. rewrite Hr. unfold bind at 1.
  rewrite (bind_ok _ _ _ _ _ (accept_mask_ok (ratio_at l m k) m1)).
  change (gen m1) with (gen_after_draw m k).
  fold (mask_at l m k).
  set (m2 := set_gen _ m1).
  rewrite (bind_ok _ _ _ _ _
             (update_ok l c (mask_at l m k) m2 (nwalkers (self m)) (dim (self m)) pv
                Hp Sp Spp Lacc E1 E2 E3
                (ex_intro _ a (conj Ha La)) (ex_intro _ b (conj Hb Lb))
                (ex_intro _ q (conj Hq Lq)))).
  set (m3 := set_heap1 _ _).
  destruct (updated1_length_at l c (mask_at l m k) (heap1 m) _ a _ Ha La)
    as (a' & Ha' & La').
  destruct (updated1_length_at l c (mask_at l m k) (heap1 m) _ b _ Hb Lb)
    as (b' & Hb' & Lb').
  destruct (updated1_length_at l c (mask_at l m k) (heap1 m) _ q _ Hq Lq)
    as (q' & Hq' & Lq').
  pose proof (updated2_at l c (mask_at l m k) (heap2 m) pv Hp) as Hp'.
  rewrite (bind_ok _ _ _ _ _
             (record_ok l (mask_at l m k) m3 _ a' b' q' hl Hp'
                (shape2_masked_copy _ _ _ _ _ Sp Spp)
                Ha' La' Hb' Lb' Hq' Lq' Lacc Hh Hit)).
  unfold ret, advanced. fold c. f_equal.
  rewrite (list_lookup_total_correct _ _ _ Ha').
  rewrite (list_lookup_total_correct _ _ _ Hb').
  rewrite (list_lookup_total_correct _ _ _ Hq').
  rewrite (list_lookup_total_correct _ _ _ Hp').
  reflexivity.
Qed.

(** *** Lines 161-163 *)

Lemma build_ok m a pv :
  heap2 m !! a = Some pv ->
  build a m =
    (Ok tt,
     set_fits (fits m ++ [(iterations (self m), pv)])
       (set_gen (OptimizedKDE pv (_pool (self m)) (gen m)).2
          (set_self
             (set_kde (Some (OptimizedKDE pv (_pool (self m)) (gen m)).1) (self m))
             m))).
Proof. intros E. unfold build. rewrite E. reflexivity. Qed.

Lemma rebuild_ok l m pv :
  heap2 m !! p l = Some pv -> rebuild l m = (Ok (rebound l m), rebuilt l m).
Proof.
  intros Hp. unfold rebuild.
  rewrite (bind_ok _ _ _ _ _ (build_ok m _ _ Hp)).
  set (m1 := set_fits _ _).
  rewrite (bind_ok the_kde _ m1 _ m1) by (apply the_kde_ok; reflexivity).
  rewrite (bind_ok (load2 (p l)) _ m1 pv m1) by (apply load2_ok; exact Hp).
  unfold bind, new1, ret, rebuilt, rebound.
  rewrite (list_lookup_total_correct _ _ _ Hp). reflexivity.
Qed.

Lemma refresh_ok ui l m pv :
  heap2 m !! p l = Some pv -> ui <> 0 ->
  refresh ui l m =
    if due ui m then (Ok (rebound l m), rebuilt l m) else (Ok l, m).
Proof.
  intros Hp Hui. unfold refresh, due.
  rewrite (bind_ok get_self _ m (self m) m) by reflexivity.
  destruct (Z.eqb_spec ui 0) as [|_]; [contradiction|].
  destruct (iterations (self m) mod ui =? 0).
  - apply rebuild_ok with pv. exact Hp.
  - reflexivity.
Qed.

Lemma refresh_zero l m : refresh 0 l m = (Raise ZeroDivisionError, m).
Proof. reflexivity. Qed.

End Advance.

(** ** The loop *)

Section Loop.

Context `{ES : ExternalsShapes}.

Implicit Types (m : machine) (l : locals) (s : Sampler) (k : kde).

(** *** One step *)

Lemma step_ok ui l m k :
  ready l m -> _kde (self m) = Some k -> ui <> 0 ->
  step ui l m =
    if due ui (advanced l m k)
    then (Ok (rebound l (advanced l m k)), rebuilt l (advanced l m k))
    else (Ok l, advanced l m k).
Proof.
  intros Hr Hk Hui. unfold step.
  rewrite (bind_ok _ _ _ _ _ (advance_ok l m k Hr Hk)).
  destruct Hr as [[_ _ (pv & Hp & _) _ _ _] _].
  apply refresh_ok with (masked_copy pv (mask_at l m k) (p_p (candidates_at m k))).
  - apply (updated2_at l _ _ (heap2 m) pv Hp).
  - exact Hui.
Qed.

Lemma shaped_advanced l m k :
  ready l m -> _kde (self m) = Some k -> shaped l (advanced l m k).
Proof.
  intros [[Hc (k0 & Hk0 & Hd) (pv & Hp & Sp) (a & Ha & La) (b & Hb & Lb)
            (q & Hq & Lq)] _] Hk.
  assert (k0 = k) as -> by congruence.
  destruct (candidates_shapes m k Hc Hd) as (Spp & _).
  split.
  - exact Hc.
  - exists k. split; [exact Hk|exact Hd].
  - exists (masked_copy pv (mask_at l m k) (p_p (candidates_at m k))). split.
    + apply (updated2_at l _ _ (heap2 m) pv Hp).
    + apply shape2_masked_copy; assumption.
  - apply (updated1_length_at l _ _ (heap1 m) _ a _ Ha La).
  - apply (updated1_length_at l _ _ (heap1 m) _ b _ Hb Lb).
  - apply (updated1_length_at l _ _ (heap1 m) _ q _ Hq Lq).
Qed.

Lemma draws_fit_rebuilt s (pv : mat) po g :
  shape2 (nwalkers s) (dim s) pv ->
  draws_fit s (OptimizedKDE pv po g).1.
Proof.
  intros [Lp Wp] g'. destruct (decide (pv = [])) as [->|Hne].
  - pose proof (kde_draw_shape (OptimizedKDE [] po g).1 (nwalkers s) g') as E.
    simpl in Lp. rewrite <- Lp in *.
    destruct (kde_draw _ 0 g').1; [constructor|discriminate].
  - apply kde_draw_width; assumption.
Qed.

Lemma shaped_rebuilt l m : shaped l m -> shaped (rebound l m) (rebuilt l m).
Proof.
  intros [Hc _ (pv & Hp & Sp) (a & Ha & La) (b & Hb & Lb) _].
  unfold rebuilt. rewrite (list_lookup_total_correct _ _ _ Hp).
  split; simpl.
  - exact Hc.
  - eexists. split; [reflexivity|].
    apply (draws_fit_rebuilt (self m)). exact Sp.
  - exists pv. split; assumption.
  - exists a. split; [|exact La]. apply lookup_app_l_Some. exact Ha.
  - exists b. split; [|exact Lb]. apply lookup_app_l_Some. exact Hb.
  - eexists. split.
    + apply list_lookup_middle. reflexivity.
    + rewrite kde_call_shape. apply Sp.
Qed.

Lemma history_lengths_advanced l m k hl :
  history_lengths (self m) hl -> history_lengths (self (advanced l m k)) hl.
Proof.
  intros (L1 & L2 & L3 & L4). unfold history_lengths. simpl.
  rewrite !length_insert. auto.
Qed.

Lemma prefix_advanced l m k i :
  (i < Z.to_nat (iterations (self m)))%nat ->
  _chain (self (advanced l m k)) !! i = _chain (self m) !! i /\
  _lnpost (self (advanced l m k)) !! i = _lnpost (self m) !! i /\
  _lnprop (self (advanced l m k)) !! i = _lnprop (self m) !! i /\
  accepted (self (advanced l m k)) !! i = accepted (self m) !! i.
Proof.
  intros Hi. simpl. rewrite !list_lookup_insert_ne by lia. auto.
Qed.

Lemma rebuild_counts_one c ui :
  rebuild_counts c 1 ui = if decide ((c + 1) mod ui = 0) then [c + 1] else [].
Proof.
  unfold rebuild_counts. change (seqZ (c + 1) 1) with [0 + (c + 1)].
  rewrite Z.add_0_l, filter_cons, filter_nil. reflexivity.
Qed.

Lemma rebuild_counts_app c n1 n2 ui :
  0 <= n1 -> 0 <= n2 ->
  rebuild_counts c (n1 + n2) ui =
    rebuild_counts c n1 ui ++ rebuild_counts (c + n1) n2 ui.
Proof.
  intros H1 H2. unfold rebuild_counts.
  rewrite seqZ_app by assumption. rewrite filter_app.
  replace (c + 1 + n1) with (c + n1 + 1) by lia. reflexivity.
Qed.

Lemma due_advanced ui l m k :
  due ui (advanced l m k) = true <-> (iterations (self m) + 1) mod ui = 0.
Proof. unfold due. simpl. apply Z.eqb_eq. Qed.

Lemma step_ran ui l m :
  ready l m -> ui <> 0 ->
  exists l' m', step ui l m = (Ok l', m') /\ ran ui 1 l m l' m'.
Proof.
  intros Hr Hui.
  destruct Hr as [Hs Hroom].
  destruct (shaped_kde _ _ Hs) as (k & Hk & Hd).
  pose proof (shaped_advanced l m k (conj Hs Hroom) Hk) as Hs1.
  rewrite (step_ok ui l m k (conj Hs Hroom) Hk Hui).
  pose proof (due_advanced ui l m k) as Hdue.
  destruct (due ui (advanced l m k)) eqn:Ed.
  - assert ((iterations (self m) + 1) mod ui = 0) as Hmod by (apply Hdue; reflexivity).
    eexists _, _. split; [reflexivity|]. split.
    + apply shaped_rebuilt. exact Hs1.
    + split; reflexivity.
    + reflexivity.
    + intros hl Hh. apply (history_lengths_advanced l m k hl Hh).
    + intros i Hi. apply (prefix_advanced l m k i Hi).
    + repeat split.
    + right. split.
      * rewrite rebuild_counts_one, decide_True by exact Hmod. discriminate.
      * simpl. rewrite length_updated1. lia.
    + simpl. rewrite length_app, length_updated1. lia.
    + split.
      * simpl. apply length_updated2.
      * intros x Hx. simpl. apply updated2_other. exact Hx.
    + unfold fit_counts. simpl. rewrite map_app. simpl.
      rewrite rebuild_counts_one, decide_True by exact Hmod. reflexivity.
  - assert ((iterations (self m) + 1) mod ui <> 0) as Hmod.
    { intros E. apply Hdue in E. congruence. }
    eexists _, _. split; [reflexivity|]. split.
    + exact Hs1.
    + split; reflexivity.
    + reflexivity.
    + intros hl Hh. apply (history_lengths_advanced l m k hl Hh).
    + intros i Hi. apply (prefix_advanced l m k i Hi).
    + repeat split.
    + left. split; [|reflexivity].
      rewrite rebuild_counts_one, decide_False by exact Hmod. reflexivity.
    + simpl. rewrite length_updated1. lia.
    + split.
      * simpl. apply length_updated2.
      * intros x Hx. simpl. apply updated2_other. exact Hx.
    + unfold fit_counts. simpl.
      rewrite rebuild_counts_one, decide_False by exact Hmod.
      rewrite app_nil_r. reflexivity.
Qed.

(** *** Steps in sequence *)

Lemma ran_zero ui l m : shaped l m -> ran ui 0 l m l m.
Proof.
  intros Hs. split.
  - exact Hs.
  - split; reflexivity.
  - simpl. lia.
  - auto.
  - auto.
  - repeat split.
  - left. split; reflexivity.
  - lia.
  - split; auto.
  - unfold rebuild_counts. simpl. rewrite app_nil_r. reflexivity.
Qed.

Lemma ran_trans ui n1 n2 l m l1 m1 l2 m2 :
  ran ui n1 l m l1 m1 -> ran ui n2 l1 m1 l2 m2 -> ran ui (n1 + n2) l m l2 m2.
Proof.
  intros [S1 [N1 D1] C1 L1 P1 (Ap1 & Aa1 & Ab1) Q1 H1 [G1 F1] T1]
         [S2 [N2 D2] C2 L2 P2 (Ap2 & Aa2 & Ab2) Q2 H2 [G2 F2] T2].
  assert (rebuild_counts (iterations (self m)) (Z.of_nat (n1 + n2)) ui =
          rebuild_counts (iterations (self m)) (Z.of_nat n1) ui ++
          rebuild_counts (iterations (self m1)) (Z.of_nat n2) ui) as Ecounts.
  { rewrite Nat2Z.inj_add, rebuild_counts_app by lia. rewrite C1. reflexivity. }
  split.
  - exact S2.
  - split; congruence.
  - rewrite C2, C1. lia.
  - auto.
  - intros i Hi.
    destruct (P1 i Hi) as (E1 & E2 & E3 & E4).
    destruct (P2 i) as (E1' & E2' & E3' & E4'); [rewrite C1; lia|].
    repeat split; congruence.
  - repeat split; congruence.
  - rewrite Ecounts.
    destruct Q1 as [[Z1 E1]|[Z1 E1]], Q2 as [[Z2 E2]|[Z2 E2]].
    + left. rewrite Z1, Z2. split; [reflexivity|congruence].
    + right. split; [rewrite Z1; exact Z2|lia].
    + right. split; [|congruence].
      intros E. apply app_eq_nil in E as [E _]. contradiction.
    + right. split; [|lia].
      intros E. apply app_eq_nil in E as [E _]. contradiction.
  - lia.
  - split; [congruence|].
    intros x Hx. rewrite F2 by congruence. apply F1. exact Hx.
  - rewrite T2, T1, Ecounts, app_assoc. reflexivity.
Qed.

Lemma loop_ran ui n : forall l m hl,
  shaped l m -> history_lengths (self m) hl ->
  0 <= iterations (self m) -> iterations (self m) + Z.of_nat n <= Z.of_nat hl ->
  ui <> 0 ->
  exists l' m', loop n ui l m = (Ok l', m') /\ ran ui n l m l' m'.
Proof.
  induction n as [|n IH]; intros l m hl Hs Hh H0 Hn Hui.
  - exists l, m. split; [reflexivity|]. apply ran_zero. exact Hs.
  - destruct (step_ran ui l m) as (l1 & m1 & E1 & R1).
    { split; [exact Hs|]. exists hl. split; [exact Hh|lia]. }
    { exact Hui. }
    destruct (IH l1 m1 hl) as (l2 & m2 & E2 & R2).
    + apply (ran_shaped _ _ _ _ _ _ R1).
    + apply (ran_lengths _ _ _ _ _ _ R1). exact Hh.
    + rewrite (ran_counter _ _ _ _ _ _ R1). lia.
    + rewrite (ran_counter _ _ _ _ _ _ R1). lia.
    + exact Hui.
    + exists l2, m2. split.
      * simpl. rewrite (bind_ok _ _ _ _ _ E1). exact E2.
      * apply (ran_trans ui 1 n l m l1 m1 l2 m2 R1 R2).
Qed.

End Loop.

(** ** A call *)

Section Call.

Context `{ES : ExternalsShapes}.

Implicit Types (m : machine) (l : locals) (s : Sampler) (k : kde).

(** *** Lines 95-112 *)

Lemma supplied_new1 given (v : vec) m :
  supplied given (new1 v) m = (Ok (alloc1 given v m).1, (alloc1 given v m).2).
Proof. destruct given; reflexivity. Qed.

Lemma prologue_ok p0 lnprior0 lnlike0 lnq0 m pv :
  heap2 m !! p0 = Some pv ->
  prologue p0 lnprior0 lnlike0 lnq0 m =
    (Ok (prepared p0 lnprior0 lnlike0 lnq0 m).1,
     (prepared p0 lnprior0 lnlike0 lnq0 m).2).
Proof.
  intros Hp. unfold prologue, prepared.
  rewrite (list_lookup_total_correct _ _ _ Hp).
  rewrite (bind_ok _ _ _ _ _ (load2_ok m _ _ Hp)).
  unfold bind at 1. unfold new2 at 1.
  set (m1 := set_heap2 (heap2 m ++ [pv]) m).
  rewrite (bind_ok get_self _ m1 (self m) m1) by reflexivity.
  assert (heap2 m1 !! length (heap2 m) = Some pv) as Hnew
    by (apply list_lookup_middle; reflexivity).
  destruct (_kde (self m)) as [k|] eqn:Hk.
  - unfold bind at 1. unfold ret at 1.
    rewrite (bind_ok _ _ _ _ _ (supplied_new1 lnprior0 _ m1)).
    rewrite (bind_ok _ _ _ _ _ (supplied_new1 lnlike0 _ _)).
    destruct lnq0 as [q|]; simpl supplied.
    + reflexivity.
    + set (m3 := (alloc1 lnlike0 _ _).2).
      assert (_kde (self m3) = Some k) as Hk3.
      { unfold m3. destruct lnlike0, lnprior0; exact Hk. }
      rewrite (bind_ok _ _ _ _ _ (bind_ok _ _ _ _ _ (the_kde_ok m3 k Hk3))).
      reflexivity.
  - rewrite (bind_ok _ _ _ _ _ (build_ok m1 _ _ Hnew)).
    fold (built pv m1). set (m2 := built pv m1).
    rewrite (bind_ok _ _ _ _ _ (supplied_new1 lnprior0 _ m2)).
    rewrite (bind_ok _ _ _ _ _ (supplied_new1 lnlike0 _ _)).
    destruct lnq0 as [q|]; simpl supplied.
    + reflexivity.
    + set (m3 := (alloc1 lnlike0 _ _).2).
      assert (_kde (self m3) = Some (OptimizedKDE pv (_pool (self m)) (gen m)).1)
        as Hk3.
      { unfold m3. destruct lnlike0, lnprior0; reflexivity. }
      rewrite (bind_ok _ _ _ _ _ (bind_ok _ _ _ _ _ (the_kde_ok m3 _ Hk3))).
      reflexivity.
Qed.

(** An array made by [alloc1] leaves the others where they are. *)
Lemma alloc1_frame given (v : vec) m :
  self (alloc1 given v m).2 = self m /\
  heap2 (alloc1 given v m).2 = heap2 m /\
  fits (alloc1 given v m).2 = fits m /\
  exists ext, heap1 (alloc1 given v m).2 = heap1 m ++ ext.
Proof.
  destruct given; simpl; repeat split.
  - exists []. rewrite app_nil_r. reflexivity.
  - exists [v]. reflexivity.
Qed.

Lemma alloc1_holds given (v : vec) m n :
  given1 m given n -> length v = n ->
  holds1 (alloc1 given v m).2 (alloc1 given v m).1 n.
Proof.
  intros Hg Hv. destruct given as [a|]; simpl.
  - exact Hg.
  - exists v. split; [apply list_lookup_middle; reflexivity|exact Hv].
Qed.

Lemma holds1_ext m m' a n ext :
  heap1 m' = heap1 m ++ ext -> holds1 m a n -> holds1 m' a n.
Proof.
  intros E (v & Hv & Lv). exists v. split; [|exact Lv].
  rewrite E. apply lookup_app_l_Some. exact Hv.
Qed.

Lemma given1_ext m m' given n ext :
  heap1 m' = heap1 m ++ ext -> given1 m given n -> given1 m' given n.
Proof.
  intros E Hg. destruct given; [|exact I].
  exact (holds1_ext m m' _ n ext E Hg).
Qed.

(** The sampler of the prepared machine is the caller's, with a proposal
    where it had none. *)
Lemma prepared_self p0 lnprior0 lnlike0 lnq0 m :
  let s' := self (prepared p0 lnprior0 lnlike0 lnq0 m).2 in
  nwalkers s' = nwalkers (self m) /\ dim s' = dim (self m) /\
  _get_lnprior s' = _get_lnprior (self m) /\
  _get_lnlike s' = _get_lnlike (self m) /\
  iterations s' = iterations (self m) /\
  _chain s' = _chain (self m) /\ _lnpost s' = _lnpost (self m) /\
  _lnprop s' = _lnprop (self m) /\ accepted s' = accepted (self m) /\
  _kde s' =
    Some (default (OptimizedKDE (heap2 m !!! p0) (_pool (self m)) (gen m)).1
            (_kde (self m))).
Proof.
  unfold prepared. simpl.
  destruct lnq0, lnlike0, lnprior0, (_kde (self m)) eqn:Hk; simpl;
    rewrite ?Hk; repeat split.
Qed.

Lemma prepared_fits p0 lnprior0 lnlike0 lnq0 m :
  fit_counts (prepared p0 lnprior0 lnlike0 lnq0 m).2 =
    fit_counts m ++
    match _kde (self m) with
    | None => [iterations (self m)]
    | Some _ => []
    end.
Proof.
  unfold prepared, fit_counts. simpl.
  destruct lnq0, lnlike0, lnprior0, (_kde (self m)); simpl;
    rewrite ?map_app, ?app_nil_r; reflexivity.
Qed.

Lemma prepared_heap2 p0 lnprior0 lnlike0 lnq0 m :
  heap2 (prepared p0 lnprior0 lnlike0 lnq0 m).2 = heap2 m ++ [heap2 m !!! p0] /\
  p (prepared p0 lnprior0 lnlike0 lnq0 m).1 = length (heap2 m).
Proof.
  unfold prepared. simpl.
  destruct lnq0, lnlike0, lnprior0, (_kde (self m)); simpl; split; reflexivity.
Qed.

Lemma prepared_heap1 p0 lnprior0 lnlike0 lnq0 m :
  exists ext, heap1 (prepared p0 lnprior0 lnlike0 lnq0 m).2 = heap1 m ++ ext.
Proof.
  unfold prepared. simpl.
  destruct lnq0, lnlike0, lnprior0, (_kde (self m)); simpl;
    rewrite <- ?app_assoc; eexists; try reflexivity;
    symmetry; apply app_nil_r.
Qed.

Lemma prepared_given p0 lnprior0 lnlike0 lnq0 m :
  let l := (prepared p0 lnprior0 lnlike0 lnq0 m).1 in
  (forall a, lnprior0 = Some a -> lnprior l = a) /\
  (forall a, lnlike0 = Some a -> lnlike l = a) /\
  (forall a, lnq0 = Some a -> lnq l = a).
Proof.
  simpl. repeat split; intros a ->; reflexivity.
Qed.

Lemma shaped_prepared p0 lnprior0 lnlike0 lnq0 m :
  callable p0 lnprior0 lnlike0 lnq0 m ->
  shaped (prepared p0 lnprior0 lnlike0 lnq0 m).1
         (prepared p0 lnprior0 lnlike0 lnq0 m).2.
Proof.
  intros [Hc Hk (pv & Hp & Sp) Ga Gb Gq _].
  destruct (prepared_self p0 lnprior0 lnlike0 lnq0 m)
    as (EN & ED & Ep & El & _ & _ & _ & _ & _ & Ekde).
  destruct (prepared_heap2 p0 lnprior0 lnlike0 lnq0 m) as [Eh2 Ep2].
  rewrite (list_lookup_total_correct _ _ _ Hp) in Eh2, Ekde.
  destruct Hc as [Cp Cl].
  split.
  - split; intros x; [rewrite Ep; apply Cp|rewrite El; apply Cl].
  - eexists. split; [exact Ekde|].
    intros g. rewrite EN, ED.
    destruct (_kde (self m)) as [k|] eqn:Ek; simpl.
    + apply (Hk k eq_refl).
    + apply (draws_fit_rebuilt (self m)). exact Sp.
  - exists pv. rewrite EN, ED, Eh2, Ep2. split; [|exact Sp].
    apply list_lookup_middle. reflexivity.
  - rewrite EN. unfold prepared.
    rewrite (list_lookup_total_correct _ _ _ Hp). simpl.
    set (m2 := match _kde (self m) with None => _ | Some _ => _ end).
    assert (heap1 m2 = heap1 m ++ []) as E2
      by (unfold m2; destruct (_kde (self m)); simpl; symmetry; apply app_nil_r).
    set (va := _get_lnprior (self m) pv). set (vb := _get_lnlike (self m) pv).
    set (vq := kde_call _ pv).
    destruct (alloc1_frame lnlike0 vb (alloc1 lnprior0 va m2).2)
      as (_ & _ & _ & extb & Eb).
    destruct (alloc1_frame lnq0 vq (alloc1 lnlike0 vb (alloc1 lnprior0 va m2).2).2)
      as (_ & _ & _ & extq & Eq).
    eapply holds1_ext; [exact Eq|].
    eapply holds1_ext; [exact Eb|].
    apply alloc1_holds.
    + eapply given1_ext; [exact E2|exact Ga].
    + unfold va. rewrite Cp. apply Sp.
  - rewrite EN. unfold prepared.
    rewrite (list_lookup_total_correct _ _ _ Hp). simpl.
    set (m2 := match _kde (self m) with None => _ | Some _ => _ end).
    assert (heap1 m2 = heap1 m ++ []) as E2
      by (unfold m2; destruct (_kde (self m)); simpl; symmetry; apply app_nil_r).
    set (va := _get_lnprior (self m) pv). set (vb := _get_lnlike (self m) pv).
    set (vq := kde_call _ pv).
    destruct (alloc1_frame lnprior0 va m2) as (_ & _ & _ & exta & Ea).
    destruct (alloc1_frame lnq0 vq (alloc1 lnlike0 vb (alloc1 lnprior0 va m2).2).2)
      as (_ & _ & _ & extq & Eq).
    eapply holds1_ext; [exact Eq|].
    apply alloc1_holds.
    + eapply given1_ext; [exact Ea|].
      eapply given1_ext; [exact E2|exact Gb].
    + unfold vb. rewrite Cl. apply Sp.
  - rewrite EN. unfold prepared.
    rewrite (list_lookup_total_correct _ _ _ Hp). simpl.
    set (m2 := match _kde (self m) with None => _ | Some _ => _ end).
    assert (heap1 m2 = heap1 m ++ []) as E2
      by (unfold m2; destruct (_kde (self m)); simpl; symmetry; apply app_nil_r).
    set (va := _get_lnprior (self m) pv). set (vb := _get_lnlike (self m) pv).
    set (vq := kde_call _ pv).
    destruct (alloc1_frame lnprior0 va m2) as (_ & _ & _ & exta & Ea).
    destruct (alloc1_frame lnlike0 vb (alloc1 lnprior0 va m2).2)
      as (_ & _ & _ & extb & Eb).
    apply alloc1_holds.
    + eapply given1_ext; [exact Eb|].
      eapply given1_ext; [exact Ea|].
      eapply given1_ext; [exact E2|exact Gq].
    + unfold vq. rewrite kde_call_shape. apply Sp.
Qed.

(** Where [lnq0] is not given, the array [lnq] is the density of the
    proposal the sampler then has, at the positions copied from [p0]. *)
Lemma prepared_lnq p0 lnprior0 lnlike0 m (pv : mat) :
  heap2 m !! p0 = Some pv ->
  exists k,
    _kde (self (prepared p0 lnprior0 lnlike0 None m).2) = Some k /\
    heap1 (prepared p0 lnprior0 lnlike0 None m).2
      !! lnq (prepared p0 lnprior0 lnlike0 None m).1 = Some (kde_call k pv).
Proof.
  intros Hp.
  destruct (prepared_self p0 lnprior0 lnlike0 None m)
    as (_ & _ & _ & _ & _ & _ & _ & _ & _ & Ekde).
  eexists. split; [exact Ekde|].
  unfold prepared. rewrite (list_lookup_total_correct _ _ _ Hp).
  cbn [fst snd lnq alloc1 heap1 set_heap1].
  apply list_lookup_middle. reflexivity.
Qed.

(** *** Lines 115-122 *)

Lemma grow_ok iters m :
  0 <= iters -> grow iters m = (Ok tt, set_self (grown iters (self m)) m).
Proof.
  intros Hk. unfold grow, zeros_rows.
  destruct (Z.ltb_spec iters 0) as [|_]; [lia|]. reflexivity.
Qed.

Lemma grow_negative iters m :
  iters < 0 -> grow iters m = (Raise ValueError, m).
Proof.
  intros Hk. unfold grow, zeros_rows.
  destruct (Z.ltb_spec iters 0) as [_|]; [|lia]. reflexivity.
Qed.

Lemma history_lengths_grown iters s hl :
  history_lengths s hl ->
  history_lengths (grown iters s) (hl + Z.to_nat iters).
Proof.
  intros (L1 & L2 & L3 & L4). unfold history_lengths. simpl.
  rewrite !length_app, !length_replicate. lia.
Qed.

Lemma shaped_grown iters l m :
  shaped l m -> shaped l (set_self (grown iters (self m)) m).
Proof. intros [Hc Hk Hp Ha Hb Hq]. split; assumption. Qed.

(** *** A whole call *)

Lemma sample_ran p0 lnprior0 lnlike0 lnq0 iters ui m :
  callable p0 lnprior0 lnlike0 lnq0 m -> 0 <= iters -> ui <> 0 ->
  let l1 := (prepared p0 lnprior0 lnlike0 lnq0 m).1 in
  let m1 := (prepared p0 lnprior0 lnlike0 lnq0 m).2 in
  let m2 := set_self (grown iters (self m1)) m1 in
  exists l' m',
    sample p0 lnprior0 lnlike0 lnq0 iters ui m = (Ok l', m') /\
    ran ui (Z.to_nat iters) l1 m2 l' m'.
Proof.
  intros Hc Hk Hui l1 m1 m2.
  pose proof (shaped_prepared _ _ _ _ _ Hc) as Hs. fold l1 m1 in Hs.
  destruct (prepared_self p0 lnprior0 lnlike0 lnq0 m)
    as (EN & ED & _ & _ & Eit & E1 & E2 & E3 & E4 & _).
  fold m1 in EN, ED, Eit, E1, E2, E3, E4.
  destruct (callable_history _ _ _ _ _ Hc) as (hl & Hh & Hit).
  destruct (callable_p0 _ _ _ _ _ Hc) as (pv & Hp & _).
  assert (history_lengths (self m1) hl) as Hh1.
  { destruct Hh as (? & ? & ? & ?). unfold history_lengths.
    rewrite E1, E2, E3, E4. auto. }
  destruct (loop_ran ui (Z.to_nat iters) l1 m2 (hl + Z.to_nat iters))
    as (l' & m' & El & R).
  - apply shaped_grown. exact Hs.
  - apply history_lengths_grown. exact Hh1.
  - simpl. rewrite Eit. lia.
  - simpl. rewrite Eit. lia.
  - exact Hui.
  - exists l', m'. split; [|exact R].
    unfold sample.
    rewrite (bind_ok _ _ _ _ _ (prologue_ok _ _ _ _ m pv Hp)).
    fold l1 m1. rewrite (bind_ok _ _ _ _ _ (grow_ok iters m1 Hk)).
    exact El.
Qed.

End Call.

(** ** Comparisons of binary64 numbers *)

Lemma SFeqb_irrefl_nan (x : spec_float) : SFeqb x x = false -> x = S754_nan.
Proof.
  unfold SFeqb. destruct x as [s|s| |s e' e]; simpl; intros E;
    try reflexivity; try discriminate.
  - destruct s; discriminate.
  - destruct s; rewrite Z.compare_refl, ?Pos.compare_cont_refl,
      ?Pos.compare_refl in E; simpl in E; discriminate.
Qed.

Lemma is_nan_spec (x : float) : PrimFloat.is_nan x = true -> Prim2SF x = S754_nan.
Proof.
  unfold PrimFloat.is_nan. intros E. apply negb_true_iff in E.
  rewrite FloatAxioms.eqb_spec in E. apply SFeqb_irrefl_nan. exact E.
Qed.

(** Nothing is below a [nan], and a [nan] is below nothing. *)
Lemma ltb_nan_r (x y : float) : PrimFloat.is_nan x = true -> PrimFloat.ltb y x = false.
Proof.
  intros E. rewrite FloatAxioms.ltb_spec, (is_nan_spec x E).
  unfold SFltb. destruct (Prim2SF y) as [ | [] | | ]; reflexivity.
Qed.

Lemma ltb_nan_l (x y : float) : PrimFloat.is_nan x = true -> PrimFloat.ltb x y = false.
Proof.
  intros E. rewrite FloatAxioms.ltb_spec, (is_nan_spec x E). reflexivity.
Qed.


(** ** The rank of a walker among those that need a variate *)




(** ** What a step keeps *)

Section Steps.

Context `{ES : ExternalsShapes}.

Implicit Types (m : machine) (l : locals) (s : Sampler) (k : kde).

(** The entries that a step does not accept stay, at every address. *)
Lemma entry1_advanced_stays l m k x j :
  mask_at l m k !! j = Some false ->
  entry1 (advanced l m k) x j = entry1 m x j.
Proof.
  intros Hj. unfold entry1. simpl.
  destruct (heap1 m !! x) as [v|] eqn:Hx.
  - destruct (updated1_stays l (candidates_at m k) _ (heap1 m) x v j Hx Hj)
      as (v' & Hv' & E).
    rewrite Hv'. exact E.
  - unfold updated1. rewrite !copy_into_lookup.
    repeat (case_decide; rewrite ?copy_into_lookup, ?Hx; simpl);
      repeat case_decide; rewrite ?Hx; reflexivity.
Qed.

Lemma entry2_advanced_stays l m k j :
  mask_at l m k !! j = Some false ->
  entry2 (advanced l m k) (p l) j = entry2 m (p l) j.
Proof.
  intros Hj. unfold entry2. simpl. unfold updated2.
  rewrite copy_into_lookup, decide_True by reflexivity.
  destruct (heap2 m !! p l) as [v|]; simpl; [|reflexivity].
  apply mask_put_stays. exact Hj.
Qed.

(** What a step leaves of the machine that lines 126-158 left. *)
Lemma step_frame ui l m k :
  ready l m -> _kde (self m) = Some k -> ui <> 0 ->
  exists l' m',
    step ui l m = (Ok l', m') /\
    p l' = p l /\ lnprior l' = lnprior l /\ lnlike l' = lnlike l /\
    (due ui (advanced l m k) = false -> l' = l /\ m' = advanced l m k) /\
    (due ui (advanced l m k) = true ->
       l' = rebound l (advanced l m k) /\ m' = rebuilt l (advanced l m k)) /\
    heap2 m' = heap2 (advanced l m k) /\
    (forall x, (x < length (heap1 (advanced l m k)))%nat ->
               heap1 m' !! x = heap1 (advanced l m k) !! x) /\
    accepted (self m') = accepted (self (advanced l m k)) /\
    _lnprop (self m') = _lnprop (self (advanced l m k)).
Proof.
  intros Hr Hk Hui. rewrite (step_ok ui l m k Hr Hk Hui).
  destruct (due ui (advanced l m k)) eqn:Ed.
  - eexists _, _. split; [reflexivity|].
    repeat split; try discriminate.
    intros x Hx. unfold rebuilt. cbn [heap1 set_heap1].
    apply lookup_app_l. exact Hx.
  - eexists _, _. split; [reflexivity|].
    repeat split; discriminate.
Qed.

Lemma valid1 l m k x v :
  heap1 m !! x = Some v -> (x < length (heap1 (advanced l m k)))%nat.
Proof.
  intros Hx. simpl. rewrite length_updated1. eapply lookup_lt_Some. exact Hx.
Qed.

Lemma entry1_frame m m' x j :
  heap1 m' !! x = heap1 m !! x -> entry1 m' x j = entry1 m x j.
Proof. intros E. unfold entry1. rewrite E. reflexivity. Qed.

End Steps.

(** * The claims about one step *)

Section StepClaims.

Context `{ES : ExternalsShapes}.

Implicit Types (m : machine) (l : locals) (s : Sampler) (k : kde).

(** The arrays that a ready machine holds at the three addresses. *)
Lemma ready_lengths l m a b q :
  ready l m ->
  heap1 m !! lnprior l = Some a -> heap1 m !! lnlike l = Some b ->
  heap1 m !! lnq l = Some q ->
  length a = nwalkers (self m) /\ length b = nwalkers (self m) /\
  length q = nwalkers (self m).
Proof.
  intros [[_ _ _ (a' & Ha' & La) (b' & Hb' & Lb) (q' & Hq' & Lq)] _] Ha Hb Hq.
  repeat split; congruence.
Qed.

Lemma ready_ratio l m k a b q r :
  ready l m -> _kde (self m) = Some k ->
  heap1 m !! lnprior l = Some a -> heap1 m !! lnlike l = Some b ->
  heap1 m !! lnq l = Some q ->
  ln_mh_ratio_of (lnprior_p (candidates_at m k)) (lnlike_p (candidates_at m k))
    a b q (lnq_p (candidates_at m k)) = Ok r ->
  r = ratio_at l m k /\ length r = nwalkers (self m).
Proof.
  intros Hr Hk Ha Hb Hq E.
  destruct (ready_lengths l m a b q Hr Ha Hb Hq) as (La & Lb & Lq).
  destruct Hr as [[Hc (k0 & Hk0 & Hd) _ _ _ _] _].
  assert (k0 = k) as -> by congruence.
  destruct (ratio_at_ok l m k a b q Hc Hd Ha La Hb Lb Hq Lq) as [E' L'].
  rewrite E' in E. injection E as <-. split; [reflexivity|exact L'].
Qed.

Lemma ready_slot l m k :
  ready l m ->
  accepted (self (advanced l m k)) !! Z.to_nat (iterations (self m))
    = Some (map of_bool (mask_at l m k)).
Proof.
  intros [_ (hl & (_ & _ & _ & L4) & Hit)]. simpl.
  apply list_lookup_insert_eq. lia.
Qed.



(** C8, as the code has it.  A [nan] ratio is above nothing, zero and the
    logarithm of any variate included, so its walker is rejected: its
    acceptance flag in the history is zero, and its position, log prior
    and log likelihood after the step are those before the step.  Its log
    proposal density is kept by lines 146-150, and is that of before the
    step after the whole step when the proposal is not rebuilt.  When the
    step rebuilds the proposal (lines 161-163), [lnq] names a new array,
    the new proposal's density at the positions of the ensemble, and the
    walker's log proposal density is its entry there, not the one it had
    before the step. *)
Theorem nan_ratio_rejects ui l m k (a b q r : vec) (j : nat) (x : float) :
  ready l m -> _kde (self m) = Some k ->
  heap1 m !! lnprior l = Some a -> heap1 m !! lnlike l = Some b ->
  heap1 m !! lnq l = Some q ->
  ui <> 0 ->
  ln_mh_ratio_of (lnprior_p (candidates_at m k)) (lnlike_p (candidates_at m k))
    a b q (lnq_p (candidates_at m k)) = Ok r ->
  r !! j = Some x -> PrimFloat.is_nan x = true ->
  PrimFloat.ltb 0 x = false /\
  (forall y, PrimFloat.ltb y x = false) /\
  exists (acc : list bool) (m1 : machine) (l' : locals) (m' : machine)
         (flags : vec),
    advance l m = (Ok acc, m1) /\ step ui l m = (Ok l', m') /\
    acc !! j = Some false /\
    accepted (self m') !! Z.to_nat (iterations (self m)) = Some flags /\
    flags !! j = Some 0%float /\
    entry2 m' (p l') j = entry2 m (p l) j /\
    entry1 m' (lnprior l') j = entry1 m (lnprior l) j /\
    entry1 m' (lnlike l') j = entry1 m (lnlike l) j /\
    entry1 m1 (lnq l) j = entry1 m (lnq l) j /\
    (due ui m1 = false -> entry1 m' (lnq l') j = entry1 m (lnq l) j) /\
    (due ui m1 = true ->
       lnq l' = length (heap1 m1) /\
       exists (pv : mat) (k' : kde),
         heap2 m1 !! p l = Some pv /\ _kde (self m') = Some k' /\
         heap1 m' !! lnq l' = Some (kde_call k' pv) /\
         entry1 m' (lnq l') j = kde_call k' pv !! j).
Proof.
  intros Hr Hk Ha Hb Hq Hui Er Hx Hnan.
  split; [apply ltb_nan_r; exact Hnan|].
  split; [intros y; apply ltb_nan_r; exact Hnan|].
  destruct (ready_ratio l m k a b q r Hr Hk Ha Hb Hq Er) as [-> Lr].
  assert (mask_at l m k !! j = Some false) as Hacc.
  { unfold mask_at.
    rewrite (verdicts_lookup _ (variates (ratio_at l m k) (gen_after_draw m k))
               j x (random_rand_shape _ _) Hx).
    rewrite (ltb_nan_r x 0 Hnan).
    pose proof (worse_of_lookup _ j x Hx) as Hw.
    rewrite (ltb_nan_r x 0 Hnan) in Hw.
    destruct (lookup_lt_is_Some_2 (variates (ratio_at l m k) (gen_after_draw m k))
                (count (take j (worse_of (ratio_at l m k))))) as [y Hy].
    { unfold variates. rewrite random_rand_shape. apply count_take_lt. exact Hw. }
    rewrite Hy. simpl. rewrite (ltb_nan_r x _ Hnan). reflexivity. }
  destruct (step_frame ui l m k Hr Hk Hui)
    as (l' & m' & Es & Ep & Ea & Eb & Hnot & Hdue & Eh2 & Eh1 & Eacc & _).
  exists (mask_at l m k), (advanced l m k), l', m',
         (map of_bool (mask_at l m k)).
  split; [apply advance_ok; assumption|]. split; [exact Es|].
  split; [exact Hacc|].
  split; [rewrite Eacc; apply ready_slot; exact Hr|].
  split; [rewrite list_lookup_fmap, Hacc; reflexivity|].
  split; [|split; [|split; [|split; [|split]]]].
  - rewrite Ep. unfold entry2 at 1. rewrite Eh2.
    apply (entry2_advanced_stays l m k j Hacc).
  - rewrite Ea, (entry1_frame (advanced l m k) m')
      by (apply Eh1; eapply valid1; exact Ha).
    apply entry1_advanced_stays. exact Hacc.
  - rewrite Eb, (entry1_frame (advanced l m k) m')
      by (apply Eh1; eapply valid1; exact Hb).
    apply entry1_advanced_stays. exact Hacc.
  - apply entry1_advanced_stays. exact Hacc.
  - intros Ed. destruct (Hnot Ed) as [-> ->].
    apply entry1_advanced_stays. exact Hacc.
  - intros Ed. destruct (Hdue Ed) as [-> ->]. split; [reflexivity|].
    pose proof Hr as [[_ _ (pv & Hp & _) _ _ _] _].
    pose proof (updated2_at l (candidates_at m k) (mask_at l m k) (heap2 m) pv Hp)
      as Hp'.
    eexists _, _. split; [exact Hp'|]. split; [reflexivity|].
    match goal with
    | |- ?h !! ?x = Some ?v /\ _ => assert (h !! x = Some v) as Hq'
    end.
    { unfold rebuilt, rebound. cbn [heap1 set_heap1 lnq].
      change (heap2 (advanced l m k))
        with (updated2 l (candidates_at m k) (mask_at l m k) (heap2 m)).
      rewrite (list_lookup_total_correct _ _ _ Hp').
      apply list_lookup_middle. reflexivity. }
    split; [exact Hq'|]. unfold entry1. rewrite Hq'. reflexivity.
Qed.

End StepClaims.

Section RebuildClaims.

Context `{ES : ExternalsShapes}.

Implicit Types (m : machine) (l : locals) (s : Sampler) (k : kde).

(** The entries that a step accepts are the candidate's: the position
    always, the three scalars when their arrays are three arrays. *)
Lemma entry2_advanced_takes l m k j :
  ready l m -> _kde (self m) = Some k ->
  mask_at l m k !! j = Some true ->
  entry2 (advanced l m k) (p l) j = p_p (candidates_at m k) !! j.
Proof.
  intros Hr Hk Hj.
  pose proof Hr as [[Hc (k0 & Hk0 & Hd) (pv & Hp & Sp) (a & Ha & La)
                      (b & Hb & Lb) (q & Hq & Lq)] _].
  assert (k0 = k) as -> by congruence.
  destruct (candidates_shapes m k Hc Hd) as ([Lpp _] & _).
  pose proof (length_mask_at l m k a b q Hc Hd Ha La Hb Lb Hq Lq) as Lacc.
  unfold entry2. simpl.
  rewrite (updated2_at l _ _ (heap2 m) pv Hp). simpl.
  unfold masked_copy.
  destruct Sp as [Lp _].
  apply (masked_copy_lookup pv (p_p (candidates_at m k)) (mask_at l m k) j true);
    [congruence|congruence|exact Hj].
Qed.

Lemma entry1_advanced_takes l m k j :
  ready l m -> _kde (self m) = Some k ->
  NoDup [lnprior l; lnlike l; lnq l] ->
  mask_at l m k !! j = Some true ->
  let c := candidates_at m k in
  entry1 (advanced l m k) (lnprior l) j = lnprior_p c !! j /\
  entry1 (advanced l m k) (lnlike l) j = lnlike_p c !! j /\
  entry1 (advanced l m k) (lnq l) j = lnq_p c !! j.
Proof.
  intros Hr Hk Hnd Hj c.
  pose proof Hr as [[Hc (k0 & Hk0 & Hd) _ (a & Ha & La)
                      (b & Hb & Lb) (q & Hq & Lq)] _].
  assert (k0 = k) as -> by congruence.
  destruct (candidates_shapes m k Hc Hd) as (_ & E1 & E2 & E3).
  fold c in E1, E2, E3.
  pose proof (length_mask_at l m k a b q Hc Hd Ha La Hb Lb Hq Lq) as Lacc.
  apply NoDup_cons in Hnd as [Hab Hnd]. apply NoDup_cons in Hnd as [Hbq _].
  rewrite not_elem_of_cons in Hab. destruct Hab as [Hab Haq].
  rewrite not_elem_of_cons in Haq. destruct Haq as [Haq _].
  rewrite not_elem_of_cons in Hbq. destruct Hbq as [Hbq _].
  unfold entry1. simpl. unfold updated1. fold c.
  rewrite !copy_into_lookup.
  repeat split.
  - rewrite (decide_False (P := lnprior l = lnq l)) by exact Haq.
    rewrite (decide_False (P := lnprior l = lnlike l)) by exact Hab.
    rewrite decide_True by reflexivity. rewrite Ha. simpl.
    apply (masked_copy_lookup a (lnprior_p c) (mask_at l m k) j true);
      [congruence|congruence|exact Hj].
  - rewrite (decide_False (P := lnlike l = lnq l)) by exact Hbq.
    rewrite decide_True by reflexivity.
    rewrite (decide_False (P := lnlike l = lnprior l)) by congruence.
    rewrite Hb. simpl.
    apply (masked_copy_lookup b (lnlike_p c) (mask_at l m k) j true);
      [congruence|congruence|exact Hj].
  - rewrite decide_True by reflexivity.
    rewrite (decide_False (P := lnq l = lnlike l)) by congruence.
    rewrite (decide_False (P := lnq l = lnprior l)) by congruence.
    rewrite Hq. simpl.
    apply (masked_copy_lookup q (lnq_p c) (mask_at l m k) j true);
      [congruence|congruence|exact Hj].
Qed.

(** C3, as the code has it.  A walker that the step rejects keeps its
    position, its log prior and its log likelihood, and lines 146-150 keep
    its log proposal density; a walker that the step accepts takes the
    candidate's position and, the three arrays of scalars being three
    arrays, the candidate's three scalars, all in lines 146-150.  After the
    whole step the log proposal density is the one lines 146-150 left when
    the proposal is not rebuilt; when it is rebuilt, [lnq] names a new
    array, the new proposal's density at the positions of the ensemble,
    for accepted and rejected walkers alike. *)
Theorem rejected_walker_kept ui l m k (j : nat) :
  ready l m -> _kde (self m) = Some k -> ui <> 0 ->
  let c := candidates_at m k in
  exists (acc : list bool) (m1 : machine) (l' : locals) (m' : machine),
    advance l m = (Ok acc, m1) /\ step ui l m = (Ok l', m') /\
    p l' = p l /\ lnprior l' = lnprior l /\ lnlike l' = lnlike l /\
    (acc !! j = Some false ->
       entry2 m' (p l') j = entry2 m (p l) j /\
       entry1 m' (lnprior l') j = entry1 m (lnprior l) j /\
       entry1 m' (lnlike l') j = entry1 m (lnlike l) j /\
       entry1 m1 (lnq l) j = entry1 m (lnq l) j) /\
    (acc !! j = Some true ->
       entry2 m' (p l') j = p_p c !! j /\
       (NoDup [lnprior l; lnlike l; lnq l] ->
          entry1 m' (lnprior l') j = lnprior_p c !! j /\
          entry1 m' (lnlike l') j = lnlike_p c !! j /\
          entry1 m1 (lnq l) j = lnq_p c !! j)) /\
    (due ui m1 = false ->
       lnq l' = lnq l /\ entry1 m' (lnq l') j = entry1 m1 (lnq l) j) /\
    (due ui m1 = true ->
       lnq l' = length (heap1 m1) /\
       exists (pv : mat) (k' : kde),
         heap2 m1 !! p l = Some pv /\ _kde (self m') = Some k' /\
         heap1 m' !! lnq l' = Some (kde_call k' pv)).
Proof.
  intros Hr Hk Hui c.
  pose proof Hr as [[_ _ (pv & Hp & _) (a & Ha & _) (b & Hb & _) _] _].
  destruct (step_frame ui l m k Hr Hk Hui)
    as (l' & m' & Es & Ep & Ea & Eb & Hnot & Hdue & Eh2 & Eh1 & _).
  exists (mask_at l m k), (advanced l m k), l', m'.
  split; [apply advance_ok; assumption|]. split; [exact Es|].
  split; [exact Ep|]. split; [exact Ea|]. split; [exact Eb|].
  assert (forall x, entry1 m' (lnprior l') x = entry1 (advanced l m k) (lnprior l) x)
    as Fa.
  { intros x. rewrite Ea. apply entry1_frame, Eh1. eapply valid1. exact Ha. }
  assert (forall x, entry1 m' (lnlike l') x = entry1 (advanced l m k) (lnlike l) x)
    as Fb.
  { intros x. rewrite Eb. apply entry1_frame, Eh1. eapply valid1. exact Hb. }
  assert (forall x, entry2 m' (p l') x = entry2 (advanced l m k) (p l) x) as Fp.
  { intros x. rewrite Ep. unfold entry2. rewrite Eh2. reflexivity. }
  split; [|split; [|split]].
  - intros Hj. rewrite Fp, Fa, Fb.
    split; [apply entry2_advanced_stays; exact Hj|].
    repeat split; apply entry1_advanced_stays; exact Hj.
  - intros Hj. rewrite Fp, Fa, Fb.
    split; [apply entry2_advanced_takes; assumption|].
    intros Hnd. apply entry1_advanced_takes; assumption.
  - intros Ed. destruct (Hnot Ed) as [-> ->]. split; reflexivity.
  - intros Ed. destruct (Hdue Ed) as [-> ->]. split; [reflexivity|].
    pose proof (updated2_at l c (mask_at l m k) (heap2 m) pv Hp) as Hp'.
    eexists _, _. split; [exact Hp'|]. split; [reflexivity|].
    unfold rebuilt, rebound. cbn [heap1 set_heap1 lnq].
    change (heap2 (advanced l m k)) with (updated2 l c (mask_at l m k) (heap2 m)).
    rewrite (list_lookup_total_correct _ _ _ Hp').
    apply list_lookup_middle. reflexivity.
Qed.

(** C6.  When line 161 finds the counter a multiple of [update_interval],
    the step fits a new proposal to the positions that lines 146-150 left
    and binds [lnq] to a new array, that proposal's log density at these
    positions, one number per walker; the arrays of log priors and of log
    likelihoods, and every other array there was, are left as lines 146-158
    left them. *)
Theorem rebuild_rescores ui l m k :
  ready l m -> _kde (self m) = Some k -> ui <> 0 ->
  (iterations (self m) + 1) mod ui = 0 ->
  exists (acc : list bool) (m1 : machine) (l' : locals) (m' : machine)
         (pv : mat),
    advance l m = (Ok acc, m1) /\ step ui l m = (Ok l', m') /\
    rebuild l m1 = (Ok l', m') /\
    heap2 m1 !! p l = Some pv /\
    let k' := (OptimizedKDE pv (_pool (self m1)) (gen m1)).1 in
    _kde (self m') = Some k' /\
    heap1 m' !! lnq l' = Some (kde_call k' pv) /\
    length (kde_call k' pv) = nwalkers (self m) /\
    p l' = p l /\ lnprior l' = lnprior l /\ lnlike l' = lnlike l /\
    heap2 m' = heap2 m1 /\
    heap1 m' !! lnprior l' = heap1 m1 !! lnprior l /\
    heap1 m' !! lnlike l' = heap1 m1 !! lnlike l /\
    (forall x, (x < length (heap1 m1))%nat -> heap1 m' !! x = heap1 m1 !! x).
Proof.
  intros Hr Hk Hui Hmod.
  pose proof Hr as [[_ _ (pv & Hp & Sp) (a & Ha & _) (b & Hb & _) _] _].
  pose proof (shaped_advanced l m k Hr Hk) as [_ _ (pv' & Hp' & Sp') _ _ _].
  assert (due ui (advanced l m k) = true) as Ed
    by (apply due_advanced; exact Hmod).
  destruct (step_frame ui l m k Hr Hk Hui)
    as (l' & m' & Es & Ep & Ea & Eb & _ & Hdue & Eh2 & Eh1 & _).
  destruct (Hdue Ed) as [El' Em'].
  exists (mask_at l m k), (advanced l m k), l', m', pv'.
  split; [apply advance_ok; assumption|]. split; [exact Es|].
  split; [rewrite El', Em'; apply rebuild_ok with pv'; exact Hp'|].
  split; [exact Hp'|].
  assert (heap2 (advanced l m k) !!! p l = pv') as Et
    by (apply list_lookup_total_correct; exact Hp').
  split; [rewrite Em'; unfold rebuilt; rewrite Et; reflexivity|].
  split.
  { rewrite Em', El'. unfold rebuilt, rebound. rewrite Et.
    cbn [heap1 set_heap1 lnq]. apply list_lookup_middle. reflexivity. }
  split; [rewrite kde_call_shape; apply Sp'|].
  split; [exact Ep|]. split; [exact Ea|]. split; [exact Eb|].
  split; [exact Eh2|].
  split; [rewrite Ea; apply Eh1; eapply valid1; exact Ha|].
  split; [rewrite Eb; apply Eh1; eapply valid1; exact Hb|].
  exact Eh1.
Qed.

End RebuildClaims.


Lemma elem_of_rebuild_counts c iters ui x :
  x ∈ rebuild_counts c iters ui <-> c < x <= c + iters /\ x mod ui = 0.
Proof.
  unfold rebuild_counts. rewrite list_elem_of_filter, elem_of_seqZ. lia.
Qed.

(** * The claims about a call *)

Section CallClaims.

Context `{ES : ExternalsShapes}.

Implicit Types (m : machine) (l : locals) (s : Sampler) (k : kde).

(** Lines 95-122 as one computation: the locals, with the histories grown. *)
Lemma prepare_and_grow_ok p0 lnprior0 lnlike0 lnq0 iters m pv :
  heap2 m !! p0 = Some pv -> 0 <= iters ->
  enter p0 lnprior0 lnlike0 lnq0 iters m =
    (Ok (prepared p0 lnprior0 lnlike0 lnq0 m).1,
     set_self (grown iters (self (prepared p0 lnprior0 lnlike0 lnq0 m).2))
       (prepared p0 lnprior0 lnlike0 lnq0 m).2).
Proof.
  intros Hp Hk. unfold enter.
  rewrite (bind_ok _ _ _ _ _ (prologue_ok _ _ _ _ m pv Hp)).
  rewrite (bind_ok _ _ _ _ _ (grow_ok iters _ Hk)). reflexivity.
Qed.

Lemma sample_unfold p0 lnprior0 lnlike0 lnq0 iters ui m pv :
  heap2 m !! p0 = Some pv -> 0 <= iters ->
  sample p0 lnprior0 lnlike0 lnq0 iters ui m =
    loop (Z.to_nat iters) ui (prepared p0 lnprior0 lnlike0 lnq0 m).1
      (set_self (grown iters (self (prepared p0 lnprior0 lnlike0 lnq0 m).2))
         (prepared p0 lnprior0 lnlike0 lnq0 m).2).
Proof.
  intros Hp Hk. unfold sample.
  rewrite (bind_ok _ _ _ _ _ (prologue_ok _ _ _ _ m pv Hp)).
  rewrite (bind_ok _ _ _ _ _ (grow_ok iters _ Hk)). reflexivity.
Qed.

(** A call is lines 95-122 followed by the loop, whatever either does. *)
Lemma sample_enter p0 lnprior0 lnlike0 lnq0 iters ui m :
  sample p0 lnprior0 lnlike0 lnq0 iters ui m =
    bind (enter p0 lnprior0 lnlike0 lnq0 iters)
         (fun l => loop (Z.to_nat iters) ui l) m.
Proof.
  unfold sample, enter, bind, ret.
  destruct (prologue p0 lnprior0 lnlike0 lnq0 m) as [[l|e] m1]; [|reflexivity].
  destruct (grow iters m1) as [[[]|e] m2]; reflexivity.
Qed.

(** The histories of the machine on which the loop starts. *)
Lemma grown_histories p0 lnprior0 lnlike0 lnq0 iters m :
  let s2 := grown iters (self (prepared p0 lnprior0 lnlike0 lnq0 m).2) in
  let n := Z.to_nat iters in
  _chain s2 = _chain (self m) ++
              replicate n (zeros2 (nwalkers (self m)) (dim (self m))) /\
  _lnpost s2 = _lnpost (self m) ++ replicate n (zeros1 (nwalkers (self m))) /\
  _lnprop s2 = _lnprop (self m) ++ replicate n (zeros1 (nwalkers (self m))) /\
  accepted s2 = accepted (self m) ++ replicate n (zeros1 (nwalkers (self m))) /\
  iterations s2 = iterations (self m) /\
  nwalkers s2 = nwalkers (self m) /\ dim s2 = dim (self m) /\
  _kde s2 = _kde (self (prepared p0 lnprior0 lnlike0 lnq0 m).2).
Proof.
  destruct (prepared_self p0 lnprior0 lnlike0 lnq0 m)
    as (EN & ED & _ & _ & Eit & E1 & E2 & E3 & E4 & _).
  intros s2 n. unfold s2, grown.
  cbn [_chain _lnpost _lnprop accepted iterations nwalkers dim _kde
       set_accepted set_lnprop set_lnpost set_chain].
  rewrite EN, ED, E1, E2, E3, E4, Eit. repeat split.
Qed.


(** C5, as the code has it.  A call fits a proposal once before its first
    step when the sampler has none, and after that exactly after the steps
    at which the counter of the sampler, which counts the steps of all its
    calls, has become a multiple of [update_interval]: with the counter at
    [c] when the call is made, after the steps [i] of the call for which
    [c + i] is such a multiple.  It fits no other. *)
Theorem proposal_fits_of_a_call p0 lnprior0 lnlike0 lnq0 iters ui m :
  callable p0 lnprior0 lnlike0 lnq0 m -> 0 <= iters -> ui <> 0 ->
  let c := iterations (self m) in
  exists (l' : locals) (m' : machine),
    sample p0 lnprior0 lnlike0 lnq0 iters ui m = (Ok l', m') /\
    fit_counts m' =
      fit_counts m ++
      match _kde (self m) with None => [c] | Some _ => [] end ++
      rebuild_counts c iters ui /\
    (forall x, x ∈ rebuild_counts c iters ui <->
               c < x <= c + iters /\ x mod ui = 0).
Proof.
  intros Hc Hk Hui c.
  destruct (sample_ran p0 lnprior0 lnlike0 lnq0 iters ui m Hc Hk Hui)
    as (l' & m' & Es & R).
  destruct (grown_histories p0 lnprior0 lnlike0 lnq0 iters m)
    as (_ & _ & _ & _ & Git & _).
  exists l', m'. split; [exact Es|]. split.
  - rewrite (ran_fits _ _ _ _ _ _ R).
    change (fit_counts (set_self _ ?x)) with (fit_counts x).
    rewrite prepared_fits. cbn [self set_self]. rewrite Git.
    rewrite Z2Nat.id by exact Hk. rewrite <- app_assoc. reflexivity.
  - intros x. apply elem_of_rebuild_counts.
Qed.

(** C7, as the code has it.  A new sampler has empty histories and the
    counter zero.  In a call made when the four histories have the length
    of the counter, they all have the length of that counter plus
    [iterations] from the time they are grown: before the first step,
    after each step and when the call returns; the counter is then the
    earlier counter plus the number of steps run so far, so the histories
    are as long as the counter says again when the call returns, and longer
    in between. *)
Theorem history_lengths_in_a_call p0 lnprior0 lnlike0 lnq0 iters ui m (hl : nat) :
  callable p0 lnprior0 lnlike0 lnq0 m -> history_lengths (self m) hl ->
  0 <= iters -> ui <> 0 ->
  (forall n d f g po,
     history_lengths (__init__ n d f g po) 0 /\
     iterations (__init__ n d f g po) = 0) /\
  iterations (self m) = Z.of_nat hl /\
  exists (l1 : locals) (m1 : machine),
    enter p0 lnprior0 lnlike0 lnq0 iters m = (Ok l1, m1) /\
    (forall i, (i <= Z.to_nat iters)%nat ->
       exists (li : locals) (mi : machine),
         loop i ui l1 m1 = (Ok li, mi) /\
         history_lengths (self mi) (hl + Z.to_nat iters) /\
         iterations (self mi) = Z.of_nat hl + Z.of_nat i) /\
    exists (l' : locals) (m' : machine),
      sample p0 lnprior0 lnlike0 lnq0 iters ui m = (Ok l', m') /\
      history_lengths (self m') (hl + Z.to_nat iters) /\
      iterations (self m') = Z.of_nat (hl + Z.to_nat iters).
Proof.
  intros Hc Hh Hk Hui.
  split; [intros; repeat split|].
  destruct (callable_p0 _ _ _ _ _ Hc) as (pv & Hp & _).
  destruct (callable_history _ _ _ _ _ Hc) as (hl' & Hh' & Hit).
  assert (hl' = hl) as ->.
  { destruct Hh as (L & _), Hh' as (L' & _). congruence. }
  split; [exact Hit|].
  destruct (grown_histories p0 lnprior0 lnlike0 lnq0 iters m)
    as (G1 & G2 & G3 & G4 & Git & _).
  pose proof (shaped_prepared _ _ _ _ _ Hc) as Hs.
  set (l1 := (prepared p0 lnprior0 lnlike0 lnq0 m).1) in *.
  set (m1 := (prepared p0 lnprior0 lnlike0 lnq0 m).2) in *.
  set (m2 := set_self (grown iters (self m1)) m1) in *.
  change (grown iters (self m1)) with (self m2) in G1, G2, G3, G4, Git.
  assert (history_lengths (self m2) (hl + Z.to_nat iters)) as Hh2.
  { destruct Hh as (L1 & L2 & L3 & L4). unfold history_lengths.
    rewrite G1, G2, G3, G4, !length_app, !length_replicate. lia. }
  assert (forall i, (i <= Z.to_nat iters)%nat ->
            exists li mi, loop i ui l1 m2 = (Ok li, mi) /\
              history_lengths (self mi) (hl + Z.to_nat iters) /\
              iterations (self mi) = Z.of_nat hl + Z.of_nat i) as Hloop.
  { intros i Hi.
    destruct (loop_ran ui i l1 m2 (hl + Z.to_nat iters)) as (li & mi & El & R).
    - apply shaped_grown. exact Hs.
    - exact Hh2.
    - rewrite Git. lia.
    - rewrite Git. lia.
    - exact Hui.
    - exists li, mi. split; [exact El|].
      split; [apply (ran_lengths _ _ _ _ _ _ R); exact Hh2|].
      rewrite (ran_counter _ _ _ _ _ _ R), Git. lia. }
  exists l1, m2.
  split; [apply prepare_and_grow_ok with pv; assumption|].
  split; [exact Hloop|].
  destruct (Hloop (Z.to_nat iters)) as (l' & m' & El & Hl & Hc'); [lia|].
  exists l', m'.
  split; [rewrite (sample_unfold _ _ _ _ _ _ _ pv Hp Hk); exact El|].
  split; [exact Hl|]. rewrite Hc'. lia.
Qed.

(** C10, as the code has it.  A call works on a copy of [p0]: the array
    returned as [p] is a new array, and the caller's, like every array of
    positions there was, is as it was.  The arrays returned as [lnprior]
    and [lnlike] are the caller's [lnprior0] and [lnlike0] where given, so
    what the steps wrote they wrote into the caller's arrays.  The array
    returned as [lnq] is the caller's [lnq0] only when the call has rebuilt
    no proposal; once it has, [lnq] is an array made during the call. *)
Theorem arrays_of_a_call p0 lnprior0 lnlike0 lnq0 iters ui m :
  callable p0 lnprior0 lnlike0 lnq0 m -> 0 <= iters -> ui <> 0 ->
  let c := iterations (self m) in
  exists (l' : locals) (m' : machine),
    sample p0 lnprior0 lnlike0 lnq0 iters ui m = (Ok l', m') /\
    p l' = length (heap2 m) /\ p l' <> p0 /\
    (forall x, (x < length (heap2 m))%nat -> heap2 m' !! x = heap2 m !! x) /\
    (forall a, lnprior0 = Some a -> lnprior l' = a) /\
    (forall a, lnlike0 = Some a -> lnlike l' = a) /\
    (forall a, lnq0 = Some a -> rebuild_counts c iters ui = [] -> lnq l' = a) /\
    (forall a, lnq0 = Some a -> rebuild_counts c iters ui <> [] ->
               (length (heap1 m) <= lnq l')%nat /\ lnq l' <> a).
Proof.
  intros Hc Hk Hui c.
  destruct (sample_ran p0 lnprior0 lnlike0 lnq0 iters ui m Hc Hk Hui)
    as (l' & m' & Es & R).
  destruct (grown_histories p0 lnprior0 lnlike0 lnq0 iters m)
    as (_ & _ & _ & _ & Git & _).
  destruct (prepared_heap2 p0 lnprior0 lnlike0 lnq0 m) as [Eh2 Ep].
  destruct (prepared_heap1 p0 lnprior0 lnlike0 lnq0 m) as [ext Eh1].
  destruct (prepared_given p0 lnprior0 lnlike0 lnq0 m) as (Ga & Gb & Gq).
  destruct (ran_locals _ _ _ _ _ _ R) as (Lp & La & Lb).
  destruct (ran_heap2 _ _ _ _ _ _ R) as [_ F2].
  destruct (callable_p0 _ _ _ _ _ Hc) as (pv & Hp & _).
  pose proof (lookup_lt_Some _ _ _ Hp) as Hp0.
  cbn [self heap1 heap2 set_self] in F2, Lp, La, Lb.
  exists l', m'. split; [exact Es|].
  split; [congruence|]. split; [rewrite Lp, Ep; lia|].
  split.
  { intros x Hx. rewrite F2 by (rewrite Ep; lia).
    rewrite Eh2. apply lookup_app_l. exact Hx. }
  split; [intros a E; rewrite La; apply Ga; exact E|].
  split; [intros a E; rewrite Lb; apply Gb; exact E|].
  pose proof (ran_lnq _ _ _ _ _ _ R) as Q.
  cbn [self heap1 set_self] in Q. rewrite Git in Q.
  rewrite Z2Nat.id in Q by exact Hk. fold c in Q.
  split.
  - intros a E Hnone. destruct Q as [[_ Q]|[Q _]]; [|contradiction].
    rewrite Q. apply Gq. exact E.
  - intros a E Hsome. destruct Q as [[Q _]|[_ Q]]; [contradiction|].
    rewrite Eh1, length_app in Q.
    assert (a < length (heap1 m))%nat as Ha.
    { pose proof (callable_lnq0 _ _ _ _ _ Hc) as G. rewrite E in G.
      destruct G as (v & Hv & _). eapply lookup_lt_Some. exact Hv. }
    lia.
Qed.

End CallClaims.

(** ** Operands that do not broadcast *)

Lemma broadcast2_keep {A B C} (f : A -> B -> C) (x : list A) (y : list B) n :
  length x = n -> n <> 1%nat -> length y = n \/ length y = 1%nat ->
  exists r, broadcast2 f x y = Ok r /\ length r = n.
Proof.
  intros Lx Hn [Ly|Ly].
  - exists (zip_with f x y). split; [apply broadcast2_same; congruence|].
    rewrite length_zip_with. lia.
  - unfold broadcast2.
    destruct (Nat.eqb_spec (length x) (length y)) as [E|_]; [lia|].
    destruct y as [|y0 [|y1 y]]; simpl in Ly; try discriminate.
    destruct x as [|x0 [|x1 x]]; simpl in *.
    + exists []. split; [reflexivity|exact Lx].
    + congruence.
    + eexists. split; [reflexivity|]. simpl. rewrite length_map. exact Lx.
Qed.

Lemma ratio_misfit (lpp llp a b q lqp : vec) n :
  length lpp = n -> length llp = n -> length lqp = n -> n <> 1%nat ->
  (length a <> n /\ length a <> 1%nat) \/
  (length b <> n /\ length b <> 1%nat) \/
  (length q <> n /\ length q <> 1%nat) ->
  ln_mh_ratio_of lpp llp a b q lqp = Raise ValueError.
Proof.
  intros E1 E2 E3 Hn Hmis. unfold ln_mh_ratio_of, add, sub.
  rewrite broadcast2_same by congruence. simpl.
  assert (length (zip_with PrimFloat.add lpp llp) = n) as L1
    by (rewrite length_zip_with; lia).
  set (t1 := zip_with PrimFloat.add lpp llp) in *.
  destruct (decide (length a = n \/ length a = 1%nat)) as [Fa|Fa].
  2:{ rewrite broadcast2_mismatch; [reflexivity|lia..]. }
  destruct (broadcast2_keep PrimFloat.sub t1 a n L1 Hn Fa) as (t2 & -> & L2).
  simpl.
  destruct (decide (length b = n \/ length b = 1%nat)) as [Fb|Fb].
  2:{ rewrite broadcast2_mismatch; [reflexivity|lia..]. }
  destruct (broadcast2_keep PrimFloat.sub t2 b n L2 Hn Fb) as (t3 & -> & L3).
  simpl.
  destruct (decide (length q = n \/ length q = 1%nat)) as [Fq|Fq].
  2:{ rewrite broadcast2_mismatch; [reflexivity|lia..]. }
  lia.
Qed.

Section Misfit.

Context `{ES : ExternalsShapes}.

Implicit Types (m : machine) (l : locals) (s : Sampler) (k : kde).

Lemma advance_misfit l m k (a b q : vec) :
  (forall x, length (_get_lnprior (self m) x) = length x) ->
  (forall x, length (_get_lnlike (self m) x) = length x) ->
  _kde (self m) = Some k ->
  heap1 m !! lnprior l = Some a -> heap1 m !! lnlike l = Some b ->
  heap1 m !! lnq l = Some q ->
  nwalkers (self m) <> 1%nat ->
  (length a <> nwalkers (self m) /\ length a <> 1%nat) \/
  (length b <> nwalkers (self m) /\ length b <> 1%nat) \/
  (length q <> nwalkers (self m) /\ length q <> 1%nat) ->
  advance l m = (Raise ValueError, set_gen (gen_after_draw m k) m).
Proof.
  intros Cp Cl Hk Ha Hb Hq Hn Hmis. unfold advance.
  rewrite (bind_ok _ _ _ _ _ (propose_ok m k Hk)).
  set (m1 := set_gen (gen_after_draw m k) m).
  rewrite (bind_ok (load1 (lnprior l)) _ m1 a m1) by (apply load1_ok; exact Ha).
  rewrite (bind_ok (load1 (lnlike l)) _ m1 b m1) by (apply load1_ok; exact Hb).
  rewrite (bind_ok (load1 (lnq l)) _ m1 q m1) by (apply load1_ok; exact Hq).
  apply bind_raise. unfold lift.
  rewrite (ratio_misfit _ _ a b q _ (nwalkers (self m))); try assumption;
    try reflexivity; simpl.
  - rewrite Cp. apply kde_draw_shape.
  - rewrite Cl. apply kde_draw_shape.
  - rewrite kde_call_shape. apply kde_draw_shape.
Qed.

Lemma named1_ext m m' given ext :
  heap1 m' = heap1 m ++ ext -> named1 m given -> named1 m' given.
Proof.
  intros E. destruct given as [a|]; simpl; [|auto].
  intros [v Hv]. exists v. rewrite E. apply lookup_app_l_Some. exact Hv.
Qed.

Lemma alloc1_named given (v : vec) m :
  named1 m given ->
  exists w, heap1 (alloc1 given v m).2 !! (alloc1 given v m).1 = Some w /\
            forall m0 ext n, heap1 m = heap1 m0 ++ ext -> misfit m0 given n ->
                             length w <> n /\ length w <> 1%nat.
Proof.
  destruct given as [a|]; simpl.
  - intros [w Hw]. exists w. split; [exact Hw|].
    intros m0 ext n E (w' & Hw' & Hl). rewrite E in Hw.
    rewrite (lookup_app_l_Some _ _ _ _ Hw') in Hw. congruence.
  - intros _. exists v. split; [apply list_lookup_middle; reflexivity|].
    intros m0 ext n _ [].
Qed.

(** The three arrays of scalars that the loop starts from, whatever their
    lengths. *)
Lemma prepared_arrays p0 lnprior0 lnlike0 lnq0 m :
  named1 m lnprior0 -> named1 m lnlike0 -> named1 m lnq0 ->
  let l1 := (prepared p0 lnprior0 lnlike0 lnq0 m).1 in
  let m1 := (prepared p0 lnprior0 lnlike0 lnq0 m).2 in
  exists (a b q : vec),
    heap1 m1 !! lnprior l1 = Some a /\ heap1 m1 !! lnlike l1 = Some b /\
    heap1 m1 !! lnq l1 = Some q /\
    forall n,
      (misfit m lnprior0 n -> length a <> n /\ length a <> 1%nat) /\
      (misfit m lnlike0 n -> length b <> n /\ length b <> 1%nat) /\
      (misfit m lnq0 n -> length q <> n /\ length q <> 1%nat).
Proof.
  intros Na Nb Nq. unfold prepared. cbn [fst snd p lnprior lnlike lnq].
  set (pv := heap2 m !!! p0).
  set (m2 := match _kde (self m) with None => _ | Some _ => _ end).
  assert (heap1 m2 = heap1 m ++ []) as E2
    by (unfold m2; destruct (_kde (self m)); simpl; symmetry; apply app_nil_r).
  set (va := _get_lnprior (self m) pv). set (vb := _get_lnlike (self m) pv).
  set (vq := kde_call _ pv).
  destruct (alloc1_frame lnprior0 va m2) as (_ & _ & _ & exta & Ea).
  set (ma := (alloc1 lnprior0 va m2).2) in *.
  destruct (alloc1_frame lnlike0 vb ma) as (_ & _ & _ & extb & Eb).
  set (mb := (alloc1 lnlike0 vb ma).2) in *.
  destruct (alloc1_frame lnq0 vq mb) as (_ & _ & _ & extq & Eq).
  set (mq := (alloc1 lnq0 vq mb).2) in *.
  destruct (alloc1_named lnprior0 va m2) as (a & Ha & Ma).
  { eapply named1_ext; [exact E2|exact Na]. }
  destruct (alloc1_named lnlike0 vb ma) as (b & Hb & Mb).
  { eapply named1_ext; [exact Ea|]. eapply named1_ext; [exact E2|exact Nb]. }
  destruct (alloc1_named lnq0 vq mb) as (q & Hq & Mq).
  { eapply named1_ext; [exact Eb|]. eapply named1_ext; [exact Ea|].
    eapply named1_ext; [exact E2|exact Nq]. }
  fold ma in Ha. fold mb in Hb. fold mq in Hq.
  exists a, b, q.
  split; [rewrite Eq, Eb; do 2 apply lookup_app_l_Some; exact Ha|].
  split; [rewrite Eq; apply lookup_app_l_Some; exact Hb|].
  split; [exact Hq|].
  intros n. split; [|split]; intros M.
  - apply (Ma m [] n E2 M).
  - apply (Mb m exta n); [|exact M]. rewrite Ea, E2, app_nil_r. reflexivity.
  - apply (Mq m (exta ++ extb) n); [|exact M].
    rewrite Eb, Ea, E2, app_nil_r, app_assoc. reflexivity.
Qed.

(** C9, as the code has it.  [sample] checks no shape.  In a call of at
    least one step with a [p0] of [nwalkers] points, when an optional
    array has neither [nwalkers] entries nor one (and there is more than
    one walker), the call fails where the array is first used, in line 135
    of the first step, with the [ValueError] of the broadcast; by then it
    has copied [p0], fitted a proposal if there was none, made the arrays
    not given and grown the four histories by [iterations] rows of zeros,
    and it has drawn the candidates.  The counter, the rows the histories
    had and the arrays there were are as before the call.  An array of
    one entry, and a call of no step, are outside this statement. *)
Theorem wrong_length_fails_in_the_first_step
    p0 lnprior0 lnlike0 lnq0 iters ui m (pv : mat) :
  contract (self m) ->
  heap2 m !! p0 = Some pv -> length pv = nwalkers (self m) ->
  named1 m lnprior0 -> named1 m lnlike0 -> named1 m lnq0 ->
  misfit m lnprior0 (nwalkers (self m)) \/
  misfit m lnlike0 (nwalkers (self m)) \/
  misfit m lnq0 (nwalkers (self m)) ->
  nwalkers (self m) <> 1%nat -> 1 <= iters ->
  let k := Z.to_nat iters in
  let N := nwalkers (self m) in
  let D := dim (self m) in
  exists (l1 : locals) (m1 m' : machine),
    enter p0 lnprior0 lnlike0 lnq0 iters m = (Ok l1, m1) /\
    advance l1 m1 = (Raise ValueError, m') /\
    sample p0 lnprior0 lnlike0 lnq0 iters ui m = (Raise ValueError, m') /\
    self m' = self m1 /\ heap1 m' = heap1 m1 /\ heap2 m' = heap2 m1 /\
    fits m' = fits m1 /\
    iterations (self m') = iterations (self m) /\
    _chain (self m') = _chain (self m) ++ replicate k (zeros2 N D) /\
    _lnpost (self m') = _lnpost (self m) ++ replicate k (zeros1 N) /\
    _lnprop (self m') = _lnprop (self m) ++ replicate k (zeros1 N) /\
    accepted (self m') = accepted (self m) ++ replicate k (zeros1 N) /\
    is_Some (_kde (self m')) /\
    fit_counts m' =
      fit_counts m ++
      match _kde (self m) with None => [iterations (self m)] | Some _ => [] end /\
    heap2 m' = heap2 m ++ [pv] /\
    exists ext, heap1 m' = heap1 m ++ ext.
Proof.
  intros [Cp Cl] Hp Lp Na Nb Nq Hmis Hn Hk k N D. subst k N D.
  destruct (grown_histories p0 lnprior0 lnlike0 lnq0 iters m)
    as (G1 & G2 & G3 & G4 & Git & GN & GD & Gk).
  destruct (prepared_self p0 lnprior0 lnlike0 lnq0 m)
    as (EN & ED & Ep & El & _ & _ & _ & _ & _ & Ekde).
  destruct (prepared_arrays p0 lnprior0 lnlike0 lnq0 m Na Nb Nq)
    as (a & b & q & Ha & Hb & Hq & Hlen).
  destruct (prepared_heap2 p0 lnprior0 lnlike0 lnq0 m) as [Eh2 _].
  destruct (prepared_heap1 p0 lnprior0 lnlike0 lnq0 m) as [ext Eh1].
  pose proof (prepared_fits p0 lnprior0 lnlike0 lnq0 m) as Ef.
  rewrite (list_lookup_total_correct _ _ _ Hp) in Eh2.
  set (l1 := (prepared p0 lnprior0 lnlike0 lnq0 m).1) in *.
  set (m1 := (prepared p0 lnprior0 lnlike0 lnq0 m).2) in *.
  set (m2 := set_self (grown iters (self m1)) m1) in *.
  change (grown iters (self m1)) with (self m2) in G1, G2, G3, G4, Git, GN, GD, Gk.
  destruct (Hlen (nwalkers (self m))) as (Ma & Mb & Mq).
  assert (advance l1 m2 =
          (Raise ValueError,
           set_gen (gen_after_draw m2 (default (OptimizedKDE pv (_pool (self m)) (gen m)).1
                                         (_kde (self m)))) m2)) as Eadv.
  { apply advance_misfit with a b q; try assumption.
    - intros x. change (_get_lnprior (self m2)) with (_get_lnprior (self m1)).
      rewrite Ep. apply Cp.
    - intros x. change (_get_lnlike (self m2)) with (_get_lnlike (self m1)).
      rewrite El. apply Cl.
    - rewrite Gk, Ekde, (list_lookup_total_correct _ _ _ Hp). reflexivity.
    - rewrite GN. exact Hn.
    - rewrite GN. destruct Hmis as [M|[M|M]]; [left; apply Ma|right; left; apply Mb
        |right; right; apply Mq]; exact M. }
  eexists l1, m2, _.
  split; [apply prepare_and_grow_ok with pv; [exact Hp|lia]|].
  split; [exact Eadv|].
  split.
  { rewrite (sample_unfold _ _ _ _ _ _ _ pv Hp) by lia. fold l1 m1 m2.
    destruct (Z.to_nat iters) as [|n] eqn:En; [lia|].
    simpl loop. apply bind_raise. unfold step. apply bind_raise. exact Eadv. }
  cbn [self heap1 heap2 fits set_gen].
  split; [reflexivity|]. split; [reflexivity|]. split; [reflexivity|].
  split; [reflexivity|].
  split; [exact Git|]. split; [exact G1|]. split; [exact G2|].
  split; [exact G3|]. split; [exact G4|].
  split; [rewrite Gk, Ekde; eexists; reflexivity|].
  split; [exact Ef|]. split; [exact Eh2|].
  exists ext. exact Eh1.
Qed.

End Misfit.

(** * Calls that run no step, and calls that fail *)

Section Edges.

Context `{ES : ExternalsShapes}.

Implicit Types (m : machine) (l : locals) (s : Sampler) (k : kde).

Lemma grown_zero s : grown 0 s = s.
Proof.
  destruct s. unfold grown. cbn. rewrite !app_nil_r. reflexivity.
Qed.

Lemma set_self_self m : set_self (self m) m = m.
Proof. destruct m. reflexivity. Qed.

(** The arrays that lines 105-112 compute hold the evaluators' values at
    the points of [p0]. *)
Lemma prepared_computed p0 lnprior0 lnlike0 lnq0 m (pv : mat) :
  heap2 m !! p0 = Some pv ->
  let l := (prepared p0 lnprior0 lnlike0 lnq0 m).1 in
  let m' := (prepared p0 lnprior0 lnlike0 lnq0 m).2 in
  (lnprior0 = None -> heap1 m' !! lnprior l = Some (_get_lnprior (self m) pv)) /\
  (lnlike0 = None -> heap1 m' !! lnlike l = Some (_get_lnlike (self m) pv)) /\
  (lnq0 = None -> exists k, _kde (self m') = Some k /\
                            heap1 m' !! lnq l = Some (kde_call k pv)).
Proof.
  intros Hp l m'. subst l m'.
  split; [|split].
  - intros ->. unfold prepared.
    rewrite (list_lookup_total_correct _ _ _ Hp).
    destruct lnlike0, lnq0, (_kde (self m)); cbn;
      repeat first [ apply list_lookup_middle; reflexivity
                   | rewrite lookup_app_l by (rewrite ?length_app; cbn; lia) ].
  - intros ->. unfold prepared.
    rewrite (list_lookup_total_correct _ _ _ Hp).
    destruct lnprior0, lnq0, (_kde (self m)); cbn;
      repeat first [ apply list_lookup_middle; reflexivity
                   | rewrite lookup_app_l by (rewrite ?length_app; cbn; lia) ].
  - intros ->. apply prepared_lnq. exact Hp.
Qed.

Lemma prepared_gen p0 lnprior0 lnlike0 lnq0 m k :
  _kde (self m) = Some k ->
  _kde (self (prepared p0 lnprior0 lnlike0 lnq0 m).2) = Some k /\
  gen (prepared p0 lnprior0 lnlike0 lnq0 m).2 = gen m.
Proof.
  intros Hk. unfold prepared. rewrite Hk.
  destruct lnprior0, lnlike0, lnq0; cbn; split; try exact Hk; reflexivity.
Qed.

(** X1.  A call with [iterations = 0] runs lines 95-122 and no step: it
    returns what lines 95-112 made, whatever [update_interval] is (zero
    included, line 161 being inside the loop).  The counter and the four
    histories are as they were; [p] is a new array with the points of
    [p0]; an array not supplied holds the evaluator's values, or the
    proposal's density, at these points; the only proposal fitted is the
    first one, when the sampler had none, and with a proposal in place the
    random source is not used. *)
Theorem sample_without_iterations p0 lnprior0 lnlike0 lnq0 ui m (pv : mat) :
  heap2 m !! p0 = Some pv ->
  exists (l' : locals) (m' : machine),
    sample p0 lnprior0 lnlike0 lnq0 0 ui m = (Ok l', m') /\
    prologue p0 lnprior0 lnlike0 lnq0 m = (Ok l', m') /\
    iterations (self m') = iterations (self m) /\
    _chain (self m') = _chain (self m) /\
    _lnpost (self m') = _lnpost (self m) /\
    _lnprop (self m') = _lnprop (self m) /\
    accepted (self m') = accepted (self m) /\
    heap2 m' = heap2 m ++ [pv] /\ p l' = length (heap2 m) /\
    (lnprior0 = None ->
       heap1 m' !! lnprior l' = Some (_get_lnprior (self m) pv)) /\
    (lnlike0 = None ->
       heap1 m' !! lnlike l' = Some (_get_lnlike (self m) pv)) /\
    (lnq0 = None -> exists k, _kde (self m') = Some k /\
                              heap1 m' !! lnq l' = Some (kde_call k pv)) /\
    fit_counts m' =
      fit_counts m ++
      match _kde (self m) with
      | None => [iterations (self m)]
      | Some _ => []
      end /\
    (forall k, _kde (self m) = Some k ->
               _kde (self m') = Some k /\ gen m' = gen m).
Proof.
  intros Hp.
  exists (prepared p0 lnprior0 lnlike0 lnq0 m).1,
         (prepared p0 lnprior0 lnlike0 lnq0 m).2.
  destruct (prepared_self p0 lnprior0 lnlike0 lnq0 m)
    as (_ & _ & _ & _ & Eit & E1 & E2 & E3 & E4 & _).
  destruct (prepared_heap2 p0 lnprior0 lnlike0 lnq0 m) as [Eh2 Ep].
  destruct (prepared_computed p0 lnprior0 lnlike0 lnq0 m pv Hp) as (Ca & Cb & Cq).
  split.
  { rewrite (sample_unfold _ _ _ _ _ _ _ pv Hp) by lia.
    rewrite grown_zero, set_self_self. reflexivity. }
  split; [apply prologue_ok with pv; exact Hp|].
  split; [exact Eit|]. split; [exact E1|]. split; [exact E2|].
  split; [exact E3|]. split; [exact E4|].
  split; [rewrite Eh2, (list_lookup_total_correct _ _ _ Hp); reflexivity|].
  split; [exact Ep|].
  split; [exact Ca|]. split; [exact Cb|]. split; [exact Cq|].
  split; [apply prepared_fits|].
  intros k Hk. apply prepared_gen. exact Hk.
Qed.

(** X2.  A call with a negative [iterations] fails with the [ValueError]
    of [np.zeros] at line 116, before any history is touched: the counter
    and the histories are as they were.  Lines 95-112 have run by then:
    the copy of [p0] is made, the arrays not supplied are allocated, and
    a sampler that had no proposal has one, fitted to the points of
    [p0]. *)
Theorem negative_iterations_raise p0 lnprior0 lnlike0 lnq0 iters ui m (pv : mat) :
  heap2 m !! p0 = Some pv -> iters < 0 ->
  exists (l1 : locals) (m' : machine),
    prologue p0 lnprior0 lnlike0 lnq0 m = (Ok l1, m') /\
    grow iters m' = (Raise ValueError, m') /\
    sample p0 lnprior0 lnlike0 lnq0 iters ui m = (Raise ValueError, m') /\
    iterations (self m') = iterations (self m) /\
    _chain (self m') = _chain (self m) /\
    _lnpost (self m') = _lnpost (self m) /\
    _lnprop (self m') = _lnprop (self m) /\
    accepted (self m') = accepted (self m) /\
    is_Some (_kde (self m')) /\
    fit_counts m' =
      fit_counts m ++
      match _kde (self m) with
      | None => [iterations (self m)]
      | Some _ => []
      end /\
    heap2 m' = heap2 m ++ [pv] /\
    exists ext, heap1 m' = heap1 m ++ ext.
Proof.
  intros Hp Hneg.
  exists (prepared p0 lnprior0 lnlike0 lnq0 m).1,
         (prepared p0 lnprior0 lnlike0 lnq0 m).2.
  destruct (prepared_self p0 lnprior0 lnlike0 lnq0 m)
    as (_ & _ & _ & _ & Eit & E1 & E2 & E3 & E4 & Ek).
  destruct (prepared_heap2 p0 lnprior0 lnlike0 lnq0 m) as [Eh2 Ep].
  pose proof (prologue_ok p0 lnprior0 lnlike0 lnq0 m pv Hp) as Epro.
  pose proof (grow_negative iters (prepared p0 lnprior0 lnlike0 lnq0 m).2 Hneg)
    as Egrow.
  split; [exact Epro|]. split; [exact Egrow|].
  split.
  { unfold sample. rewrite (bind_ok _ _ _ _ _ Epro).
    apply bind_raise. exact Egrow. }
  split; [exact Eit|]. split; [exact E1|]. split; [exact E2|].
  split; [exact E3|]. split; [exact E4|].
  split; [rewrite Ek; eexists; reflexivity|].
  split; [apply prepared_fits|].
  split; [rewrite Eh2, (list_lookup_total_correct _ _ _ Hp); reflexivity|].
  apply prepared_heap1.
Qed.

(** The machine on which the loop of a call starts is ready for a step
    when the call asks for one. *)
Lemma entered_ready p0 lnprior0 lnlike0 lnq0 iters m :
  callable p0 lnprior0 lnlike0 lnq0 m -> 1 <= iters ->
  ready (prepared p0 lnprior0 lnlike0 lnq0 m).1
    (set_self (grown iters (self (prepared p0 lnprior0 lnlike0 lnq0 m).2))
       (prepared p0 lnprior0 lnlike0 lnq0 m).2).
Proof.
  intros Hc Hk.
  destruct (callable_history _ _ _ _ _ Hc) as (hl & Hh & Hit).
  destruct (prepared_self p0 lnprior0 lnlike0 lnq0 m)
    as (_ & _ & _ & _ & Eit & E1 & E2 & E3 & E4 & _).
  split.
  - apply shaped_grown, shaped_prepared. exact Hc.
  - exists (hl + Z.to_nat iters)%nat. cbn [self set_self]. split.
    + apply history_lengths_grown.
      destruct Hh as (L1 & L2 & L3 & L4). unfold history_lengths.
      rewrite E1, E2, E3, E4. repeat split; assumption.
    + destruct (grown_histories p0 lnprior0 lnlike0 lnq0 iters m)
        as (_ & _ & _ & _ & Git & _).
      rewrite Git, Hit. lia.
Qed.

(** X3.  A call with [update_interval = 0] and at least one step fails
    with the [ZeroDivisionError] of line 161 in its first step, and only
    there: by then the step has updated the ensemble, written its row into
    the histories and incremented the counter.  The sampler is left with
    the counter larger by one and histories longer by [iterations] rows. *)
Theorem zero_update_interval_raises p0 lnprior0 lnlike0 lnq0 iters m (hl : nat) :
  callable p0 lnprior0 lnlike0 lnq0 m -> history_lengths (self m) hl ->
  1 <= iters ->
  exists (l1 : locals) (m1 : machine) (acc : list bool) (m' : machine),
    enter p0 lnprior0 lnlike0 lnq0 iters m = (Ok l1, m1) /\
    advance l1 m1 = (Ok acc, m') /\
    refresh 0 l1 m' = (Raise ZeroDivisionError, m') /\
    sample p0 lnprior0 lnlike0 lnq0 iters 0 m = (Raise ZeroDivisionError, m') /\
    iterations (self m') = iterations (self m) + 1 /\
    history_lengths (self m') (hl + Z.to_nat iters) /\
    accepted (self m') !! hl = Some (map of_bool acc) /\
    fit_counts m' =
      fit_counts m ++
      match _kde (self m) with
      | None => [iterations (self m)]
      | Some _ => []
      end.
Proof.
  intros Hc Hh Hk.
  destruct (callable_p0 _ _ _ _ _ Hc) as (pv & Hp & _).
  destruct (callable_history _ _ _ _ _ Hc) as (hl' & Hh' & Hit).
  assert (hl' = hl) as ->.
  { destruct Hh as (L & _), Hh' as (L' & _). congruence. }
  pose proof (entered_ready p0 lnprior0 lnlike0 lnq0 iters m Hc Hk) as Hr.
  destruct (grown_histories p0 lnprior0 lnlike0 lnq0 iters m)
    as (G1 & G2 & G3 & G4 & Git & _).
  set (l1 := (prepared p0 lnprior0 lnlike0 lnq0 m).1) in *.
  set (m1 := (prepared p0 lnprior0 lnlike0 lnq0 m).2) in *.
  set (m2 := set_self (grown iters (self m1)) m1) in *.
  change (grown iters (self m1)) with (self m2) in G1, G2, G3, G4, Git.
  destruct (shaped_kde _ _ (proj1 Hr)) as (k & Hk2 & _).
  pose proof (advance_ok l1 m2 k Hr Hk2) as Ea.
  exists l1, m2, (mask_at l1 m2 k), (advanced l1 m2 k).
  split; [apply prepare_and_grow_ok with pv; [exact Hp|lia]|].
  split; [exact Ea|]. split; [apply refresh_zero|].
  split.
  { rewrite (sample_unfold _ _ _ _ _ _ _ pv Hp) by lia.
    fold l1 m1 m2.
    destruct (Z.to_nat iters) as [|n] eqn:En; [lia|].
    cbn [loop]. apply bind_raise. unfold step.
    rewrite (bind_ok _ _ _ _ _ Ea). apply refresh_zero. }
  split.
  { change (iterations (self (advanced l1 m2 k))) with (iterations (self m2) + 1).
    rewrite Git. reflexivity. }
  split.
  { apply history_lengths_advanced.
    destruct Hh as (L1 & L2 & L3 & L4). unfold history_lengths.
    rewrite G1, G2, G3, G4, !length_app, !length_replicate. lia. }
  split.
  { replace hl with (Z.to_nat (iterations (self m2))) by (rewrite Git, Hit; lia).
    apply ready_slot. exact Hr. }
  change (fit_counts (advanced l1 m2 k)) with (fit_counts m1).
  apply prepared_fits.
Qed.

End Edges.

(** ** Infinite operands of the ratio *)

Lemma is_finite_spec (x : float) :
  PrimFloat.is_finite x = true ->
  match Prim2SF x with
  | S754_zero _ | S754_finite _ _ _ => True
  | _ => False
  end.
Proof.
  unfold PrimFloat.is_finite, PrimFloat.is_nan, PrimFloat.is_infinity.
  rewrite !FloatAxioms.eqb_spec, abs_spec.
  destruct (Prim2SF x) as [s|s| |s mx ex]; try exact (fun _ => I).
  - destruct s; vm_compute; discriminate.
  - vm_compute; discriminate.
Qed.

Lemma add_infinity_l (x y : float) (s : bool) :
  Prim2SF x = S754_infinity s -> PrimFloat.is_finite y = true ->
  Prim2SF (x + y) = S754_infinity s.
Proof.
  intros Ex Fy. apply is_finite_spec in Fy.
  rewrite add_spec, Ex. unfold SF64add, SFadd.
  destruct (Prim2SF y); try contradiction; reflexivity.
Qed.

Lemma sub_infinity_l (x y : float) (s : bool) :
  Prim2SF x = S754_infinity s -> PrimFloat.is_finite y = true ->
  Prim2SF (x - y) = S754_infinity s.
Proof.
  intros Ex Fy. apply is_finite_spec in Fy.
  rewrite sub_spec, Ex. unfold SF64sub, SFsub.
  destruct (Prim2SF y); try contradiction; reflexivity.
Qed.

Lemma sub_infinity_r (x y : float) (s : bool) :
  PrimFloat.is_finite x = true -> Prim2SF y = S754_infinity s ->
  Prim2SF (x - y) = S754_infinity (negb s).
Proof.
  intros Fx Ey. apply is_finite_spec in Fx.
  rewrite sub_spec, Ey. unfold SF64sub, SFsub.
  destruct (Prim2SF x); try contradiction; reflexivity.
Qed.

(** The ratio of a walker whose candidate has the log prior [-inf], and of
    a walker that has the log prior [-inf] itself. *)
Lemma ratio_neg_infinity (x2 x3 x4 x5 x6 : float) :
  PrimFloat.is_finite x2 = true -> PrimFloat.is_finite x3 = true ->
  PrimFloat.is_finite x4 = true -> PrimFloat.is_finite x5 = true ->
  PrimFloat.is_finite x6 = true ->
  (neg_infinity + x2 - x3 - x4 + x5 - x6)%float = neg_infinity.
Proof.
  intros F2 F3 F4 F5 F6. apply Prim2SF_inj.
  change (Prim2SF neg_infinity) with (S754_infinity true).
  apply sub_infinity_l; [|exact F6].
  apply add_infinity_l; [|exact F5].
  apply sub_infinity_l; [|exact F4].
  apply sub_infinity_l; [|exact F3].
  apply add_infinity_l; [reflexivity|exact F2].
Qed.

Lemma ratio_infinity (x1 x2 x4 x5 x6 : float) :
  PrimFloat.is_finite (x1 + x2) = true ->
  PrimFloat.is_finite x4 = true -> PrimFloat.is_finite x5 = true ->
  PrimFloat.is_finite x6 = true ->
  (x1 + x2 - neg_infinity - x4 + x5 - x6)%float = infinity.
Proof.
  intros F12 F4 F5 F6. apply Prim2SF_inj.
  change (Prim2SF infinity) with (S754_infinity false).
  apply sub_infinity_l; [|exact F6].
  apply add_infinity_l; [|exact F5].
  apply sub_infinity_l; [|exact F4].
  apply (sub_infinity_r _ neg_infinity true); [exact F12|reflexivity].
Qed.

Lemma ltb_neg_infinity (y : float) : PrimFloat.ltb y neg_infinity = false.
Proof.
  rewrite FloatAxioms.ltb_spec.
  change (Prim2SF neg_infinity) with (S754_infinity true).
  destruct (Prim2SF y) as [s|s| |s mx ex]; try reflexivity.
  destruct s; reflexivity.
Qed.

(** * More about one step *)

Section StepRows.

Context `{ES : ExternalsShapes}.

Implicit Types (m : machine) (l : locals) (s : Sampler) (k : kde).

(** The mask entry of a walker, from its ratio. *)
Lemma mask_at_lookup l m k j x :
  ratio_at l m k !! j = Some x ->
  mask_at l m k !! j =
    if PrimFloat.ltb 0 x then Some true
    else y ← variates (ratio_at l m k) (gen_after_draw m k)
               !! count (take j (worse_of (ratio_at l m k)));
         Some (PrimFloat.ltb (log y) x).
Proof.
  intros Hx. unfold mask_at.
  apply verdicts_lookup; [apply random_rand_shape|exact Hx].
Qed.

Lemma mask_at_positive l m k j x :
  ratio_at l m k !! j = Some x -> PrimFloat.ltb 0 x = true ->
  mask_at l m k !! j = Some true.
Proof.
  intros Hx Hpos. rewrite (mask_at_lookup l m k j x Hx), Hpos. reflexivity.
Qed.

Lemma mask_at_below_all l m k j x :
  ratio_at l m k !! j = Some x -> (forall y, PrimFloat.ltb y x = false) ->
  mask_at l m k !! j = Some false.
Proof.
  intros Hx Hlow. rewrite (mask_at_lookup l m k j x Hx), (Hlow 0%float).
  pose proof (worse_of_lookup _ j x Hx) as Hw. rewrite (Hlow 0%float) in Hw.
  destruct (lookup_lt_is_Some_2 (variates (ratio_at l m k) (gen_after_draw m k))
              (count (take j (worse_of (ratio_at l m k))))) as [y Hy].
  { unfold variates. rewrite random_rand_shape. apply count_take_lt. exact Hw. }
  rewrite Hy. simpl. rewrite Hlow. reflexivity.
Qed.

(** The sampler that a step leaves has the histories and the counter that
    lines 153-158 left: lines 161-163 change the proposal only. *)
Lemma step_histories ui l m k :
  ready l m -> _kde (self m) = Some k -> ui <> 0 ->
  exists l' m',
    step ui l m = (Ok l', m') /\
    p l' = p l /\ lnprior l' = lnprior l /\ lnlike l' = lnlike l /\
    heap2 m' = heap2 (advanced l m k) /\
    (forall x, (x < length (heap1 (advanced l m k)))%nat ->
               heap1 m' !! x = heap1 (advanced l m k) !! x) /\
    _chain (self m') = _chain (self (advanced l m k)) /\
    _lnpost (self m') = _lnpost (self (advanced l m k)) /\
    _lnprop (self m') = _lnprop (self (advanced l m k)) /\
    accepted (self m') = accepted (self (advanced l m k)) /\
    iterations (self m') = iterations (self m) + 1 /\
    (due ui (advanced l m k) = false -> l' = l /\ m' = advanced l m k).
Proof.
  intros Hr Hk Hui. rewrite (step_ok ui l m k Hr Hk Hui).
  destruct (due ui (advanced l m k)) eqn:Ed.
  - eexists _, _. split; [reflexivity|].
    repeat split; try discriminate.
    intros x Hx. unfold rebuilt. cbn [heap1 set_heap1].
    apply lookup_app_l. exact Hx.
  - eexists _, _. split; [reflexivity|].
    repeat split; discriminate.
Qed.

(** The row that lines 153-156 write: the arrays as lines 146-150 left
    them. *)
Lemma advanced_rows l m k :
  ready l m -> _kde (self m) = Some k ->
  exists (pv : mat) (a b q : vec),
    heap2 (advanced l m k) !! p l = Some pv /\
    heap1 (advanced l m k) !! lnprior l = Some a /\
    heap1 (advanced l m k) !! lnlike l = Some b /\
    heap1 (advanced l m k) !! lnq l = Some q /\
    length a = nwalkers (self m) /\ length b = nwalkers (self m) /\
    _chain (self (advanced l m k)) !! Z.to_nat (iterations (self m)) = Some pv /\
    _lnpost (self (advanced l m k)) !! Z.to_nat (iterations (self m))
      = Some (zip_with PrimFloat.add a b) /\
    _lnprop (self (advanced l m k)) !! Z.to_nat (iterations (self m)) = Some q /\
    accepted (self (advanced l m k)) !! Z.to_nat (iterations (self m))
      = Some (map of_bool (mask_at l m k)).
Proof.
  intros Hr Hk.
  pose proof (shaped_advanced l m k Hr Hk)
    as [_ _ (pv & Hp & _) (a & Ha & La) (b & Hb & Lb) (q & Hq & _)].
  destruct Hr as [_ (hl & (L1 & L2 & L3 & L4) & Hit)].
  exists pv, a, b, q.
  split; [exact Hp|]. split; [exact Ha|]. split; [exact Hb|]. split; [exact Hq|].
  split; [exact La|]. split; [exact Lb|].
  unfold advanced in *. cbn [self heap1 heap2 set_self set_heap1 set_heap2 set_gen] in *.
  rewrite (list_lookup_total_correct _ _ _ Hp), (list_lookup_total_correct _ _ _ Ha),
    (list_lookup_total_correct _ _ _ Hb), (list_lookup_total_correct _ _ _ Hq).
  unfold recorded.
  cbn [_chain _lnpost _lnprop accepted set_iterations set_accepted set_lnprop
       set_lnpost set_chain].
  repeat split; apply list_lookup_insert_eq; lia.
Qed.

(** X4.  The row a step writes at the slot of the counter is the ensemble
    as lines 146-150 left it: [_chain] gets the positions, [_lnpost] the
    sum of the log prior and the log likelihood of each walker, [_lnprop]
    the log proposal density, [accepted] the mask as zeros and ones.  The
    positions, log priors and log likelihoods are those the step leaves;
    the row of [_lnprop] is the [lnq] the step leaves only when the
    proposal is not rebuilt: a rebuild comes after the row is written. *)
Theorem step_snapshot ui l m k :
  ready l m -> _kde (self m) = Some k -> ui <> 0 ->
  exists (acc : list bool) (m1 : machine) (l' : locals) (m' : machine)
         (pv : mat) (a b q : vec),
    advance l m = (Ok acc, m1) /\ step ui l m = (Ok l', m') /\
    heap2 m1 !! p l = Some pv /\ heap1 m1 !! lnprior l = Some a /\
    heap1 m1 !! lnlike l = Some b /\ heap1 m1 !! lnq l = Some q /\
    _chain (self m') !! Z.to_nat (iterations (self m)) = Some pv /\
    _lnpost (self m') !! Z.to_nat (iterations (self m))
      = Some (zip_with PrimFloat.add a b) /\
    _lnprop (self m') !! Z.to_nat (iterations (self m)) = Some q /\
    accepted (self m') !! Z.to_nat (iterations (self m)) = Some (map of_bool acc) /\
    heap2 m' !! p l' = Some pv /\
    heap1 m' !! lnprior l' = Some a /\ heap1 m' !! lnlike l' = Some b /\
    (due ui m1 = false -> heap1 m' !! lnq l' = Some q).
Proof.
  intros Hr Hk Hui.
  destruct (advanced_rows l m k Hr Hk)
    as (pv & a & b & q & Hp & Ha & Hb & Hq & _ & _ & R1 & R2 & R3 & R4).
  destruct (step_histories ui l m k Hr Hk Hui)
    as (l' & m' & Es & Ep & Ea & Eb & Eh2 & Eh1 & E1 & E2 & E3 & E4 & _ & Hnot).
  exists (mask_at l m k), (advanced l m k), l', m', pv, a, b, q.
  split; [apply advance_ok; assumption|]. split; [exact Es|].
  split; [exact Hp|]. split; [exact Ha|]. split; [exact Hb|]. split; [exact Hq|].
  split; [rewrite E1; exact R1|]. split; [rewrite E2; exact R2|].
  split; [rewrite E3; exact R3|]. split; [rewrite E4; exact R4|].
  split; [rewrite Ep, Eh2; exact Hp|].
  split; [rewrite Ea, Eh1; [exact Ha|eapply lookup_lt_Some; exact Ha]|].
  split; [rewrite Eb, Eh1; [exact Hb|eapply lookup_lt_Some; exact Hb]|].
  intros Ed. destruct (Hnot Ed) as [-> ->]. exact Hq.
Qed.

(** What a step leaves of a walker, by its mask entry. *)
Lemma step_walker ui l m k j :
  ready l m -> _kde (self m) = Some k -> ui <> 0 ->
  exists l' m',
    step ui l m = (Ok l', m') /\
    accepted (self m') !! Z.to_nat (iterations (self m))
      = Some (map of_bool (mask_at l m k)) /\
    (mask_at l m k !! j = Some false ->
       entry2 m' (p l') j = entry2 m (p l) j /\
       entry1 m' (lnprior l') j = entry1 m (lnprior l) j /\
       entry1 m' (lnlike l') j = entry1 m (lnlike l) j) /\
    (mask_at l m k !! j = Some true ->
       entry2 m' (p l') j = p_p (candidates_at m k) !! j /\
       (NoDup [lnprior l; lnlike l; lnq l] ->
          entry1 m' (lnprior l') j = lnprior_p (candidates_at m k) !! j /\
          entry1 m' (lnlike l') j = lnlike_p (candidates_at m k) !! j)).
Proof.
  intros Hr Hk Hui.
  pose proof Hr as [[_ _ _ (a & Ha & _) (b & Hb & _) _] _].
  destruct (step_histories ui l m k Hr Hk Hui)
    as (l' & m' & Es & Ep & Ea & Eb & Eh2 & Eh1 & _ & _ & _ & E4 & _ & _).
  exists l', m'. split; [exact Es|].
  split; [rewrite E4; apply ready_slot; exact Hr|].
  assert (forall x, entry1 m' (lnprior l') x = entry1 (advanced l m k) (lnprior l) x)
    as Fa.
  { intros x. rewrite Ea. apply entry1_frame, Eh1. eapply valid1. exact Ha. }
  assert (forall x, entry1 m' (lnlike l') x = entry1 (advanced l m k) (lnlike l) x)
    as Fb.
  { intros x. rewrite Eb. apply entry1_frame, Eh1. eapply valid1. exact Hb. }
  assert (forall x, entry2 m' (p l') x = entry2 (advanced l m k) (p l) x) as Fp.
  { intros x. rewrite Ep. unfold entry2. rewrite Eh2. reflexivity. }
  split.
  - intros Hj. rewrite Fp, Fa, Fb.
    split; [apply entry2_advanced_stays; exact Hj|].
    split; apply entry1_advanced_stays; exact Hj.
  - intros Hj. rewrite Fp, Fa, Fb.
    split; [apply entry2_advanced_takes; assumption|].
    intros Hnd.
    destruct (entry1_advanced_takes l m k j Hr Hk Hnd Hj) as (T1 & T2 & _).
    split; assumption.
Qed.

(** X5.  A walker whose ratio is above zero is accepted whatever the
    random source gives: no variate is drawn for it, its flag in the
    history is one, and after the step its position is the candidate's,
    as are, the three arrays of scalars being three arrays, its log prior
    and log likelihood. *)
Theorem positive_ratio_moves_walker ui l m k (a b q r : vec) (j : nat) (x : float) :
  ready l m -> _kde (self m) = Some k ->
  heap1 m !! lnprior l = Some a -> heap1 m !! lnlike l = Some b ->
  heap1 m !! lnq l = Some q ->
  ui <> 0 ->
  ln_mh_ratio_of (lnprior_p (candidates_at m k)) (lnlike_p (candidates_at m k))
    a b q (lnq_p (candidates_at m k)) = Ok r ->
  r !! j = Some x -> PrimFloat.ltb 0 x = true ->
  exists (acc : list bool) (m1 : machine) (l' : locals) (m' : machine)
         (flags : vec),
    advance l m = (Ok acc, m1) /\ step ui l m = (Ok l', m') /\
    worse_of r !! j = Some false /\
    acc !! j = Some true /\
    accepted (self m') !! Z.to_nat (iterations (self m)) = Some flags /\
    flags !! j = Some 1%float /\
    entry2 m' (p l') j = p_p (candidates_at m k) !! j /\
    (NoDup [lnprior l; lnlike l; lnq l] ->
       entry1 m' (lnprior l') j = lnprior_p (candidates_at m k) !! j /\
       entry1 m' (lnlike l') j = lnlike_p (candidates_at m k) !! j).
Proof.
  intros Hr Hk Ha Hb Hq Hui Er Hx Hpos.
  destruct (ready_ratio l m k a b q r Hr Hk Ha Hb Hq Er) as [-> Lr].
  pose proof (mask_at_positive l m k j x Hx Hpos) as Hacc.
  destruct (step_walker ui l m k j Hr Hk Hui) as (l' & m' & Es & Ef & _ & Ht).
  destruct (Ht Hacc) as [Tp Ts].
  exists (mask_at l m k), (advanced l m k), l', m', (map of_bool (mask_at l m k)).
  split; [apply advance_ok; assumption|]. split; [exact Es|].
  split; [rewrite (worse_of_lookup _ j x Hx), Hpos; reflexivity|].
  split; [exact Hacc|]. split; [exact Ef|].
  split; [rewrite list_lookup_fmap, Hacc; reflexivity|].
  split; [exact Tp|exact Ts].
Qed.

(** X6.  A candidate outside the support of the prior is never accepted:
    when the candidate of walker [j] has the log prior [-inf] and the five
    other numbers of line 135 are finite, the ratio of the walker is
    [-inf], which is above the logarithm of no variate; the walker is
    rejected and keeps its position, its log prior and its log
    likelihood. *)
Theorem candidate_outside_support_rejected ui l m k (a b q : vec) (j : nat)
    (x2 x3 x4 x5 x6 : float) :
  ready l m -> _kde (self m) = Some k ->
  heap1 m !! lnprior l = Some a -> heap1 m !! lnlike l = Some b ->
  heap1 m !! lnq l = Some q ->
  ui <> 0 ->
  lnprior_p (candidates_at m k) !! j = Some neg_infinity ->
  lnlike_p (candidates_at m k) !! j = Some x2 ->
  a !! j = Some x3 -> b !! j = Some x4 -> q !! j = Some x5 ->
  lnq_p (candidates_at m k) !! j = Some x6 ->
  PrimFloat.is_finite x2 = true -> PrimFloat.is_finite x3 = true ->
  PrimFloat.is_finite x4 = true -> PrimFloat.is_finite x5 = true ->
  PrimFloat.is_finite x6 = true ->
  exists (r : vec) (acc : list bool) (m1 : machine) (l' : locals) (m' : machine),
    ln_mh_ratio_of (lnprior_p (candidates_at m k)) (lnlike_p (candidates_at m k))
      a b q (lnq_p (candidates_at m k)) = Ok r /\
    r !! j = Some neg_infinity /\
    (forall y, PrimFloat.ltb (log y) neg_infinity = false) /\
    advance l m = (Ok acc, m1) /\ step ui l m = (Ok l', m') /\
    acc !! j = Some false /\
    entry2 m' (p l') j = entry2 m (p l) j /\
    entry1 m' (lnprior l') j = Some x3 /\
    entry1 m' (lnlike l') j = Some x4.
Proof.
  intros Hr Hk Ha Hb Hq Hui H1 H2 H3 H4 H5 H6 F2 F3 F4 F5 F6.
  destruct (ready_lengths l m a b q Hr Ha Hb Hq) as (La & Lb & Lq).
  pose proof Hr as [[Hc (k0 & Hk0 & Hd) _ _ _ _] _].
  assert (k0 = k) as -> by congruence.
  destruct (ratio_at_ok l m k a b q Hc Hd Ha La Hb Lb Hq Lq) as [Er Lr].
  destruct (candidates_shapes m k Hc Hd) as (_ & C1 & C2 & C3).
  pose proof (ln_mh_ratio_lookup _ _ _ _ _ _ _ (nwalkers (self m)) j
                _ _ _ _ _ _ C1 C2 La Lb Lq C3 Er H1 H2 H3 H4 H5 H6) as Hx.
  rewrite (ratio_neg_infinity x2 x3 x4 x5 x6 F2 F3 F4 F5 F6) in Hx.
  pose proof (mask_at_below_all l m k j neg_infinity Hx ltb_neg_infinity) as Hacc.
  destruct (step_walker ui l m k j Hr Hk Hui) as (l' & m' & Es & _ & Hs & _).
  destruct (Hs Hacc) as (Sp & Sa & Sb).
  exists (ratio_at l m k), (mask_at l m k), (advanced l m k), l', m'.
  split; [exact Er|]. split; [exact Hx|].
  split; [intros y; apply ltb_neg_infinity|].
  split; [apply advance_ok; assumption|]. split; [exact Es|].
  split; [exact Hacc|]. split; [exact Sp|].
  split.
  - rewrite Sa. unfold entry1. rewrite Ha. exact H3.
  - rewrite Sb. unfold entry1. rewrite Hb. exact H4.
Qed.

(** X7.  A walker outside the support of the prior takes any candidate
    inside it: when walker [j] has the log prior [-inf], the sum of the
    candidate's log prior and log likelihood is finite and the three
    other numbers of line 135 are finite, the ratio of the walker is
    [+inf], the walker is accepted without a variate and its position
    after the step is the candidate's. *)
Theorem walker_outside_support_moves ui l m k (a b q : vec) (j : nat)
    (x1 x2 x4 x5 x6 : float) :
  ready l m -> _kde (self m) = Some k ->
  heap1 m !! lnprior l = Some a -> heap1 m !! lnlike l = Some b ->
  heap1 m !! lnq l = Some q ->
  ui <> 0 ->
  lnprior_p (candidates_at m k) !! j = Some x1 ->
  lnlike_p (candidates_at m k) !! j = Some x2 ->
  a !! j = Some neg_infinity -> b !! j = Some x4 -> q !! j = Some x5 ->
  lnq_p (candidates_at m k) !! j = Some x6 ->
  PrimFloat.is_finite (x1 + x2) = true ->
  PrimFloat.is_finite x4 = true -> PrimFloat.is_finite x5 = true ->
  PrimFloat.is_finite x6 = true ->
  exists (r : vec) (acc : list bool) (m1 : machine) (l' : locals) (m' : machine),
    ln_mh_ratio_of (lnprior_p (candidates_at m k)) (lnlike_p (candidates_at m k))
      a b q (lnq_p (candidates_at m k)) = Ok r /\
    r !! j = Some infinity /\
    worse_of r !! j = Some false /\
    advance l m = (Ok acc, m1) /\ step ui l m = (Ok l', m') /\
    acc !! j = Some true /\
    entry2 m' (p l') j = p_p (candidates_at m k) !! j.
Proof.
  intros Hr Hk Ha Hb Hq Hui H1 H2 H3 H4 H5 H6 F12 F4 F5 F6.
  destruct (ready_lengths l m a b q Hr Ha Hb Hq) as (La & Lb & Lq).
  pose proof Hr as [[Hc (k0 & Hk0 & Hd) _ _ _ _] _].
  assert (k0 = k) as -> by congruence.
  destruct (ratio_at_ok l m k a b q Hc Hd Ha La Hb Lb Hq Lq) as [Er Lr].
  destruct (candidates_shapes m k Hc Hd) as (_ & C1 & C2 & C3).
  pose proof (ln_mh_ratio_lookup _ _ _ _ _ _ _ (nwalkers (self m)) j
                _ _ _ _ _ _ C1 C2 La Lb Lq C3 Er H1 H2 H3 H4 H5 H6) as Hx.
  rewrite (ratio_infinity x1 x2 x4 x5 x6 F12 F4 F5 F6) in Hx.
  assert (PrimFloat.ltb 0 infinity = true) as Hpos by reflexivity.
  pose proof (mask_at_positive l m k j infinity Hx Hpos) as Hacc.
  destruct (step_walker ui l m k j Hr Hk Hui) as (l' & m' & Es & _ & _ & Ht).
  destruct (Ht Hacc) as [Tp _].
  exists (ratio_at l m k), (mask_at l m k), (advanced l m k), l', m'.
  split; [exact Er|]. split; [exact Hx|].
  split; [rewrite (worse_of_lookup _ j infinity Hx); reflexivity|].
  split; [apply advance_ok; assumption|]. split; [exact Es|].
  split; [exact Hacc|exact Tp].
Qed.

End StepRows.

(** * More about a call *)

Section CallRows.

Context `{ES : ExternalsShapes}.

Implicit Types (m : machine) (l : locals) (s : Sampler) (k : kde).

(** The loop, by its last step. *)
Lemma loop_snoc ui n : forall l m,
  loop (S n) ui l m = bind (loop n ui l) (step ui) m.
Proof.
  induction n as [|n IH]; intros l m.
  - cbn [loop]. unfold bind, ret.
    destruct (step ui l m) as [[l1|e] m1]; reflexivity.
  - change (loop (S (S n)) ui l m)
      with (bind (step ui l) (fun l1 => loop (S n) ui l1) m).
    change (loop (S n) ui l)
      with (bind (step ui l) (fun l1 => loop n ui l1)).
    unfold bind.
    destruct (step ui l m) as [[l1|e] m1]; [|reflexivity].
    rewrite IH. reflexivity.
Qed.

(** Lines 146-150 write to the arrays at the four addresses only. *)
Lemma advanced_other1 l m k x :
  x <> lnprior l -> x <> lnlike l -> x <> lnq l ->
  heap1 (advanced l m k) !! x = heap1 m !! x.
Proof.
  intros Na Nb Nq. unfold advanced. cbn [heap1 set_self set_heap1].
  unfold updated1. rewrite !copy_into_lookup.
  rewrite !decide_False by assumption. reflexivity.
Qed.

(** The steps of a call leave alone every array of scalars that is not
    one of the three the loop started with. *)
Lemma loop_frame1 ui n : forall l m hl x,
  shaped l m -> history_lengths (self m) hl ->
  0 <= iterations (self m) -> iterations (self m) + Z.of_nat n <= Z.of_nat hl ->
  ui <> 0 ->
  (x < length (heap1 m))%nat ->
  x <> lnprior l -> x <> lnlike l -> x <> lnq l ->
  exists l' m', loop n ui l m = (Ok l', m') /\ heap1 m' !! x = heap1 m !! x.
Proof.
  induction n as [|n IH]; intros l m hl x Hs Hh H0 Hn Hui Hx Na Nb Nq.
  - exists l, m. split; reflexivity.
  - assert (ready l m) as Hr.
    { split; [exact Hs|]. exists hl. split; [exact Hh|]. lia. }
    destruct (shaped_kde _ _ Hs) as (k & Hk & _).
    destruct (step_ran ui l m Hr Hui) as (l1 & m1 & Es & R).
    destruct (step_histories ui l m k Hr Hk Hui)
      as (l1' & m1' & Es' & _ & _ & _ & _ & Eh1 & _).
    rewrite Es in Es'. injection Es' as <- <-.
    destruct (ran_locals _ _ _ _ _ _ R) as (_ & La & Lb).
    pose proof (ran_heap1 _ _ _ _ _ _ R) as Hlen.
    assert (heap1 m1 !! x = heap1 m !! x) as E1.
    { rewrite Eh1.
      - apply advanced_other1; assumption.
      - cbn [advanced heap1 set_self set_heap1]. rewrite length_updated1. exact Hx. }
    destruct (IH l1 m1 hl x) as (l' & m' & El & E).
    + exact (ran_shaped _ _ _ _ _ _ R).
    + apply (ran_lengths _ _ _ _ _ _ R). exact Hh.
    + rewrite (ran_counter _ _ _ _ _ _ R). lia.
    + rewrite (ran_counter _ _ _ _ _ _ R). lia.
    + exact Hui.
    + lia.
    + rewrite La. exact Na.
    + rewrite Lb. exact Nb.
    + destruct (ran_lnq _ _ _ _ _ _ R) as [[_ Q]|[_ Q]]; [rewrite Q; exact Nq|lia].
    + exists l', m'. split.
      * cbn [loop]. rewrite (bind_ok _ _ _ _ _ Es). exact El.
      * rewrite E. exact E1.
Qed.

(** An array that lines 105-112 allocate is a new one. *)
Lemma prepared_fresh p0 lnprior0 lnlike0 lnq0 m :
  let l := (prepared p0 lnprior0 lnlike0 lnq0 m).1 in
  (lnprior0 = None -> (length (heap1 m) <= lnprior l)%nat) /\
  (lnlike0 = None -> (length (heap1 m) <= lnlike l)%nat) /\
  (lnq0 = None -> (length (heap1 m) <= lnq l)%nat).
Proof.
  unfold prepared.
  destruct lnprior0, lnlike0, lnq0, (_kde (self m)); cbn;
    rewrite ?length_app; repeat split; intros; try discriminate; lia.
Qed.

(** X8.  A call writes to no array of scalars of the caller other than
    those passed as [lnprior0], [lnlike0] and [lnq0]: every other array
    there was before the call holds after it what it held before. *)
Theorem other_arrays_untouched p0 lnprior0 lnlike0 lnq0 iters ui m (x : nat) :
  callable p0 lnprior0 lnlike0 lnq0 m -> 0 <= iters -> ui <> 0 ->
  (x < length (heap1 m))%nat ->
  lnprior0 <> Some x -> lnlike0 <> Some x -> lnq0 <> Some x ->
  exists (l' : locals) (m' : machine),
    sample p0 lnprior0 lnlike0 lnq0 iters ui m = (Ok l', m') /\
    heap1 m' !! x = heap1 m !! x.
Proof.
  intros Hc Hk Hui Hx Na Nb Nq.
  destruct (callable_p0 _ _ _ _ _ Hc) as (pv & Hp & _).
  destruct (callable_history _ _ _ _ _ Hc) as (hl & Hh & Hit).
  destruct (grown_histories p0 lnprior0 lnlike0 lnq0 iters m)
    as (G1 & G2 & G3 & G4 & Git & _).
  destruct (prepared_heap1 p0 lnprior0 lnlike0 lnq0 m) as [ext Eh1].
  destruct (prepared_given p0 lnprior0 lnlike0 lnq0 m) as (Ga & Gb & Gq).
  destruct (prepared_fresh p0 lnprior0 lnlike0 lnq0 m) as (Fa & Fb & Fq).
  pose proof (shaped_prepared _ _ _ _ _ Hc) as Hs.
  set (l1 := (prepared p0 lnprior0 lnlike0 lnq0 m).1) in *.
  set (m1 := (prepared p0 lnprior0 lnlike0 lnq0 m).2) in *.
  set (m2 := set_self (grown iters (self m1)) m1) in *.
  change (grown iters (self m1)) with (self m2) in G1, G2, G3, G4, Git.
  destruct (loop_frame1 ui (Z.to_nat iters) l1 m2 (hl + Z.to_nat iters) x)
    as (l' & m' & El & E).
  - apply shaped_grown. exact Hs.
  - destruct Hh as (L1 & L2 & L3 & L4). unfold history_lengths.
    rewrite G1, G2, G3, G4, !length_app, !length_replicate. lia.
  - rewrite Git. lia.
  - rewrite Git. lia.
  - exact Hui.
  - change (heap1 m2) with (heap1 m1). rewrite Eh1, length_app. lia.
  - destruct lnprior0 as [a|]; [rewrite (Ga a eq_refl); congruence|].
    specialize (Fa eq_refl). lia.
  - destruct lnlike0 as [a|]; [rewrite (Gb a eq_refl); congruence|].
    specialize (Fb eq_refl). lia.
  - destruct lnq0 as [a|]; [rewrite (Gq a eq_refl); congruence|].
    specialize (Fq eq_refl). lia.
  - exists l', m'. split.
    + rewrite (sample_unfold _ _ _ _ _ _ _ pv Hp Hk). exact El.
    + rewrite E. change (heap1 m2) with (heap1 m1). rewrite Eh1.
      apply lookup_app_l. exact Hx.
Qed.

(** X9.  A call of at least one step made in the state [callable], in
    which the histories are as long as the counter says, returns, and then
    the last row of [_chain] is the array of positions it returns and the
    last row of [_lnpost] the sum of the arrays of log priors and log
    likelihoods it returns; the last row of [_lnprop] is the returned
    [lnq] when the last step has not rebuilt the proposal. *)
Theorem last_row_is_the_returned_ensemble p0 lnprior0 lnlike0 lnq0 iters ui m
    (hl : nat) :
  callable p0 lnprior0 lnlike0 lnq0 m -> history_lengths (self m) hl ->
  1 <= iters -> ui <> 0 ->
  exists (l' : locals) (m' : machine) (pv : mat) (a b : vec),
    sample p0 lnprior0 lnlike0 lnq0 iters ui m = (Ok l', m') /\
    heap2 m' !! p l' = Some pv /\
    heap1 m' !! lnprior l' = Some a /\ heap1 m' !! lnlike l' = Some b /\
    last (_chain (self m')) = Some pv /\
    last (_lnpost (self m')) = Some (zip_with PrimFloat.add a b) /\
    (iterations (self m') mod ui <> 0 ->
       exists q, heap1 m' !! lnq l' = Some q /\ last (_lnprop (self m')) = Some q).
Proof.
  intros Hc Hh Hk Hui.
  destruct (callable_p0 _ _ _ _ _ Hc) as (pv0 & Hp0 & _).
  destruct (callable_history _ _ _ _ _ Hc) as (hl' & Hh' & Hit).
  assert (hl' = hl) as ->.
  { destruct Hh as (L & _), Hh' as (L' & _). congruence. }
  destruct (grown_histories p0 lnprior0 lnlike0 lnq0 iters m)
    as (G1 & G2 & G3 & G4 & Git & _).
  pose proof (shaped_prepared _ _ _ _ _ Hc) as Hs.
  set (l1 := (prepared p0 lnprior0 lnlike0 lnq0 m).1) in *.
  set (m1 := (prepared p0 lnprior0 lnlike0 lnq0 m).2) in *.
  set (m2 := set_self (grown iters (self m1)) m1) in *.
  change (grown iters (self m1)) with (self m2) in G1, G2, G3, G4, Git.
  assert (history_lengths (self m2) (hl + Z.to_nat iters)) as Hh2.
  { destruct Hh as (L1 & L2 & L3 & L4). unfold history_lengths.
    rewrite G1, G2, G3, G4, !length_app, !length_replicate. lia. }
  destruct (Z.to_nat iters) as [|n] eqn:En; [lia|].
  destruct (loop_ran ui n l1 m2 (hl + S n)) as (ln & mn & El & R).
  { apply shaped_grown. exact Hs. }
  { exact Hh2. }
  { rewrite Git. lia. }
  { rewrite Git. lia. }
  { exact Hui. }
  pose proof (ran_lengths _ _ _ _ _ _ R _ Hh2) as Hhn.
  pose proof (ran_counter _ _ _ _ _ _ R) as Hcn. rewrite Git, Hit in Hcn.
  assert (ready ln mn) as Hr.
  { split; [exact (ran_shaped _ _ _ _ _ _ R)|].
    exists (hl + S n)%nat. split; [exact Hhn|]. lia. }
  destruct (shaped_kde _ _ (proj1 Hr)) as (k & Hk2 & _).
  destruct (advanced_rows ln mn k Hr Hk2)
    as (pv & a & b & q & Hp & Ha & Hb & Hq & _ & _ & R1 & R2 & R3 & _).
  destruct (step_histories ui ln mn k Hr Hk2 Hui)
    as (l' & m' & Es & Ep & Ea & Eb & Eh2 & Eh1 & E1 & E2 & E3 & _ & Ec & Hnot).
  assert (Z.to_nat (iterations (self mn)) = (hl + n)%nat) as Ei by lia.
  rewrite Ei in R1, R2, R3.
  pose proof (history_lengths_advanced ln mn k _ Hhn) as (L1 & L2 & L3 & _).
  exists l', m', pv, a, b.
  split.
  { rewrite (sample_unfold _ _ _ _ _ _ _ pv0 Hp0) by lia.
    fold l1 m1 m2. rewrite En, loop_snoc, (bind_ok _ _ _ _ _ El). exact Es. }
  split; [rewrite Ep, Eh2; exact Hp|].
  split; [rewrite Ea, Eh1; [exact Ha|eapply lookup_lt_Some; exact Ha]|].
  split; [rewrite Eb, Eh1; [exact Hb|eapply lookup_lt_Some; exact Hb]|].
  split.
  { rewrite last_lookup, E1, L1.
    replace (Nat.pred (hl + S n)) with (hl + n)%nat by lia. exact R1. }
  split.
  { rewrite last_lookup, E2, L2.
    replace (Nat.pred (hl + S n)) with (hl + n)%nat by lia. exact R2. }
  intros Hmod.
  assert (due ui (advanced ln mn k) = false) as Ed.
  { destruct (due ui (advanced ln mn k)) eqn:Ed; [|reflexivity].
    apply due_advanced in Ed. rewrite Ec in Hmod. contradiction. }
  destruct (Hnot Ed) as [-> ->].
  exists q. split; [exact Hq|].
  rewrite last_lookup, L3.
  replace (Nat.pred (hl + S n)) with (hl + n)%nat by lia. exact R3.
Qed.

End CallRows.

(** * The scalars of the loop follow the positions *)

Lemma map_mask_get {A B} (g : A -> B) (c : list A) (m : list bool) :
  mask_get (map g c) m = map g (mask_get c m).
Proof.
  revert m. induction c as [|x c IH]; intros [|[] m]; simpl; try reflexivity.
  - rewrite IH. reflexivity.
  - apply IH.
Qed.

Lemma map_mask_put {A B} (g : A -> B) (a : list A) (m : list bool) (v : list A) :
  mask_put (map g a) m (map g v) = map g (mask_put a m v).
Proof.
  revert m v. induction a as [|x a IH]; intros [|[] m] v; simpl; try reflexivity.
  - destruct v as [|y v]; simpl.
    + rewrite <- (IH m []). reflexivity.
    + rewrite IH. reflexivity.
  - rewrite IH. reflexivity.
Qed.

Lemma map_masked_copy {A B} (g : A -> B) (a c : list A) (acc : list bool) :
  masked_copy (map g a) acc (map g c) = map g (masked_copy a acc c).
Proof. unfold masked_copy. rewrite map_mask_get. apply map_mask_put. Qed.

Section Follow.

Context `{ES : ExternalsShapes}.

Implicit Types (m : machine) (l : locals) (s : Sampler) (k : kde).

Lemma rowwise_masked_copy (f : mat -> vec) (a c : mat) (acc : list bool) :
  rowwise f -> masked_copy (f a) acc (f c) = f (masked_copy a acc c).
Proof. intros [g E]. rewrite !E. apply map_masked_copy. Qed.

(** The three arrays of scalars after lines 146-150, when they are three
    arrays. *)
Lemma updated1_at l c acc (h : list vec) (a b q : vec) :
  NoDup [lnprior l; lnlike l; lnq l] ->
  h !! lnprior l = Some a -> h !! lnlike l = Some b -> h !! lnq l = Some q ->
  updated1 l c acc h !! lnprior l = Some (masked_copy a acc (lnprior_p c)) /\
  updated1 l c acc h !! lnlike l = Some (masked_copy b acc (lnlike_p c)) /\
  updated1 l c acc h !! lnq l = Some (masked_copy q acc (lnq_p c)).
Proof.
  intros Hnd Ha Hb Hq.
  apply NoDup_cons in Hnd as [Hab Hnd]. apply NoDup_cons in Hnd as [Hbq _].
  rewrite not_elem_of_cons in Hab. destruct Hab as [Hab Haq].
  rewrite not_elem_of_cons in Haq. destruct Haq as [Haq _].
  rewrite not_elem_of_cons in Hbq. destruct Hbq as [Hbq _].
  unfold updated1. rewrite !copy_into_lookup.
  repeat split.
  - rewrite (decide_False (P := lnprior l = lnq l)) by exact Haq.
    rewrite (decide_False (P := lnprior l = lnlike l)) by exact Hab.
    rewrite decide_True by reflexivity. rewrite Ha. reflexivity.
  - rewrite (decide_False (P := lnlike l = lnq l)) by exact Hbq.
    rewrite decide_True by reflexivity.
    rewrite (decide_False (P := lnlike l = lnprior l)) by congruence.
    rewrite Hb. reflexivity.
  - rewrite decide_True by reflexivity.
    rewrite (decide_False (P := lnq l = lnlike l)) by congruence.
    rewrite (decide_False (P := lnq l = lnprior l)) by congruence.
    rewrite Hq. reflexivity.
Qed.

Lemma current_advanced l m k :
  _kde (self m) = Some k ->
  rowwise (_get_lnprior (self m)) -> rowwise (_get_lnlike (self m)) ->
  rowwise (kde_call k) ->
  NoDup [lnprior l; lnlike l; lnq l] ->
  current l m -> current l (advanced l m k).
Proof.
  intros Hk Wa Wb Wq Hnd (pv & k0 & Hp & Hk0 & Ha & Hb & Hq).
  assert (k0 = k) as -> by congruence.
  set (c := candidates_at m k). set (acc := mask_at l m k).
  exists (masked_copy pv acc (p_p c)), k.
  destruct (updated1_at l c acc (heap1 m) _ _ _ Hnd Ha Hb Hq) as (Ua & Ub & Uq).
  split; [apply updated2_at; exact Hp|].
  split; [exact Hk|].
  change (heap1 (advanced l m k)) with (updated1 l c acc (heap1 m)).
  change (_get_lnprior (self (advanced l m k))) with (_get_lnprior (self m)).
  change (_get_lnlike (self (advanced l m k))) with (_get_lnlike (self m)).
  rewrite Ua, Ub, Uq.
  rewrite <- (rowwise_masked_copy _ pv (p_p c) acc Wa).
  rewrite <- (rowwise_masked_copy _ pv (p_p c) acc Wb).
  rewrite <- (rowwise_masked_copy _ pv (p_p c) acc Wq).
  repeat split.
Qed.

Lemma current_rebuilt l m :
  (lnprior l < length (heap1 m))%nat -> (lnlike l < length (heap1 m))%nat ->
  current l m -> current (rebound l m) (rebuilt l m).
Proof.
  intros La Lb (pv & k0 & Hp & Hk0 & Ha & Hb & Hq).
  exists pv, (OptimizedKDE pv (_pool (self m)) (gen m)).1.
  unfold rebuilt, rebound. rewrite (list_lookup_total_correct _ _ _ Hp).
  cbn [self heap1 heap2 set_self set_heap1 set_fits set_gen set_kde
       _kde _get_lnprior _get_lnlike p lnprior lnlike lnq].
  split; [exact Hp|]. split; [reflexivity|].
  split; [rewrite lookup_app_l by exact La; exact Ha|].
  split; [rewrite lookup_app_l by exact Lb; exact Hb|].
  apply list_lookup_middle. reflexivity.
Qed.

Lemma NoDup_rebound l m :
  (lnprior l < length (heap1 m))%nat -> (lnlike l < length (heap1 m))%nat ->
  NoDup [lnprior l; lnlike l; lnq l] ->
  NoDup [lnprior (rebound l m); lnlike (rebound l m); lnq (rebound l m)].
Proof.
  intros La Lb Hnd. cbn [rebound lnprior lnlike lnq].
  apply NoDup_cons in Hnd as [Hab Hnd].
  rewrite not_elem_of_cons in Hab. destruct Hab as [Hab _].
  apply NoDup_cons. split.
  - rewrite !not_elem_of_cons. split; [exact Hab|]. split; [lia|].
    apply not_elem_of_nil.
  - apply NoDup_cons. split.
    + rewrite not_elem_of_cons. split; [lia|apply not_elem_of_nil].
    + apply NoDup_singleton.
Qed.

(** One step keeps the scalars with the positions, and writes a row in
    which [_lnpost] is the log posterior of the row of [_chain]. *)
Lemma step_current ui l m :
  ready l m -> ui <> 0 ->
  rowwise (_get_lnprior (self m)) -> rowwise (_get_lnlike (self m)) ->
  (forall k, rowwise (kde_call k)) ->
  NoDup [lnprior l; lnlike l; lnq l] -> current l m ->
  exists l' m',
    step ui l m = (Ok l', m') /\ ran ui 1 l m l' m' /\
    _get_lnprior (self m') = _get_lnprior (self m) /\
    _get_lnlike (self m') = _get_lnlike (self m) /\
    NoDup [lnprior l'; lnlike l'; lnq l'] /\ current l' m' /\
    exists pv : mat,
      _chain (self m') !! Z.to_nat (iterations (self m)) = Some pv /\
      _lnpost (self m') !! Z.to_nat (iterations (self m)) =
        Some (zip_with PrimFloat.add (_get_lnprior (self m) pv)
                (_get_lnlike (self m) pv)).
Proof.
  intros Hr Hui Wa Wb Wq Hnd Hcur.
  destruct (shaped_kde _ _ (proj1 Hr)) as (k & Hk & _).
  destruct (step_ran ui l m Hr Hui) as (l' & m' & Es & R).
  pose proof (current_advanced l m k Hk Wa Wb (Wq k) Hnd Hcur) as Hadv.
  destruct (advanced_rows l m k Hr Hk)
    as (pv & a & b & q & Hp & Ha & Hb & Hq & _ & _ & R1 & R2 & _).
  assert (a = _get_lnprior (self m) pv /\ b = _get_lnlike (self m) pv) as [-> ->].
  { destruct Hadv as (pv' & k' & Hp' & _ & Ha' & Hb' & _).
    assert (pv' = pv) as -> by congruence.
    change (_get_lnprior (self (advanced l m k))) with (_get_lnprior (self m)) in Ha'.
    change (_get_lnlike (self (advanced l m k))) with (_get_lnlike (self m)) in Hb'.
    split; congruence. }
  assert (lnprior l < length (heap1 (advanced l m k)))%nat as La
    by (eapply lookup_lt_Some; exact Ha).
  assert (lnlike l < length (heap1 (advanced l m k)))%nat as Lb
    by (eapply lookup_lt_Some; exact Hb).
  exists l', m'. split; [exact Es|]. split; [exact R|].
  rewrite (step_ok ui l m k Hr Hk Hui) in Es.
  destruct (due ui (advanced l m k)) eqn:Ed; injection Es as <- <-.
  - split; [reflexivity|]. split; [reflexivity|].
    split; [apply NoDup_rebound; assumption|].
    split; [apply current_rebuilt; assumption|].
    exists pv. split; [exact R1|exact R2].
  - split; [reflexivity|]. split; [reflexivity|].
    split; [exact Hnd|]. split; [exact Hadv|].
    exists pv. split; [exact R1|exact R2].
Qed.

Lemma loop_current ui n : forall l m hl,
  shaped l m -> history_lengths (self m) hl ->
  0 <= iterations (self m) -> iterations (self m) + Z.of_nat n <= Z.of_nat hl ->
  ui <> 0 ->
  rowwise (_get_lnprior (self m)) -> rowwise (_get_lnlike (self m)) ->
  (forall k, rowwise (kde_call k)) ->
  NoDup [lnprior l; lnlike l; lnq l] -> current l m ->
  exists l' m',
    loop n ui l m = (Ok l', m') /\ ran ui n l m l' m' /\
    _get_lnprior (self m') = _get_lnprior (self m) /\
    _get_lnlike (self m') = _get_lnlike (self m) /\
    NoDup [lnprior l'; lnlike l'; lnq l'] /\ current l' m' /\
    forall i, (Z.to_nat (iterations (self m)) <= i
               < Z.to_nat (iterations (self m)) + n)%nat ->
      exists pv : mat,
        _chain (self m') !! i = Some pv /\
        _lnpost (self m') !! i =
          Some (zip_with PrimFloat.add (_get_lnprior (self m) pv)
                  (_get_lnlike (self m) pv)).
Proof.
  induction n as [|n IH]; intros l m hl Hs Hh H0 Hn Hui Wa Wb Wq Hnd Hcur.
  - exists l, m. split; [reflexivity|]. split; [apply ran_zero; exact Hs|].
    repeat split; try assumption. intros i Hi. lia.
  - assert (ready l m) as Hr.
    { split; [exact Hs|]. exists hl. split; [exact Hh|]. lia. }
    destruct (step_current ui l m Hr Hui Wa Wb Wq Hnd Hcur)
      as (l1 & m1 & Es & R1 & Fa & Fb & Hnd1 & Hcur1 & pv & Rc & Rp).
    pose proof (ran_counter _ _ _ _ _ _ R1) as Hc1.
    destruct (IH l1 m1 hl) as (l' & m' & El & R & Fa' & Fb' & Hnd' & Hcur' & Rows).
    + exact (ran_shaped _ _ _ _ _ _ R1).
    + apply (ran_lengths _ _ _ _ _ _ R1). exact Hh.
    + lia.
    + lia.
    + exact Hui.
    + rewrite Fa. exact Wa.
    + rewrite Fb. exact Wb.
    + exact Wq.
    + exact Hnd1.
    + exact Hcur1.
    + exists l', m'.
      split; [cbn [loop]; rewrite (bind_ok _ _ _ _ _ Es); exact El|].
      split; [exact (ran_trans ui 1 n l m l1 m1 l' m' R1 R)|].
      split; [congruence|]. split; [congruence|].
      split; [exact Hnd'|]. split; [exact Hcur'|].
      intros i Hi.
      destruct (decide (i = Z.to_nat (iterations (self m)))) as [->|Hne].
      * destruct (ran_prefix _ _ _ _ _ _ R (Z.to_nat (iterations (self m))))
          as (P1 & P2 & _); [lia|].
        exists pv. rewrite P1, P2. split; [exact Rc|exact Rp].
      * destruct (Rows i) as (pvi & Ci & Pi); [lia|].
        exists pvi. rewrite <- Fa, <- Fb. split; [exact Ci|exact Pi].
Qed.

(** The machine on which the loop starts has the scalars of the points of
    [p0] when the arrays supplied hold them. *)
Lemma current_prepared p0 lnprior0 lnlike0 lnq0 m (pv : mat) :
  heap2 m !! p0 = Some pv ->
  named1 m lnprior0 -> named1 m lnlike0 -> named1 m lnq0 ->
  holding m lnprior0 (_get_lnprior (self m) pv) ->
  holding m lnlike0 (_get_lnlike (self m) pv) ->
  holding m lnq0
    (kde_call (default (OptimizedKDE pv (_pool (self m)) (gen m)).1
                 (_kde (self m))) pv) ->
  current (prepared p0 lnprior0 lnlike0 lnq0 m).1
          (prepared p0 lnprior0 lnlike0 lnq0 m).2.
Proof.
  intros Hp Na Nb Nq Ha Hb Hq.
  destruct (prepared_self p0 lnprior0 lnlike0 lnq0 m)
    as (_ & _ & Ef & Eg & _ & _ & _ & _ & _ & Ek).
  destruct (prepared_heap2 p0 lnprior0 lnlike0 lnq0 m) as [Eh2 Ep].
  destruct (prepared_heap1 p0 lnprior0 lnlike0 lnq0 m) as [ext Eh1].
  destruct (prepared_given p0 lnprior0 lnlike0 lnq0 m) as (Ga & Gb & Gq).
  destruct (prepared_computed p0 lnprior0 lnlike0 lnq0 m pv Hp) as (Ca & Cb & Cq).
  rewrite (list_lookup_total_correct _ _ _ Hp) in Eh2, Ek.
  exists pv, (default (OptimizedKDE pv (_pool (self m)) (gen m)).1 (_kde (self m))).
  split; [rewrite Eh2, Ep; apply list_lookup_middle; reflexivity|].
  split; [exact Ek|].
  rewrite Ef, Eg.
  split; [|split].
  - destruct lnprior0 as [a|]; [|apply Ca; reflexivity].
    rewrite (Ga a eq_refl), Eh1. destruct Na as [v Hv].
    rewrite (lookup_app_l_Some _ _ _ _ Ha). reflexivity.
  - destruct lnlike0 as [a|]; [|apply Cb; reflexivity].
    rewrite (Gb a eq_refl), Eh1.
    rewrite (lookup_app_l_Some _ _ _ _ Hb). reflexivity.
  - destruct lnq0 as [a|].
    + rewrite (Gq a eq_refl), Eh1.
      rewrite (lookup_app_l_Some _ _ _ _ Hq). reflexivity.
    + destruct (Cq eq_refl) as (k & Hk & Hv).
      rewrite Ek in Hk. injection Hk as <-. exact Hv.
Qed.

Lemma NoDup3 (x y z : nat) : x <> y -> x <> z -> y <> z -> NoDup [x; y; z].
Proof.
  intros Hxy Hxz Hyz. apply NoDup_cons. split.
  - rewrite !not_elem_of_cons. split; [exact Hxy|]. split; [exact Hxz|].
    apply not_elem_of_nil.
  - apply NoDup_cons. split.
    + rewrite not_elem_of_cons. split; [exact Hyz|apply not_elem_of_nil].
    + apply NoDup_singleton.
Qed.

(** The three arrays of scalars of the loop are three arrays when those
    supplied are. *)
Lemma NoDup_prepared p0 lnprior0 lnlike0 lnq0 m :
  given1 m lnprior0 (nwalkers (self m)) -> given1 m lnlike0 (nwalkers (self m)) ->
  given1 m lnq0 (nwalkers (self m)) ->
  NoDup (given_addresses lnprior0 lnlike0 lnq0) ->
  let l := (prepared p0 lnprior0 lnlike0 lnq0 m).1 in
  NoDup [lnprior l; lnlike l; lnq l].
Proof.
  intros Ga Gb Gq Hnd.
  assert (forall g, given1 m g (nwalkers (self m)) ->
            forall a, g = Some a -> (a < length (heap1 m))%nat) as Hlt.
  { intros g Hg a ->. destruct Hg as (v & Hv & _). eapply lookup_lt_Some. exact Hv. }
  pose proof (Hlt _ Ga) as La. pose proof (Hlt _ Gb) as Lb.
  pose proof (Hlt _ Gq) as Lq. clear Hlt Ga Gb Gq.
  unfold given_addresses in Hnd. unfold prepared.
  destruct lnprior0 as [a|], lnlike0 as [b|], lnq0 as [q|], (_kde (self m));
    cbn in Hnd |- *;
    try specialize (La _ eq_refl); try specialize (Lb _ eq_refl);
    try specialize (Lq _ eq_refl);
    repeat match goal with
           | H : NoDup (_ :: _) |- _ => apply NoDup_cons in H as [? H]
           end;
    rewrite ?not_elem_of_cons in *;
    rewrite ?length_app; cbn [length];
    apply NoDup3; try lia; intuition congruence.
Qed.

(** A call from arrays that hold the scalars of [p0]. *)
Lemma sample_current p0 lnprior0 lnlike0 lnq0 iters ui m (pv : mat) (hl : nat) :
  callable p0 lnprior0 lnlike0 lnq0 m -> heap2 m !! p0 = Some pv ->
  history_lengths (self m) hl -> 0 <= iters -> ui <> 0 ->
  rowwise (_get_lnprior (self m)) -> rowwise (_get_lnlike (self m)) ->
  (forall k, rowwise (kde_call k)) ->
  NoDup (given_addresses lnprior0 lnlike0 lnq0) ->
  holding m lnprior0 (_get_lnprior (self m) pv) ->
  holding m lnlike0 (_get_lnlike (self m) pv) ->
  (forall a, lnq0 = Some a ->
     exists k, _kde (self m) = Some k /\ heap1 m !! a = Some (kde_call k pv)) ->
  exists l' m',
    sample p0 lnprior0 lnlike0 lnq0 iters ui m = (Ok l', m') /\
    _get_lnprior (self m') = _get_lnprior (self m) /\
    _get_lnlike (self m') = _get_lnlike (self m) /\
    current l' m' /\
    forall i, (hl <= i < hl + Z.to_nat iters)%nat ->
      exists pvi : mat,
        _chain (self m') !! i = Some pvi /\
        _lnpost (self m') !! i =
          Some (zip_with PrimFloat.add (_get_lnprior (self m) pvi)
                  (_get_lnlike (self m) pvi)).
Proof.
  intros Hc Hp Hh Hk Hui Wa Wb Wq Hnd Ha Hb Hq.
  destruct (callable_history _ _ _ _ _ Hc) as (hl' & Hh' & Hit).
  assert (hl' = hl) as ->.
  { destruct Hh as (L & _), Hh' as (L' & _). congruence. }
  destruct (grown_histories p0 lnprior0 lnlike0 lnq0 iters m)
    as (G1 & G2 & G3 & G4 & Git & _).
  destruct (prepared_self p0 lnprior0 lnlike0 lnq0 m)
    as (_ & _ & Ef & Eg & _).
  pose proof (shaped_prepared _ _ _ _ _ Hc) as Hs.
  pose proof (NoDup_prepared p0 lnprior0 lnlike0 lnq0 m
                (callable_lnprior0 _ _ _ _ _ Hc) (callable_lnlike0 _ _ _ _ _ Hc)
                (callable_lnq0 _ _ _ _ _ Hc) Hnd) as Hnd1.
  assert (current (prepared p0 lnprior0 lnlike0 lnq0 m).1
                  (prepared p0 lnprior0 lnlike0 lnq0 m).2) as Hcur.
  { apply current_prepared with pv; try assumption.
    - destruct lnprior0; [|exact I]. eexists. exact Ha.
    - destruct lnlike0; [|exact I]. eexists. exact Hb.
    - destruct lnq0 as [a|]; [|exact I].
      destruct (Hq a eq_refl) as (k & _ & Hv). eexists. exact Hv.
    - destruct lnq0 as [a|]; [|exact I].
      destruct (Hq a eq_refl) as (k & Ek & Hv). rewrite Ek. exact Hv. }
  cbv zeta in Hnd1.
  set (l1 := (prepared p0 lnprior0 lnlike0 lnq0 m).1) in *.
  set (m1 := (prepared p0 lnprior0 lnlike0 lnq0 m).2) in *.
  set (m2 := set_self (grown iters (self m1)) m1) in *.
  change (grown iters (self m1)) with (self m2) in G1, G2, G3, G4, Git.
  destruct (loop_current ui (Z.to_nat iters) l1 m2 (hl + Z.to_nat iters))
    as (l' & m' & El & R & Fa & Fb & _ & Hcur' & Rows).
  - apply shaped_grown. exact Hs.
  - destruct Hh as (L1 & L2 & L3 & L4). unfold history_lengths.
    rewrite G1, G2, G3, G4, !length_app, !length_replicate. lia.
  - rewrite Git. lia.
  - rewrite Git. lia.
  - exact Hui.
  - change (_get_lnprior (self m2)) with (_get_lnprior (self m1)).
    rewrite Ef. exact Wa.
  - change (_get_lnlike (self m2)) with (_get_lnlike (self m1)).
    rewrite Eg. exact Wb.
  - exact Wq.
  - exact Hnd1.
  - exact Hcur.
  - change (_get_lnprior (self m2)) with (_get_lnprior (self m1)) in Fa, Rows.
    change (_get_lnlike (self m2)) with (_get_lnlike (self m1)) in Fb, Rows.
    rewrite Ef in Fa, Rows. rewrite Eg in Fb, Rows.
    exists l', m'.
    split; [rewrite (sample_unfold _ _ _ _ _ _ _ pv Hp Hk); exact El|].
    split; [exact Fa|]. split; [exact Fb|]. split; [exact Hcur'|].
    intros i Hi. apply Rows. rewrite Git, Hit. lia.
Qed.

(** X10.  The arrays a call returns go together.  When the evaluators and
    the proposal's density work point by point, and the arrays supplied
    are different arrays holding the log prior, the log likelihood and the
    log proposal density of the points of [p0], then the arrays returned
    as [lnprior] and [lnlike] hold the log prior and the log likelihood of
    the positions returned as [p], walker by walker, and the array
    returned as [lnq] their log density under the proposal the sampler is
    left with. *)
Theorem returned_scalars_are_those_of_the_positions
    p0 lnprior0 lnlike0 lnq0 iters ui m (pv : mat) (hl : nat) :
  callable p0 lnprior0 lnlike0 lnq0 m -> heap2 m !! p0 = Some pv ->
  history_lengths (self m) hl -> 0 <= iters -> ui <> 0 ->
  rowwise (_get_lnprior (self m)) -> rowwise (_get_lnlike (self m)) ->
  (forall k, rowwise (kde_call k)) ->
  NoDup (given_addresses lnprior0 lnlike0 lnq0) ->
  holding m lnprior0 (_get_lnprior (self m) pv) ->
  holding m lnlike0 (_get_lnlike (self m) pv) ->
  (forall a, lnq0 = Some a ->
     exists k, _kde (self m) = Some k /\ heap1 m !! a = Some (kde_call k pv)) ->
  exists (l' : locals) (m' : machine) (pv' : mat) (k' : kde),
    sample p0 lnprior0 lnlike0 lnq0 iters ui m = (Ok l', m') /\
    heap2 m' !! p l' = Some pv' /\ _kde (self m') = Some k' /\
    heap1 m' !! lnprior l' = Some (_get_lnprior (self m) pv') /\
    heap1 m' !! lnlike l' = Some (_get_lnlike (self m) pv') /\
    heap1 m' !! lnq l' = Some (kde_call k' pv').
Proof.
  intros Hc Hp Hh Hk Hui Wa Wb Wq Hnd Ha Hb Hq.
  destruct (sample_current p0 lnprior0 lnlike0 lnq0 iters ui m pv hl
              Hc Hp Hh Hk Hui Wa Wb Wq Hnd Ha Hb Hq)
    as (l' & m' & Es & Fa & Fb & (pv' & k' & Hp' & Hk' & Ha' & Hb' & Hq') & _).
  exists l', m', pv', k'. rewrite Fa in Ha'. rewrite Fb in Hb'.
  repeat split; assumption.
Qed.

(** X11.  The histories go together.  Under the same conditions, in every
    row that a call writes, the row of [_lnpost] is the log prior plus the
    log likelihood of the positions in the row of [_chain], walker by
    walker. *)
Theorem lnpost_rows_are_those_of_the_chain
    p0 lnprior0 lnlike0 lnq0 iters ui m (pv : mat) (hl : nat) :
  callable p0 lnprior0 lnlike0 lnq0 m -> heap2 m !! p0 = Some pv ->
  history_lengths (self m) hl -> 0 <= iters -> ui <> 0 ->
  rowwise (_get_lnprior (self m)) -> rowwise (_get_lnlike (self m)) ->
  (forall k, rowwise (kde_call k)) ->
  NoDup (given_addresses lnprior0 lnlike0 lnq0) ->
  holding m lnprior0 (_get_lnprior (self m) pv) ->
  holding m lnlike0 (_get_lnlike (self m) pv) ->
  (forall a, lnq0 = Some a ->
     exists k, _kde (self m) = Some k /\ heap1 m !! a = Some (kde_call k pv)) ->
  exists (l' : locals) (m' : machine),
    sample p0 lnprior0 lnlike0 lnq0 iters ui m = (Ok l', m') /\
    forall i, (hl <= i < hl + Z.to_nat iters)%nat ->
      exists pvi : mat,
        _chain (self m') !! i = Some pvi /\
        _lnpost (self m') !! i =
          Some (zip_with PrimFloat.add (_get_lnprior (self m) pvi)
                  (_get_lnlike (self m) pvi)).
Proof.
  intros Hc Hp Hh Hk Hui Wa Wb Wq Hnd Ha Hb Hq.
  destruct (sample_current p0 lnprior0 lnlike0 lnq0 iters ui m pv hl
              Hc Hp Hh Hk Hui Wa Wb Wq Hnd Ha Hb Hq)
    as (l' & m' & Es & _ & _ & _ & Rows).
  exists l', m'. split; [exact Es|exact Rows].
Qed.

End Follow.

(** * Calls in sequence *)

Section Sequence.

Context `{ES : ExternalsShapes}.

Implicit Types (m : machine) (l : locals) (s : Sampler) (k : kde).

(** The loop, split in two. *)
Lemma loop_app ui n1 n2 : forall l m,
  loop (n1 + n2) ui l m = bind (loop n1 ui l) (fun l' => loop n2 ui l') m.
Proof.
  induction n1 as [|n1 IH]; intros l m.
  - reflexivity.
  - change (loop (S n1 + n2) ui l m)
      with (bind (step ui l) (fun l1 => loop (n1 + n2) ui l1) m).
    change (loop (S n1) ui l)
      with (bind (step ui l) (fun l1 => loop n1 ui l1)).
    unfold bind.
    destruct (step ui l m) as [[l1|e] m1]; [|reflexivity].
    rewrite IH. reflexivity.
Qed.

(** Rows of zeros appended in two batches, and a row written before rows
    of zeros are appended. *)
Lemma grown_add (a b : Z) s :
  0 <= a -> 0 <= b -> grown (a + b) s = grown b (grown a s).
Proof.
  intros Ha Hb. unfold grown.
  cbn [nwalkers dim accepted _chain _lnpost _lnprop
       set_accepted set_lnprop set_lnpost set_chain].
  rewrite Z2Nat.inj_add by assumption.
  rewrite !replicate_add, !app_assoc. reflexivity.
Qed.

Lemma recorded_grown (z : Z) s (pv : mat) (a b q : vec) acc hl :
  history_lengths s hl -> 0 <= iterations s < Z.of_nat hl ->
  recorded (grown z s) pv a b q acc = grown z (recorded s pv a b q acc).
Proof.
  intros (L1 & L2 & L3 & L4) Hit. unfold recorded, grown.
  cbn [nwalkers dim iterations accepted _chain _lnpost _lnprop
       set_iterations set_accepted set_lnprop set_lnpost set_chain].
  rewrite !insert_app_l by lia. reflexivity.
Qed.

(** What two runs side by side compute in a step. *)
Lemma alike_mask z l1 m1 l2 m2 k :
  alike z l1 m1 l2 m2 ->
  candidates_at m1 k = candidates_at m2 k /\
  gen_after_draw m1 k = gen_after_draw m2 k /\
  ratio_at l1 m1 k = ratio_at l2 m2 k /\
  mask_at l1 m1 k = mask_at l2 m2 k.
Proof.
  intros (Es & Eg & _ & Eh & Ea & Eb & Eq & _).
  assert (candidates_at m1 k = candidates_at m2 k) as Ec.
  { unfold candidates_at. rewrite Es, Eg. reflexivity. }
  assert (gen_after_draw m1 k = gen_after_draw m2 k) as Ed.
  { unfold gen_after_draw. rewrite Es, Eg. reflexivity. }
  assert (ratio_at l1 m1 k = ratio_at l2 m2 k) as Er.
  { unfold ratio_at. rewrite Ec, Eh, Ea, Eb, Eq. reflexivity. }
  repeat split; try assumption.
  unfold mask_at. rewrite Er, Ed. reflexivity.
Qed.

Lemma alike_advanced z l1 m1 l2 m2 k hl (pv : mat) :
  alike z l1 m1 l2 m2 ->
  history_lengths (self m2) hl -> 0 <= iterations (self m2) < Z.of_nat hl ->
  heap2 m2 !! p l2 = Some pv ->
  alike z l1 (advanced l1 m1 k) l2 (advanced l2 m2 k).
Proof.
  intros Hal Hh Hit Hp.
  destruct (alike_mask z l1 m1 l2 m2 k Hal) as (Ec & Ed & Er & Em).
  destruct Hal as (Es & Eg & Ef & Eh & Ea & Eb & Eq & E2).
  assert (heap1 (advanced l1 m1 k) = heap1 (advanced l2 m2 k)) as Eh'.
  { unfold advanced. cbn [heap1 set_self set_heap1].
    unfold updated1. rewrite Ec, Em, Eh, Ea, Eb, Eq. reflexivity. }
  assert (heap2 (advanced l1 m1 k) !! p l1 = heap2 (advanced l2 m2 k) !! p l2)
    as E2'.
  { unfold advanced. cbn [heap2 set_self set_heap1 set_heap2].
    rewrite Hp in E2.
    rewrite (updated2_at l1 _ _ _ pv E2), (updated2_at l2 _ _ _ pv Hp).
    rewrite Ec, Em. reflexivity. }
  split; [|repeat split; try assumption].
  - change (self (advanced l1 m1 k)) with
      (recorded (self m1) (heap2 (advanced l1 m1 k) !!! p l1)
         (heap1 (advanced l1 m1 k) !!! lnprior l1)
         (heap1 (advanced l1 m1 k) !!! lnlike l1)
         (heap1 (advanced l1 m1 k) !!! lnq l1) (mask_at l1 m1 k)).
    change (self (advanced l2 m2 k)) with
      (recorded (self m2) (heap2 (advanced l2 m2 k) !!! p l2)
         (heap1 (advanced l2 m2 k) !!! lnprior l2)
         (heap1 (advanced l2 m2 k) !!! lnlike l2)
         (heap1 (advanced l2 m2 k) !!! lnq l2) (mask_at l2 m2 k)).
    rewrite Eh', Ea, Eb, Eq, Em, Es.
    replace (heap2 (advanced l1 m1 k) !!! p l1)
      with (heap2 (advanced l2 m2 k) !!! p l2).
    + apply recorded_grown with hl; assumption.
    + rewrite !list_lookup_total_alt, E2'. reflexivity.
  - unfold advanced. cbn [gen set_self set_heap1 set_heap2 set_gen].
    rewrite Er, Ed. reflexivity.
Qed.

Lemma alike_due ui z l1 m1 l2 m2 :
  self m1 = grown z (self m2) -> due ui m1 = due ui m2.
Proof. intros Es. unfold due. rewrite Es. reflexivity. Qed.

Lemma alike_rebuilt z l1 m1 l2 m2 (pv : mat) :
  alike z l1 m1 l2 m2 -> heap2 m2 !! p l2 = Some pv ->
  alike z (rebound l1 m1) (rebuilt l1 m1) (rebound l2 m2) (rebuilt l2 m2).
Proof.
  intros (Es & Eg & Ef & Eh & Ea & Eb & Eq & E2) Hp.
  rewrite Hp in E2.
  unfold alike, rebuilt, rebound.
  rewrite (list_lookup_total_correct _ _ _ Hp), (list_lookup_total_correct _ _ _ E2).
  cbn [self heap1 heap2 gen fits set_self set_heap1 set_fits set_gen
       p lnprior lnlike lnq].
  rewrite Es, Eg, Ef, Eh, Hp, E2. repeat split; assumption.
Qed.

Lemma shaped_alike z l1 m1 l2 m2 :
  alike z l1 m1 l2 m2 -> shaped l2 m2 -> shaped l1 m1.
Proof.
  intros (Es & Eg & Ef & Eh & Ea & Eb & Eq & E2)
         [Hc Hk (pv & Hp & Sp) Ha Hb Hq].
  split; rewrite Es; cbn [grown nwalkers dim set_accepted set_lnprop set_lnpost
                           set_chain].
  - exact Hc.
  - exact Hk.
  - exists pv. split; [rewrite E2; exact Hp|exact Sp].
  - unfold holds1. rewrite Eh, Ea. exact Ha.
  - unfold holds1. rewrite Eh, Eb. exact Hb.
  - unfold holds1. rewrite Eh, Eq. exact Hq.
Qed.

(** Two runs side by side stay side by side. *)
Lemma loop_alike ui n : forall z l1 m1 l2 m2 hl,
  alike z l1 m1 l2 m2 -> shaped l2 m2 -> history_lengths (self m2) hl ->
  0 <= iterations (self m2) ->
  iterations (self m2) + Z.of_nat n <= Z.of_nat hl -> ui <> 0 ->
  exists l1' m1' l2' m2',
    loop n ui l1 m1 = (Ok l1', m1') /\ loop n ui l2 m2 = (Ok l2', m2') /\
    alike z l1' m1' l2' m2' /\
    ran ui n l1 m1 l1' m1' /\ ran ui n l2 m2 l2' m2'.
Proof.
  induction n as [|n IH]; intros z l1 m1 l2 m2 hl Hal Hs2 Hh2 H0 Hn Hui.
  - exists l1, m1, l2, m2. split; [reflexivity|]. split; [reflexivity|].
    split; [exact Hal|].
    split; apply ran_zero; [eapply shaped_alike; eassumption|exact Hs2].
  - pose proof (shaped_alike z l1 m1 l2 m2 Hal Hs2) as Hs1.
    pose proof Hal as (Es & _).
    assert (ready l2 m2) as Hr2.
    { split; [exact Hs2|]. exists hl. split; [exact Hh2|]. lia. }
    assert (ready l1 m1) as Hr1.
    { split; [exact Hs1|]. exists (hl + Z.to_nat z)%nat. rewrite Es. split.
      - apply history_lengths_grown. exact Hh2.
      - change (iterations (grown z (self m2))) with (iterations (self m2)). lia. }
    destruct (shaped_kde _ _ Hs2) as (k & Hk2 & _).
    assert (_kde (self m1) = Some k) as Hk1 by (rewrite Es; exact Hk2).
    destruct (shaped_p _ _ Hs2) as (pv & Hp & _).
    destruct (step_ran ui l1 m1 Hr1 Hui) as (l1a & m1a & Es1 & R1).
    destruct (step_ran ui l2 m2 Hr2 Hui) as (l2a & m2a & Es2 & R2).
    assert (alike z l1a m1a l2a m2a) as Hal'.
    { pose proof (alike_advanced z l1 m1 l2 m2 k hl pv Hal Hh2
                    ltac:(lia) Hp) as Hadv.
      pose proof Es1 as Es1'. pose proof Es2 as Es2'.
      rewrite (step_ok ui l1 m1 k Hr1 Hk1 Hui) in Es1'.
      rewrite (step_ok ui l2 m2 k Hr2 Hk2 Hui) in Es2'.
      rewrite (alike_due ui z l1 (advanced l1 m1 k) l2 (advanced l2 m2 k)
                 (proj1 Hadv)) in Es1'.
      destruct (due ui (advanced l2 m2 k));
        injection Es1' as <- <-; injection Es2' as <- <-.
      - destruct (shaped_p _ _ (shaped_advanced l2 m2 k Hr2 Hk2)) as (pv' & Hp' & _).
        apply alike_rebuilt with pv'; assumption.
      - exact Hadv. }
    destruct (IH z l1a m1a l2a m2a hl Hal') as (l1' & m1' & l2' & m2' & El1 & El2 & Hal'' & R1' & R2').
    + exact (ran_shaped _ _ _ _ _ _ R2).
    + apply (ran_lengths _ _ _ _ _ _ R2). exact Hh2.
    + rewrite (ran_counter _ _ _ _ _ _ R2). lia.
    + rewrite (ran_counter _ _ _ _ _ _ R2). lia.
    + exact Hui.
    + exists l1', m1', l2', m2'.
      split; [cbn [loop]; rewrite (bind_ok _ _ _ _ _ Es1); exact El1|].
      split; [cbn [loop]; rewrite (bind_ok _ _ _ _ _ Es2); exact El2|].
      split; [exact Hal''|].
      split; [exact (ran_trans ui 1 n _ _ _ _ _ _ R1 R1')
             |exact (ran_trans ui 1 n _ _ _ _ _ _ R2 R2')].
Qed.

(** The histories on which the loop of a call starts. *)
Lemma entered_lengths p0 lnprior0 lnlike0 lnq0 iters m hl :
  history_lengths (self m) hl ->
  history_lengths (grown iters (self (prepared p0 lnprior0 lnlike0 lnq0 m).2))
    (hl + Z.to_nat iters).
Proof.
  intros (L1 & L2 & L3 & L4).
  destruct (prepared_self p0 lnprior0 lnlike0 lnq0 m)
    as (_ & _ & _ & _ & _ & E1 & E2 & E3 & E4 & _).
  apply history_lengths_grown. unfold history_lengths.
  rewrite E1, E2, E3, E4. repeat split; assumption.
Qed.

(** What [prepared] is when the arrays passed are those a call returned. *)
Lemma prepared_resumed l m (pv : mat) k :
  heap2 m !! p l = Some pv -> _kde (self m) = Some k ->
  prepared (p l) (Some (lnprior l)) (Some (lnlike l)) (Some (lnq l)) m =
    ({| p := length (heap2 m); lnprior := lnprior l; lnlike := lnlike l;
        lnq := lnq l |},
     set_heap2 (heap2 m ++ [pv]) m).
Proof.
  intros Hp Hk. unfold prepared.
  rewrite Hk, (list_lookup_total_correct _ _ _ Hp). reflexivity.
Qed.

(** The machine that a run of the loop leaves can be called again, with
    the arrays the run leaves. *)
Lemma callable_after ui n l m l' m' hl :
  ran ui n l m l' m' -> history_lengths (self m) hl ->
  iterations (self m) + Z.of_nat n = Z.of_nat hl ->
  callable (p l') (Some (lnprior l')) (Some (lnlike l')) (Some (lnq l')) m'.
Proof.
  intros R Hh Hit.
  destruct (ran_shaped _ _ _ _ _ _ R) as [Hc (k & Hk & Hd) Hp Ha Hb Hq].
  split; try assumption.
  - intros k' Hk'. assert (k' = k) as -> by congruence. exact Hd.
  - exists hl. split; [apply (ran_lengths _ _ _ _ _ _ R); exact Hh|].
    rewrite (ran_counter _ _ _ _ _ _ R). exact Hit.
Qed.

(** A call, as the run of its loop. *)
Lemma sample_loop p0 lnprior0 lnlike0 lnq0 iters ui m (hl : nat) :
  callable p0 lnprior0 lnlike0 lnq0 m -> history_lengths (self m) hl ->
  0 <= iters -> ui <> 0 ->
  let l1 := (prepared p0 lnprior0 lnlike0 lnq0 m).1 in
  let m1 := (prepared p0 lnprior0 lnlike0 lnq0 m).2 in
  let m2 := set_self (grown iters (self m1)) m1 in
  shaped l1 m2 /\ history_lengths (self m2) (hl + Z.to_nat iters) /\
  iterations (self m2) = Z.of_nat hl /\
  sample p0 lnprior0 lnlike0 lnq0 iters ui m = loop (Z.to_nat iters) ui l1 m2.
Proof.
  intros Hc Hh Hk Hui l1 m1 m2.
  destruct (callable_p0 _ _ _ _ _ Hc) as (pv & Hp & _).
  destruct (callable_history _ _ _ _ _ Hc) as (hl' & Hh' & Hit).
  assert (hl' = hl) as ->.
  { destruct Hh as (L & _), Hh' as (L' & _). congruence. }
  destruct (grown_histories p0 lnprior0 lnlike0 lnq0 iters m)
    as (_ & _ & _ & _ & Git & _).
  split; [apply shaped_grown, shaped_prepared; exact Hc|].
  split; [apply entered_lengths; exact Hh|].
  split; [unfold m2, m1; cbn [self set_self]; rewrite Git; exact Hit|].
  apply sample_unfold with pv; assumption.
Qed.

(** X12.  A call made in the state [callable], in which the histories
    are as long as the counter says, returns and leaves the sampler in
    that state again: the histories are as long as the counter says, there
    is a proposal whose draws have the dimension of the sampler, and the
    four arrays returned have the shapes of the ensemble, so they can be
    passed to the next call as [p0], [lnprior0], [lnlike0] and [lnq0], or
    [p] alone. *)
Theorem sampler_callable_again p0 lnprior0 lnlike0 lnq0 iters ui m :
  callable p0 lnprior0 lnlike0 lnq0 m -> 0 <= iters -> ui <> 0 ->
  exists (l' : locals) (m' : machine),
    sample p0 lnprior0 lnlike0 lnq0 iters ui m = (Ok l', m') /\
    callable (p l') (Some (lnprior l')) (Some (lnlike l')) (Some (lnq l')) m' /\
    callable (p l') None None None m' /\
    is_Some (_kde (self m')) /\
    nwalkers (self m') = nwalkers (self m) /\ dim (self m') = dim (self m).
Proof.
  intros Hc Hk Hui.
  destruct (callable_history _ _ _ _ _ Hc) as (hl & Hh & Hit).
  destruct (sample_loop p0 lnprior0 lnlike0 lnq0 iters ui m hl Hc Hh Hk Hui)
    as (Hs & Hh2 & Hit2 & Es).
  destruct (loop_ran ui (Z.to_nat iters) _ _ (hl + Z.to_nat iters) Hs Hh2)
    as (l' & m' & El & R); [lia|lia|exact Hui|].
  pose proof (callable_after ui _ _ _ _ _ _ R Hh2 ltac:(lia)) as Hc'.
  destruct (prepared_self p0 lnprior0 lnlike0 lnq0 m) as (EN & ED & _).
  exists l', m'. split; [rewrite Es; exact El|]. split; [exact Hc'|].
  split.
  { destruct Hc' as [C1 C2 C3 _ _ _ C7]. split; try assumption; exact I. }
  split.
  { destruct (shaped_kde _ _ (ran_shaped _ _ _ _ _ _ R)) as (k & Ek & _).
    rewrite Ek. eexists. reflexivity. }
  destruct (ran_static _ _ _ _ _ _ R) as [SN SD].
  cbn [self set_self grown nwalkers dim set_accepted set_lnprop set_lnpost
       set_chain] in SN, SD.
  split; congruence.
Qed.

(** X13.  The first [k1] steps of a call of [k1 + k2] steps are the steps
    of a call of [k1] steps: they leave the same arrays at the same
    addresses, the same proposal, counter and random source, and the same
    histories but for the [k2] rows of zeros that the longer call has
    appended at their end and not yet written. *)
Theorem steps_of_a_longer_call p0 lnprior0 lnlike0 lnq0 (k1 k2 : Z) ui m :
  callable p0 lnprior0 lnlike0 lnq0 m -> 0 <= k1 -> 0 <= k2 -> ui <> 0 ->
  exists (l0 : locals) (m0 : machine) (l1 : locals) (m1 : machine)
         (la : locals) (ma : machine),
    enter p0 lnprior0 lnlike0 lnq0 (k1 + k2) m = (Ok l0, m0) /\
    loop (Z.to_nat k1) ui l0 m0 = (Ok l1, m1) /\
    sample p0 lnprior0 lnlike0 lnq0 k1 ui m = (Ok la, ma) /\
    l1 = la /\ self m1 = grown k2 (self ma) /\
    heap1 m1 = heap1 ma /\ heap2 m1 = heap2 ma /\
    gen m1 = gen ma /\ fits m1 = fits ma.
Proof.
  intros Hc Hk1 Hk2 Hui.
  destruct (callable_p0 _ _ _ _ _ Hc) as (pv & Hp & _).
  destruct (callable_history _ _ _ _ _ Hc) as (hl & Hh & Hit).
  destruct (sample_loop p0 lnprior0 lnlike0 lnq0 k1 ui m hl Hc Hh Hk1 Hui)
    as (Hs & Hh2 & Hit2 & Es).
  set (l0 := (prepared p0 lnprior0 lnlike0 lnq0 m).1) in *.
  set (mp := (prepared p0 lnprior0 lnlike0 lnq0 m).2) in *.
  set (mA := set_self (grown k1 (self mp)) mp) in *.
  set (mC := set_self (grown (k1 + k2) (self mp)) mp).
  assert (alike k2 l0 mC l0 mA) as Hal.
  { unfold alike, mC, mA. cbn [self gen fits heap1 heap2 set_self].
    split; [apply grown_add; assumption|]. repeat split. }
  destruct (loop_alike ui (Z.to_nat k1) k2 l0 mC l0 mA (hl + Z.to_nat k1)
              Hal Hs Hh2)
    as (l1 & m1 & la & ma & El1 & Ela & Hal' & R1 & Ra); [lia|lia|exact Hui|].
  destruct Hal' as (Es' & Eg & Ef & Eh & Ea & Eb & Eq & E2).
  destruct (ran_locals _ _ _ _ _ _ R1) as (P1 & _).
  destruct (ran_locals _ _ _ _ _ _ Ra) as (Pa & _).
  destruct (ran_heap2 _ _ _ _ _ _ R1) as [Len1 F1].
  destruct (ran_heap2 _ _ _ _ _ _ Ra) as [Lena Fa].
  exists l0, mC, l1, m1, la, ma.
  split; [apply prepare_and_grow_ok with pv; [exact Hp|lia]|].
  split; [exact El1|]. split; [rewrite Es; exact Ela|].
  split.
  { destruct l1, la. cbn in *. congruence. }
  split; [exact Es'|]. split; [exact Eh|].
  split; [|split; assumption].
  apply list_eq. intros x.
  destruct (decide (x = p l0)) as [->|Hx].
  - rewrite <- P1 at 1. rewrite <- Pa. exact E2.
  - rewrite F1, Fa by exact Hx. reflexivity.
Qed.

(** X14.  Calls compose.  A call of [k1] steps followed by a call of [k2]
    steps from the four arrays the first returned leaves what one call of
    [k1 + k2] steps leaves: the same sampler (counter, histories,
    proposal), the same random source, the same proposal fits, the same
    arrays of scalars at the same addresses, and the same positions, in
    an array of their own. *)
Theorem two_calls_compose p0 lnprior0 lnlike0 lnq0 (k1 k2 : Z) ui m :
  callable p0 lnprior0 lnlike0 lnq0 m -> 0 <= k1 -> 0 <= k2 -> ui <> 0 ->
  exists (la : locals) (ma : machine) (lb : locals) (mb : machine)
         (lc : locals) (mc : machine),
    sample p0 lnprior0 lnlike0 lnq0 k1 ui m = (Ok la, ma) /\
    sample (p la) (Some (lnprior la)) (Some (lnlike la)) (Some (lnq la)) k2 ui ma
      = (Ok lb, mb) /\
    sample p0 lnprior0 lnlike0 lnq0 (k1 + k2) ui m = (Ok lc, mc) /\
    self mb = self mc /\ gen mb = gen mc /\ fits mb = fits mc /\
    heap1 mb = heap1 mc /\
    lnprior lb = lnprior lc /\ lnlike lb = lnlike lc /\ lnq lb = lnq lc /\
    heap2 mb !! p lb = heap2 mc !! p lc.
Proof.
  intros Hc Hk1 Hk2 Hui.
  destruct (callable_p0 _ _ _ _ _ Hc) as (pv & Hp & _).
  destruct (callable_history _ _ _ _ _ Hc) as (hl & Hh & Hit).
  destruct (sample_loop p0 lnprior0 lnlike0 lnq0 k1 ui m hl Hc Hh Hk1 Hui)
    as (Hs & Hh2 & Hit2 & EsA).
  destruct (sample_loop p0 lnprior0 lnlike0 lnq0 (k1 + k2) ui m hl Hc Hh
              ltac:(lia) Hui) as (_ & _ & _ & EsC).
  set (l0 := (prepared p0 lnprior0 lnlike0 lnq0 m).1) in *.
  set (mp := (prepared p0 lnprior0 lnlike0 lnq0 m).2) in *.
  set (mA := set_self (grown k1 (self mp)) mp) in *.
  set (mC := set_self (grown (k1 + k2) (self mp)) mp) in *.
  assert (alike k2 l0 mC l0 mA) as Hal.
  { unfold alike, mC, mA. cbn [self gen fits heap1 heap2 set_self].
    split; [apply grown_add; assumption|]. repeat split. }
  destruct (loop_alike ui (Z.to_nat k1) k2 l0 mC l0 mA (hl + Z.to_nat k1)
              Hal Hs Hh2)
    as (l1 & m1 & la & ma & El1 & Ela & Hal' & R1 & Ra); [lia|lia|exact Hui|].
  (* the second call *)
  pose proof (ran_lengths _ _ _ _ _ _ Ra _ Hh2) as Hha.
  pose proof (ran_counter _ _ _ _ _ _ Ra) as Hca.
  pose proof (callable_after ui _ _ _ _ _ _ Ra Hh2 ltac:(lia)) as Hcb.
  destruct (sample_loop (p la) (Some (lnprior la)) (Some (lnlike la))
              (Some (lnq la)) k2 ui ma (hl + Z.to_nat k1) Hcb Hha Hk2 Hui)
    as (HsB & HhB & HitB & EsB).
  destruct (ran_shaped _ _ _ _ _ _ Ra) as [_ (ka & Hka & _) (pva & Hpa & _) _ _ _].
  rewrite (prepared_resumed la ma pva ka Hpa Hka) in HsB, HhB, HitB, EsB.
  cbn [fst snd] in HsB, HhB, HitB, EsB.
  set (lB := {| p := length (heap2 ma); lnprior := lnprior la;
                lnlike := lnlike la; lnq := lnq la |}) in *.
  set (mB := set_self (grown k2 (self (set_heap2 (heap2 ma ++ [pva]) ma)))
               (set_heap2 (heap2 ma ++ [pva]) ma)) in *.
  assert (alike 0 l1 m1 lB mB) as Hal0.
  { destruct Hal' as (Es' & Eg & Ef & Eh & Ea & Eb & Eq & E2).
    unfold alike, mB, lB.
    cbn [self gen fits heap1 heap2 set_self set_heap2 p lnprior lnlike lnq].
    rewrite grown_zero.
    repeat split; try assumption.
    rewrite E2, Hpa. symmetry. apply list_lookup_middle. reflexivity. }
  destruct (loop_alike ui (Z.to_nat k2) 0 l1 m1 lB mB
              (hl + Z.to_nat k1 + Z.to_nat k2) Hal0 HsB HhB)
    as (lc & mc & lb & mb & Elc & Elb & Hal'' & _ & _); [lia|lia|exact Hui|].
  destruct Hal'' as (Es'' & Eg & Ef & Eh & Ea & Eb & Eq & E2).
  rewrite grown_zero in Es''.
  exists la, ma, lb, mb, lc, mc.
  split; [rewrite EsA; exact Ela|].
  split; [rewrite EsB; exact Elb|].
  split.
  { rewrite EsC, Z2Nat.inj_add, loop_app by assumption.
    fold mC. rewrite (bind_ok _ _ _ _ _ El1). exact Elc. }
  repeat split; congruence.
Qed.

End Sequence.

(** * Consecutive rows of the histories *)

Section Rows.

Context `{ES : ExternalsShapes}.

Implicit Types (m : machine) (l : locals) (s : Sampler) (k : kde).

(** X15.  A rejected walker repeats in the histories.  Of two steps in
    sequence, when the second rejects walker [j], the row of [_chain] the
    second writes has at [j] the position the row before has there, and
    the row of [_lnpost] the same log posterior; its flag in [accepted]
    is zero. *)
Theorem rejected_walker_repeats_in_the_histories ui l m (hl j : nat) :
  shaped l m -> history_lengths (self m) hl ->
  0 <= iterations (self m) -> iterations (self m) + 2 <= Z.of_nat hl ->
  ui <> 0 ->
  exists (l1 : locals) (m1 : machine) (acc : list bool) (ma : machine)
         (l2 : locals) (m2 : machine) (c1 c2 : mat) (s1 s2 flags : vec),
    step ui l m = (Ok l1, m1) /\
    advance l1 m1 = (Ok acc, ma) /\ step ui l1 m1 = (Ok l2, m2) /\
    loop 2 ui l m = (Ok l2, m2) /\
    _chain (self m2) !! Z.to_nat (iterations (self m)) = Some c1 /\
    _chain (self m2) !! S (Z.to_nat (iterations (self m))) = Some c2 /\
    _lnpost (self m2) !! Z.to_nat (iterations (self m)) = Some s1 /\
    _lnpost (self m2) !! S (Z.to_nat (iterations (self m))) = Some s2 /\
    accepted (self m2) !! S (Z.to_nat (iterations (self m))) = Some flags /\
    (acc !! j = Some false ->
       c2 !! j = c1 !! j /\ s2 !! j = s1 !! j /\ flags !! j = Some 0%float).
Proof.
  intros Hs Hh H0 Hn Hui.
  assert (ready l m) as Hr.
  { split; [exact Hs|]. exists hl. split; [exact Hh|]. lia. }
  destruct (shaped_kde _ _ Hs) as (k & Hk & _).
  destruct (advanced_rows l m k Hr Hk)
    as (pv1 & a1 & b1 & q1 & Hp1 & Ha1 & Hb1 & _ & La1 & Lb1 & R1 & R2 & _).
  destruct (step_histories ui l m k Hr Hk Hui)
    as (l1 & m1 & Es1 & Ep & Ea & Eb & Eh2 & Eh1 & E1 & E2 & _ & _ & Ec & _).
  destruct (step_ran ui l m Hr Hui) as (l1' & m1' & Es1' & R).
  rewrite Es1 in Es1'. injection Es1' as <- <-.
  assert (ready l1 m1) as Hr1.
  { split; [exact (ran_shaped _ _ _ _ _ _ R)|].
    exists hl. split; [apply (ran_lengths _ _ _ _ _ _ R); exact Hh|]. lia. }
  destruct (shaped_kde _ _ (proj1 Hr1)) as (k1 & Hk1 & _).
  assert (heap2 m1 !! p l1 = Some pv1) as Hp1' by (rewrite Ep, Eh2; exact Hp1).
  assert (heap1 m1 !! lnprior l1 = Some a1) as Ha1'.
  { rewrite Ea, Eh1; [exact Ha1|eapply lookup_lt_Some; exact Ha1]. }
  assert (heap1 m1 !! lnlike l1 = Some b1) as Hb1'.
  { rewrite Eb, Eh1; [exact Hb1|eapply lookup_lt_Some; exact Hb1]. }
  destruct (advanced_rows l1 m1 k1 Hr1 Hk1)
    as (pv2 & a2 & b2 & q2 & Hp2 & Ha2 & Hb2 & _ & La2 & Lb2 & T1 & T2 & _ & T4).
  destruct (step_histories ui l1 m1 k1 Hr1 Hk1 Hui)
    as (l2 & m2 & Es2 & _ & _ & _ & _ & _ & F1 & F2 & _ & F4 & _ & _).
  destruct (prefix_advanced l1 m1 k1 (Z.to_nat (iterations (self m))))
    as (P1 & P2 & _); [lia|].
  assert (Z.to_nat (iterations (self m1)) = S (Z.to_nat (iterations (self m))))
    as Ei by lia.
  rewrite Ei in T1, T2, T4.
  exists l1, m1, (mask_at l1 m1 k1), (advanced l1 m1 k1), l2, m2, pv1, pv2,
         (zip_with PrimFloat.add a1 b1), (zip_with PrimFloat.add a2 b2),
         (map of_bool (mask_at l1 m1 k1)).
  split; [exact Es1|]. split; [apply advance_ok; assumption|].
  split; [exact Es2|].
  split; [cbn [loop]; rewrite (bind_ok _ _ _ _ _ Es1), (bind_ok _ _ _ _ _ Es2);
          reflexivity|].
  split; [rewrite F1, P1, E1; exact R1|]. split; [rewrite F1; exact T1|].
  split; [rewrite F2, P2, E2; exact R2|]. split; [rewrite F2; exact T2|].
  split; [rewrite F4; exact T4|].
  intros Hj.
  pose proof (entry2_advanced_stays l1 m1 k1 j Hj) as S2.
  pose proof (entry1_advanced_stays l1 m1 k1 (lnprior l1) j Hj) as Sa.
  pose proof (entry1_advanced_stays l1 m1 k1 (lnlike l1) j Hj) as Sb.
  unfold entry2 in S2. unfold entry1 in Sa, Sb.
  rewrite Hp2, Hp1' in S2. rewrite Ha2, Ha1' in Sa. rewrite Hb2, Hb1' in Sb.
  cbn in S2, Sa, Sb.
  split; [exact S2|].
  split; [rewrite !lookup_zip_with, Sa, Sb; reflexivity|].
  rewrite list_lookup_fmap, Hj. reflexivity.
Qed.

End Rows.

(** * From [__init__] to the first call, and [lnq0] after a rebuild *)

Section First.

Context `{ES : ExternalsShapes}.

Implicit Types (m : machine) (l : locals) (s : Sampler) (k : kde).

(** X16.  A sampler as [__init__] makes it, with evaluators that return
    one number per point, can be called with any [p0] of shape
    [(nwalkers, ndim)] and nothing else.  The call fits the first proposal
    to the points of [p0], before its first step and with the counter at
    zero; it returns with the counter at [iterations], each history
    [iterations] rows long, and has fitted, besides the first, the
    proposals of the steps at which the counter was a multiple of
    [update_interval]. *)
Theorem first_call_of_a_new_sampler (N D : nat) (f g : mat -> vec)
    (po : option pool) (vecs : list vec) (mats : list mat) (g0 : rng)
    (p0 : nat) (pv : mat) (iters ui : Z) :
  (forall x, length (f x) = length x) -> (forall x, length (g x) = length x) ->
  mats !! p0 = Some pv -> shape2 N D pv -> 0 <= iters -> ui <> 0 ->
  exists (l1 : locals) (m1 : machine) (l' : locals) (m' : machine),
    enter p0 None None None iters
      {| self := __init__ N D f g po; heap1 := vecs; heap2 := mats;
         gen := g0; fits := [] |} = (Ok l1, m1) /\
    _kde (self m1) = Some (OptimizedKDE pv po g0).1 /\
    fits m1 = [(0, pv)] /\
    heap1 m1 !! lnprior l1 = Some (f pv) /\
    heap1 m1 !! lnlike l1 = Some (g pv) /\
    heap1 m1 !! lnq l1 = Some (kde_call (OptimizedKDE pv po g0).1 pv) /\
    sample p0 None None None iters ui
      {| self := __init__ N D f g po; heap1 := vecs; heap2 := mats;
         gen := g0; fits := [] |} = (Ok l', m') /\
    iterations (self m') = iters /\
    history_lengths (self m') (Z.to_nat iters) /\
    nwalkers (self m') = N /\ dim (self m') = D /\
    fit_counts m' = 0 :: rebuild_counts 0 iters ui.
Proof.
  intros Cf Cg Hp Sp Hk Hui.
  set (m := {| self := __init__ N D f g po; heap1 := vecs; heap2 := mats;
               gen := g0; fits := [] |}).
  assert (callable p0 None None None m) as Hc.
  { split; try exact I.
    - split; assumption.
    - intros k E. discriminate.
    - exists pv. split; [exact Hp|exact Sp].
    - exists 0%nat. repeat split. }
  assert (history_lengths (self m) 0) as Hh by repeat split.
  destruct (sample_loop p0 None None None iters ui m 0 Hc Hh Hk Hui)
    as (Hs & Hh2 & Hit2 & Es).
  destruct (loop_ran ui (Z.to_nat iters) _ _ (0 + Z.to_nat iters) Hs Hh2)
    as (l' & m' & El & R); [lia|lia|exact Hui|].
  destruct (prepared_computed p0 None None None m pv Hp) as (Ca & Cb & Cq).
  destruct (prepared_self p0 None None None m)
    as (_ & _ & _ & _ & _ & _ & _ & _ & _ & Ekde).
  destruct (Cq eq_refl) as (k & Ek & Hq).
  rewrite (list_lookup_total_correct _ _ _ Hp) in Ekde.
  cbn [default _kde self m __init__ _pool gen] in Ekde.
  rewrite Ekde in Ek. injection Ek as <-.
  destruct (ran_static _ _ _ _ _ _ R) as [SN SD].
  exists (prepared p0 None None None m).1,
         (set_self (grown iters (self (prepared p0 None None None m).2))
            (prepared p0 None None None m).2), l', m'.
  split; [apply prepare_and_grow_ok with pv; assumption|].
  split; [exact Ekde|].
  split.
  { unfold prepared. rewrite (list_lookup_total_correct _ _ _ Hp). reflexivity. }
  split; [exact (Ca eq_refl)|]. split; [exact (Cb eq_refl)|].
  split; [exact Hq|].
  split; [rewrite Es; exact El|].
  split; [rewrite (ran_counter _ _ _ _ _ _ R), Hit2; lia|].
  split; [apply (ran_lengths _ _ _ _ _ _ R); exact Hh2|].
  split; [exact SN|]. split; [exact SD|].
  rewrite (ran_fits _ _ _ _ _ _ R).
  change (fit_counts (set_self _ ?x)) with (fit_counts x).
  rewrite prepared_fits, Hit2, Z2Nat.id by exact Hk. reflexivity.
Qed.

(** X17.  Once the proposal has been rebuilt, the array passed as [lnq0]
    is written no more.  In a call of [k1 + k2] steps in which the counter
    is a multiple of [update_interval] after the step [k1], the array
    [lnq0] holds when the call returns what it held after that step: the
    candidates accepted in the [k2] later steps are written to the array
    made at the rebuild, not to the caller's. *)
Theorem lnq0_is_left_after_a_rebuild p0 lnprior0 lnlike0 (a : nat) (k1 k2 : Z)
    ui m :
  callable p0 lnprior0 lnlike0 (Some a) m ->
  lnprior0 <> Some a -> lnlike0 <> Some a ->
  1 <= k1 -> 0 <= k2 -> ui <> 0 ->
  (iterations (self m) + k1) mod ui = 0 ->
  exists (l0 : locals) (m0 : machine) (l1 : locals) (m1 : machine)
         (l' : locals) (m' : machine),
    enter p0 lnprior0 lnlike0 (Some a) (k1 + k2) m = (Ok l0, m0) /\
    lnq l0 = a /\
    loop (Z.to_nat k1) ui l0 m0 = (Ok l1, m1) /\
    loop (Z.to_nat k2) ui l1 m1 = (Ok l', m') /\
    sample p0 lnprior0 lnlike0 (Some a) (k1 + k2) ui m = (Ok l', m') /\
    lnq l1 <> a /\ lnq l' <> a /\
    heap1 m' !! a = heap1 m1 !! a.
Proof.
  intros Hc Na Nb Hk1 Hk2 Hui Hmod.
  destruct (callable_p0 _ _ _ _ _ Hc) as (pv & Hp & _).
  destruct (callable_history _ _ _ _ _ Hc) as (hl & Hh & Hit).
  destruct (callable_lnq0 _ _ _ _ _ Hc) as (v & Hv & _).
  pose proof (lookup_lt_Some _ _ _ Hv) as Hlt.
  destruct (sample_loop p0 lnprior0 lnlike0 (Some a) (k1 + k2) ui m hl Hc Hh
              ltac:(lia) Hui) as (Hs & Hh2 & Hit2 & Es).
  destruct (prepared_heap1 p0 lnprior0 lnlike0 (Some a) m) as [ext Eh1].
  destruct (prepared_given p0 lnprior0 lnlike0 (Some a) m) as (Ga & Gb & Gq).
  destruct (prepared_fresh p0 lnprior0 lnlike0 (Some a) m) as (Fa & Fb & _).
  set (l0 := (prepared p0 lnprior0 lnlike0 (Some a) m).1) in *.
  set (mp := (prepared p0 lnprior0 lnlike0 (Some a) m).2) in *.
  set (m0 := set_self (grown (k1 + k2) (self mp)) mp) in *.
  assert (Z.to_nat (k1 + k2) = (Z.to_nat k1 + Z.to_nat k2)%nat) as En
    by (apply Z2Nat.inj_add; lia).
  rewrite En in Hh2.
  destruct (loop_ran ui (Z.to_nat k1) l0 m0 _ Hs Hh2)
    as (l1 & m1 & El1 & R1); [lia|lia|exact Hui|].
  pose proof (ran_lengths _ _ _ _ _ _ R1 _ Hh2) as Hh1.
  pose proof (ran_counter _ _ _ _ _ _ R1) as Hc1.
  destruct (ran_locals _ _ _ _ _ _ R1) as (_ & La & Lb).
  pose proof (ran_heap1 _ _ _ _ _ _ R1) as Hlen1.
  assert (length (heap1 m0) <= lnq l1)%nat as Hq1.
  { destruct (ran_lnq _ _ _ _ _ _ R1) as [[Q _]|[_ Q]]; [|exact Q].
    exfalso.
    assert (iterations (self m0) + k1 ∈
              rebuild_counts (iterations (self m0)) (Z.of_nat (Z.to_nat k1)) ui)
      as Hin.
    { apply elem_of_rebuild_counts. rewrite Hit2, <- Hit. split; [lia|exact Hmod]. }
    rewrite Q in Hin. apply not_elem_of_nil in Hin. exact Hin. }
  assert (a < length (heap1 m0))%nat as Hlt0.
  { change (heap1 m0) with (heap1 mp). rewrite Eh1, length_app. lia. }
  assert (a <> lnprior l0) as Na0.
  { destruct lnprior0 as [x|]; [rewrite (Ga x eq_refl); congruence|].
    specialize (Fa eq_refl). fold l0 in Fa. lia. }
  assert (a <> lnlike l0) as Nb0.
  { destruct lnlike0 as [x|]; [rewrite (Gb x eq_refl); congruence|].
    specialize (Fb eq_refl). fold l0 in Fb. lia. }
  destruct (loop_ran ui (Z.to_nat k2) l1 m1 _ (ran_shaped _ _ _ _ _ _ R1) Hh1)
    as (l' & m' & El' & R2); [lia|lia|exact Hui|].
  destruct (loop_frame1 ui (Z.to_nat k2) l1 m1 _ a (ran_shaped _ _ _ _ _ _ R1) Hh1)
    as (l2 & m2 & El2 & E); try lia; try congruence.
  rewrite El' in El2. injection El2 as <- <-.
  assert (lnq l' <> a) as Hq'.
  { destruct (ran_lnq _ _ _ _ _ _ R2) as [[_ Q]|[_ Q]]; [rewrite Q; lia|lia]. }
  exists l0, m0, l1, m1, l', m'.
  split; [apply prepare_and_grow_ok with pv; [exact Hp|lia]|].
  split; [apply Gq; reflexivity|].
  split; [exact El1|]. split; [exact El'|].
  split; [rewrite Es, En, loop_app, (bind_ok _ _ _ _ _ El1); exact El'|].
  split; [lia|]. split; [exact Hq'|exact E].
Qed.

End First.

(** * A [p0] with the wrong number of walkers *)

Section Walkers.

Context `{ES : ExternalsShapes}.

Implicit Types (m : machine) (l : locals) (s : Sampler) (k : kde).

(** X18.  [sample] does not check the shape of [p0] either.  With a [p0]
    of [n] points, [n] being neither [nwalkers] nor one (and there being
    more than one walker), a call that supplies no optional array fails in
    line 135 of its first step with the [ValueError] of the broadcast: the
    candidates are [nwalkers] points, the arrays computed from [p0] have
    [n] entries.  By then a sampler that had no proposal has been given
    one fitted to the points of [p0], which it keeps, and the histories
    are longer by [iterations] rows of zeros; the counter is as it was. *)
Theorem wrong_walker_count_fails_in_the_first_step p0 iters ui m (pv : mat) :
  contract (self m) ->
  heap2 m !! p0 = Some pv ->
  length pv <> nwalkers (self m) -> length pv <> 1%nat ->
  nwalkers (self m) <> 1%nat -> 1 <= iters ->
  exists (l1 : locals) (m1 m' : machine),
    enter p0 None None None iters m = (Ok l1, m1) /\
    heap1 m1 !! lnprior l1 = Some (_get_lnprior (self m) pv) /\
    length (_get_lnprior (self m) pv) = length pv /\
    advance l1 m1 = (Raise ValueError, m') /\
    sample p0 None None None iters ui m = (Raise ValueError, m') /\
    iterations (self m') = iterations (self m) /\
    _chain (self m') =
      _chain (self m) ++
      replicate (Z.to_nat iters) (zeros2 (nwalkers (self m)) (dim (self m))) /\
    accepted (self m') =
      accepted (self m) ++ replicate (Z.to_nat iters) (zeros1 (nwalkers (self m))) /\
    (_kde (self m) = None ->
       _kde (self m') = Some (OptimizedKDE pv (_pool (self m)) (gen m)).1 /\
       fits m' = fits m ++ [(iterations (self m), pv)]).
Proof.
  intros [Cp Cl] Hp Hn Hn1 HN Hk.
  destruct (grown_histories p0 None None None iters m)
    as (G1 & _ & _ & G4 & Git & GN & _ & Gk).
  destruct (prepared_self p0 None None None m)
    as (_ & _ & Ep & El & _ & _ & _ & _ & _ & Ekde).
  destruct (prepared_computed p0 None None None m pv Hp) as (Ca & Cb & Cq).
  specialize (Ca eq_refl). specialize (Cb eq_refl).
  destruct (Cq eq_refl) as (k & Ek & Hq).
  set (l1 := (prepared p0 None None None m).1) in *.
  set (m1 := (prepared p0 None None None m).2) in *.
  set (m2 := set_self (grown iters (self m1)) m1) in *.
  change (grown iters (self m1)) with (self m2) in G1, G4, Git, GN, Gk.
  assert (advance l1 m2 = (Raise ValueError, set_gen (gen_after_draw m2 k) m2))
    as Eadv.
  { apply advance_misfit with (_get_lnprior (self m) pv) (_get_lnlike (self m) pv)
                              (kde_call k pv); try assumption.
    - intros x. change (_get_lnprior (self m2)) with (_get_lnprior (self m1)).
      rewrite Ep. apply Cp.
    - intros x. change (_get_lnlike (self m2)) with (_get_lnlike (self m1)).
      rewrite El. apply Cl.
    - rewrite GN. exact HN.
    - left. rewrite GN, Cp. split; assumption. }
  exists l1, m2, (set_gen (gen_after_draw m2 k) m2).
  split; [apply prepare_and_grow_ok with pv; [exact Hp|lia]|].
  split; [exact Ca|]. split; [apply Cp|].
  split; [exact Eadv|].
  split.
  { rewrite (sample_unfold _ _ _ _ _ _ _ pv Hp) by lia. fold l1 m1 m2.
    destruct (Z.to_nat iters) as [|n] eqn:En; [lia|].
    simpl loop. apply bind_raise. unfold step. apply bind_raise. exact Eadv. }
  cbn [self fits set_gen].
  split; [exact Git|]. split; [exact G1|]. split; [exact G4|].
  intros Hnone. split.
  - rewrite Gk, Ekde, Hnone, (list_lookup_total_correct _ _ _ Hp). reflexivity.
  - unfold m2, m1, prepared. cbn [fits set_self].
    rewrite Hnone, (list_lookup_total_correct _ _ _ Hp). reflexivity.
Qed.

End Walkers.

(** * Calls made with rows to spare *)

Section Spared.

Context `{ES : ExternalsShapes}.

Implicit Types (m : machine) (l : locals) (s : Sampler) (k : kde).

Lemma spare_eq (e : Z) mx m :
  spare e mx m -> mx = set_self (grown e (self m)) m.
Proof.
  intros (Es & E1 & E2 & Eg & Ef). destruct mx. cbn in *. subst.
  reflexivity.
Qed.

Lemma grown_comm (a b : Z) s :
  0 <= a -> 0 <= b -> grown a (grown b s) = grown b (grown a s).
Proof.
  intros Ha Hb.
  rewrite <- (grown_add b a s Hb Ha), <- (grown_add a b s Ha Hb).
  rewrite Z.add_comm. reflexivity.
Qed.

(** Lines 95-112 do not look at the histories. *)
Lemma prepared_grown p0 lnprior0 lnlike0 lnq0 (e : Z) m :
  prepared p0 lnprior0 lnlike0 lnq0 (set_self (grown e (self m)) m) =
    ((prepared p0 lnprior0 lnlike0 lnq0 m).1,
     set_self (grown e (self (prepared p0 lnprior0 lnlike0 lnq0 m).2))
       (prepared p0 lnprior0 lnlike0 lnq0 m).2).
Proof.
  unfold prepared, built, alloc1.
  destruct lnq0, lnlike0, lnprior0, (_kde (self m)) eqn:Hk;
    cbn; rewrite ?Hk; reflexivity.
Qed.

Lemma last_grown_rows {A} (h : list A) (n : nat) (x : A) :
  (1 <= n)%nat -> last (h ++ replicate n x) = Some x.
Proof.
  intros Hn. destruct n as [|n]; [lia|].
  rewrite replicate_S_end, app_assoc. apply last_snoc.
Qed.

(** X19.  When each of the four histories ends with [e] rows of zeros
    that the counter does not account for, a call with arguments of the
    required shapes returns what it returns on the sampler without these
    rows: the same arrays at the same addresses, the same proposal,
    counter, random source and fits.  The histories are those of the
    other call followed by the [e] rows of zeros; so they stay [e] rows
    longer than the counter, and when [e >= 1] the last row of each is a
    row of zeros. *)
Theorem call_with_rows_to_spare p0 lnprior0 lnlike0 lnq0 iters ui (e : Z)
    mx m (hl : nat) :
  callable p0 lnprior0 lnlike0 lnq0 m -> history_lengths (self m) hl ->
  spare e mx m -> 0 <= e -> 0 <= iters -> ui <> 0 ->
  history_lengths (self mx) (hl + Z.to_nat e) /\
  iterations (self mx) = Z.of_nat hl /\
  exists (l' : locals) (m' mx' : machine),
    sample p0 lnprior0 lnlike0 lnq0 iters ui m = (Ok l', m') /\
    sample p0 lnprior0 lnlike0 lnq0 iters ui mx = (Ok l', mx') /\
    spare e mx' m' /\
    iterations (self mx') = Z.of_nat (hl + Z.to_nat iters) /\
    history_lengths (self m') (hl + Z.to_nat iters) /\
    history_lengths (self mx') (hl + Z.to_nat iters + Z.to_nat e) /\
    (1 <= e ->
       last (_chain (self mx')) =
         Some (zeros2 (nwalkers (self m)) (dim (self m))) /\
       last (_lnpost (self mx')) = Some (zeros1 (nwalkers (self m))) /\
       last (_lnprop (self mx')) = Some (zeros1 (nwalkers (self m))) /\
       last (accepted (self mx')) = Some (zeros1 (nwalkers (self m)))).
Proof.
  intros Hc Hh Hsp He Hk Hui.
  rewrite (spare_eq e mx m Hsp). clear Hsp mx.
  destruct (callable_p0 _ _ _ _ _ Hc) as (pv & Hp & _).
  destruct (callable_history _ _ _ _ _ Hc) as (hl' & Hh' & Hit).
  assert (hl' = hl) as ->.
  { destruct Hh as (L & _), Hh' as (L' & _). congruence. }
  split; [apply history_lengths_grown; exact Hh|].
  split; [exact Hit|].
  destruct (sample_loop p0 lnprior0 lnlike0 lnq0 iters ui m hl Hc Hh Hk Hui)
    as (Hs & Hh2 & Hit2 & Es).
  destruct (prepared_self p0 lnprior0 lnlike0 lnq0 m) as (EN & ED & _).
  set (l0 := (prepared p0 lnprior0 lnlike0 lnq0 m).1) in *.
  set (mp := (prepared p0 lnprior0 lnlike0 lnq0 m).2) in *.
  set (mA := set_self (grown iters (self mp)) mp) in *.
  set (mC := set_self (grown iters (grown e (self mp))) mp).
  assert (alike e l0 mC l0 mA) as Hal.
  { unfold alike, mC, mA. cbn [self gen fits heap1 heap2 set_self].
    split; [apply grown_comm; assumption|]. repeat split. }
  destruct (loop_alike ui (Z.to_nat iters) e l0 mC l0 mA (hl + Z.to_nat iters)
              Hal Hs Hh2)
    as (l1 & m1 & la & ma & El1 & Ela & Hal' & R1 & Ra); [lia|lia|exact Hui|].
  destruct Hal' as (Es' & Eg & Ef & Eh & Ea & Eb & Eq & E2).
  destruct (ran_locals _ _ _ _ _ _ R1) as (P1 & _).
  destruct (ran_locals _ _ _ _ _ _ Ra) as (Pa & _).
  destruct (ran_heap2 _ _ _ _ _ _ R1) as [Len1 F1].
  destruct (ran_heap2 _ _ _ _ _ _ Ra) as [Lena Fa].
  destruct (ran_static _ _ _ _ _ _ Ra) as [SN SD].
  assert (l1 = la) as ->.
  { destruct l1, la. cbn in *. congruence. }
  assert (history_lengths (self ma) (hl + Z.to_nat iters)) as Hha
    by (apply (ran_lengths _ _ _ _ _ _ Ra); exact Hh2).
  assert (nwalkers (self ma) = nwalkers (self m)) as SN'
    by (rewrite SN; exact EN).
  assert (dim (self ma) = dim (self m)) as SD'
    by (rewrite SD; exact ED).
  exists la, ma, m1.
  split; [rewrite Es; exact Ela|].
  split.
  { rewrite (sample_unfold _ _ _ _ _ _ _ pv) by (try exact Hp; lia).
    rewrite prepared_grown. exact El1. }
  split.
  { split; [exact Es'|]. split; [exact Eh|].
    split; [|split; assumption].
    apply list_eq. intros x.
    destruct (decide (x = p l0)) as [->|Hx].
    - rewrite <- P1 at 1. rewrite <- Pa. exact E2.
    - rewrite F1, Fa by exact Hx. reflexivity. }
  split.
  { rewrite Es'. change (iterations (grown e (self ma))) with (iterations (self ma)).
    rewrite (ran_counter _ _ _ _ _ _ Ra), Hit2. lia. }
  split; [exact Hha|].
  split; [rewrite Es'; apply history_lengths_grown; exact Hha|].
  intros He1. rewrite Es'. unfold grown.
  cbn [_chain _lnpost _lnprop accepted set_accepted set_lnprop set_lnpost
       set_chain nwalkers dim].
  rewrite SN', SD'.
  repeat split; apply last_grown_rows; lia.
Qed.

End Spared.

(** * What a call that fails in its first step leaves *)

Section Failed.

Context `{ES : ExternalsShapes}.

Implicit Types (m : machine) (l : locals) (s : Sampler) (k : kde).

(** A machine with the sampler that lines 95-112 leave, whatever the
    optional arrays of the call, and in which [p0] is the array it was,
    can be called with [p0] when the machine before the call could. *)
Lemma callable_prepared p0 lnprior0 lnlike0 lnq0 m mc :
  callable p0 None None None m ->
  self mc = self (prepared p0 lnprior0 lnlike0 lnq0 m).2 ->
  heap2 mc !! p0 = heap2 m !! p0 ->
  callable p0 None None None mc.
Proof.
  intros [[Cp Cl] Hk (pv & Hp & Sp) _ _ _ (hl & (L1 & L2 & L3 & L4) & Hit)]
         Es E2.
  destruct (prepared_self p0 lnprior0 lnlike0 lnq0 m)
    as (EN & ED & Ep & El & Eit & H1 & H2 & H3 & H4 & Ekde).
  rewrite <- Es in EN, ED, Ep, El, Eit, H1, H2, H3, H4, Ekde.
  split.
  - split; intros x; [rewrite Ep; apply Cp|rewrite El; apply Cl].
  - intros k Ek g'. rewrite EN, ED. rewrite Ekde in Ek. injection Ek as <-.
    destruct (_kde (self m)) as [k0|] eqn:Ek0; simpl.
    + apply (Hk k0 eq_refl).
    + rewrite (list_lookup_total_correct _ _ _ Hp).
      apply (draws_fit_rebuilt (self m)). exact Sp.
  - exists pv. rewrite E2, EN, ED. split; [exact Hp|exact Sp].
  - exact I.
  - exact I.
  - exact I.
  - exists hl. unfold history_lengths. rewrite H1, H2, H3, H4, Eit.
    repeat split; assumption.
Qed.

(** X20.  The call of C9, made on a sampler in the state a call requires
    with a [p0] of the required shape, leaves a machine with rows to
    spare: the sampler it leaves is a sampler in the state a call
    requires, whose counter and histories are those of before the call
    and in which [p0] is the array it was, with [iterations] rows of
    zeros more at the end of each history. *)
Theorem failed_call_leaves_rows_to_spare p0 lnprior0 lnlike0 lnq0 iters ui m :
  callable p0 None None None m ->
  named1 m lnprior0 -> named1 m lnlike0 -> named1 m lnq0 ->
  misfit m lnprior0 (nwalkers (self m)) \/
  misfit m lnlike0 (nwalkers (self m)) \/
  misfit m lnq0 (nwalkers (self m)) ->
  nwalkers (self m) <> 1%nat -> 1 <= iters ->
  exists (m' mc : machine),
    sample p0 lnprior0 lnlike0 lnq0 iters ui m = (Raise ValueError, m') /\
    spare iters m' mc /\
    callable p0 None None None mc /\
    iterations (self mc) = iterations (self m) /\
    _chain (self mc) = _chain (self m) /\
    _lnpost (self mc) = _lnpost (self m) /\
    _lnprop (self mc) = _lnprop (self m) /\
    accepted (self mc) = accepted (self m) /\
    heap2 mc !! p0 = heap2 m !! p0.
Proof.
  intros Hc Na Nb Nq Hmis Hn Hk.
  pose proof (callable_contract _ _ _ _ _ Hc) as [Cp Cl].
  destruct (callable_p0 _ _ _ _ _ Hc) as (pv & Hp & Sp).
  destruct (grown_histories p0 lnprior0 lnlike0 lnq0 iters m)
    as (_ & _ & _ & _ & _ & GN & _ & Gk).
  destruct (prepared_self p0 lnprior0 lnlike0 lnq0 m)
    as (EN & ED & Ep & El & Eit & E1 & E2 & E3 & E4 & Ekde).
  destruct (prepared_arrays p0 lnprior0 lnlike0 lnq0 m Na Nb Nq)
    as (a & b & q & Ha & Hb & Hq & Hlen).
  destruct (prepared_heap2 p0 lnprior0 lnlike0 lnq0 m) as [Eh2 _].
  set (l1 := (prepared p0 lnprior0 lnlike0 lnq0 m).1) in *.
  set (m1 := (prepared p0 lnprior0 lnlike0 lnq0 m).2) in *.
  set (m2 := set_self (grown iters (self m1)) m1) in *.
  change (grown iters (self m1)) with (self m2) in GN, Gk.
  destruct (Hlen (nwalkers (self m))) as (Ma & Mb & Mq).
  set (k := default (OptimizedKDE pv (_pool (self m)) (gen m)).1 (_kde (self m))).
  assert (advance l1 m2 = (Raise ValueError, set_gen (gen_after_draw m2 k) m2))
    as Eadv.
  { apply advance_misfit with a b q; try assumption.
    - intros x. change (_get_lnprior (self m2)) with (_get_lnprior (self m1)).
      rewrite Ep. apply Cp.
    - intros x. change (_get_lnlike (self m2)) with (_get_lnlike (self m1)).
      rewrite El. apply Cl.
    - rewrite Gk, Ekde, (list_lookup_total_correct _ _ _ Hp). reflexivity.
    - rewrite GN. exact Hn.
    - rewrite GN. destruct Hmis as [M|[M|M]]; [left; apply Ma|right; left; apply Mb
        |right; right; apply Mq]; exact M. }
  exists (set_gen (gen_after_draw m2 k) m2), (set_gen (gen_after_draw m2 k) m1).
  split.
  { rewrite (sample_unfold _ _ _ _ _ _ _ pv Hp) by lia. fold l1 m1 m2.
    destruct (Z.to_nat iters) as [|n] eqn:En; [lia|].
    simpl loop. apply bind_raise. unfold step. apply bind_raise. exact Eadv. }
  split; [repeat split|].
  assert (heap2 m1 !! p0 = heap2 m !! p0) as Ep0
    by (rewrite Eh2, Hp; apply lookup_app_l_Some; exact Hp).
  split; [apply (callable_prepared p0 lnprior0 lnlike0 lnq0 m);
          [exact Hc|reflexivity|exact Ep0]|].
  cbn [self heap2 set_gen].
  split; [exact Eit|]. split; [exact E1|]. split; [exact E2|].
  split; [exact E3|]. split; [exact E4|]. exact Ep0.
Qed.

End Failed.

(** * An optional array of one entry *)

(** An operand of one entry is used for every entry of the other. *)
Lemma broadcast2_one_r {A B C} (f : A -> B -> C) (a : list A) (y : B) :
  length a <> 1%nat ->
  broadcast2 f a [y] = Ok (zip_with f a (replicate (length a) y)).
Proof.
  intros Ha. unfold broadcast2.
  destruct (Nat.eqb_spec (length a) (length [y])) as [E|_]; [simpl in E; lia|].
  rewrite zip_with_replicate_r_eq by reflexivity.
  destruct a as [|x [|x' a]]; simpl in *; [reflexivity|lia|reflexivity].
Qed.

(** Line 135 when [lnprior] has one entry. *)
Lemma ratio_one_entry (lpp llp b q lqp : vec) (v : float) n :
  length lpp = n -> length llp = n -> length b = n -> length q = n ->
  length lqp = n -> n <> 1%nat ->
  ln_mh_ratio_of lpp llp [v] b q lqp =
    Ok (zip_with PrimFloat.sub
          (zip_with PrimFloat.add
             (zip_with PrimFloat.sub
                (zip_with PrimFloat.sub (zip_with PrimFloat.add lpp llp)
                   (replicate n v)) b) q) lqp).
Proof.
  intros E1 E2 E3 E4 E5 Hn. unfold ln_mh_ratio_of, add, sub.
  rewrite broadcast2_same by congruence. simpl.
  assert (length (zip_with PrimFloat.add lpp llp) = n) as L1
    by (rewrite length_zip_with; lia).
  rewrite broadcast2_one_r by (rewrite L1; exact Hn). rewrite L1. simpl.
  rewrite broadcast2_same
    by (rewrite !length_zip_with, length_replicate; lia). simpl.
  rewrite broadcast2_same
    by (rewrite !length_zip_with, length_replicate; lia). simpl.
  rewrite broadcast2_same
    by (rewrite !length_zip_with, length_replicate; lia).
  reflexivity.
Qed.

Lemma ratio_one_entry_length (lpp llp b q lqp r : vec) (v : float) n :
  length lpp = n -> length llp = n -> length b = n -> length q = n ->
  length lqp = n -> n <> 1%nat ->
  ln_mh_ratio_of lpp llp [v] b q lqp = Ok r -> length r = n.
Proof.
  intros E1 E2 E3 E4 E5 Hn Er.
  rewrite (ratio_one_entry _ _ _ _ _ v n) in Er by assumption.
  injection Er as <-. rewrite !length_zip_with, length_replicate. lia.
Qed.

Section OneEntry.

Context `{ES : ExternalsShapes}.

Implicit Types (m : machine) (l : locals) (s : Sampler) (k : kde).

(** A step in which [lnprior] has one entry and a walker is accepted:
    line 147 moves the accepted walkers, line 148 raises. *)
Lemma advance_one_entry l m k (pv : mat) (v : float) (b q r : vec) :
  contract (self m) -> draws_fit (self m) k -> _kde (self m) = Some k ->
  heap2 m !! p l = Some pv -> shape2 (nwalkers (self m)) (dim (self m)) pv ->
  heap1 m !! lnprior l = Some [v] ->
  heap1 m !! lnlike l = Some b -> heap1 m !! lnq l = Some q ->
  nwalkers (self m) <> 1%nat ->
  let c := candidates_at m k in
  ln_mh_ratio_of (lnprior_p c) (lnlike_p c) [v] b q (lnq_p c) = Ok r ->
  length r = nwalkers (self m) ->
  let acc := verdicts r (variates r (gen_after_draw m k)) in
  any acc = true ->
  advance l m =
    (Raise IndexError,
     set_heap2 (<[p l := masked_copy pv acc (p_p c)]> (heap2 m))
       (set_gen (random_rand (count (worse_of r)) (gen_after_draw m k)).2 m)).
Proof.
  intros Hc Hd Hk Hp Sp Ha Hb Hq Hn c Er Lr acc Hany.
  destruct (candidates_shapes m k Hc Hd) as (Spp & E1 & E2 & E3).
  fold c in Spp, E1, E2, E3.
  assert (length acc = nwalkers (self m)) as Lacc
    by (unfold acc; rewrite length_verdicts; exact Lr).
  unfold advance.
  rewrite (bind_ok _ _ _ _ _ (propose_ok m k Hk)). fold c.
  set (m1 := set_gen (gen_after_draw m k) m).
  rewrite (bind_ok (load1 (lnprior l)) _ m1 [v] m1) by (apply load1_ok; exact Ha).
  rewrite (bind_ok (load1 (lnlike l)) _ m1 b m1) by (apply load1_ok; exact Hb).
  rewrite (bind_ok (load1 (lnq l)) _ m1 q m1) by (apply load1_ok; exact Hq).
  rewrite (bind_ok (lift _) _ m1 r m1) by (unfold lift; rewrite Er; reflexivity).
  rewrite (bind_ok _ _ _ _ _ (accept_mask_ok r m1)).
  change (gen m1) with (gen_after_draw m k). fold acc.
  set (m2 := set_gen _ m1).
  apply bind_raise. unfold update. rewrite Hany.
  rewrite (bind_ok (load2 (p l)) _ m2 pv m2) by (apply load2_ok; exact Hp).
  unfold lift at 1.
  rewrite (setitem_mask_rows_copy (nwalkers (self m)) (dim (self m)))
    by assumption.
  unfold bind at 1. unfold bind at 1. unfold store2 at 1.
  set (m3 := set_heap2 _ m2).
  rewrite (bind_ok (load1 (lnprior l)) _ m3 [v] m3) by (apply load1_ok; exact Ha).
  apply bind_raise. unfold lift, getitem_mask.
  rewrite Lacc, E1, Nat.eqb_refl. simpl rbind. unfold setitem_mask.
  rewrite Lacc. simpl length.
  destruct (Nat.eqb_spec (nwalkers (self m)) 1) as [E|_]; [contradiction|].
  reflexivity.
Qed.

(** The loop of a call with an array of one entry as [lnprior0] and the
    other two arrays computed: where it starts. *)
Lemma entered_one_entry p0 (a : nat) iters m (v : float) :
  callable p0 None None None m -> heap1 m !! a = Some [v] -> 0 <= iters ->
  let l1 := (prepared p0 (Some a) None None m).1 in
  let m1 := (prepared p0 (Some a) None None m).2 in
  let m2 := set_self (grown iters (self m1)) m1 in
  exists (k : kde) (pv : mat),
    enter p0 (Some a) None None iters m = (Ok l1, m2) /\
    heap2 m !! p0 = Some pv /\ heap2 m2 !! p0 = Some pv /\
    heap2 m2 !! p l1 = Some pv /\ p l1 <> p0 /\
    shape2 (nwalkers (self m2)) (dim (self m2)) pv /\
    contract (self m2) /\ _kde (self m2) = Some k /\ draws_fit (self m2) k /\
    lnprior l1 = a /\ heap1 m2 !! lnprior l1 = Some [v] /\
    heap1 m2 !! lnlike l1 = Some (_get_lnlike (self m) pv) /\
    length (_get_lnlike (self m) pv) = nwalkers (self m2) /\
    heap1 m2 !! lnq l1 = Some (kde_call k pv) /\
    length (kde_call k pv) = nwalkers (self m2).
Proof.
  intros Hc Ha Hk l1 m1 m2.
  destruct (callable_p0 _ _ _ _ _ Hc) as (pv & Hp & Sp).
  destruct (prepared_heap2 p0 (Some a) None None m) as [Eh2 Ep2].
  rewrite (list_lookup_total_correct _ _ _ Hp) in Eh2.
  assert (heap2 m1 !! p0 = heap2 m !! p0) as Ep0
    by (unfold m1; rewrite Eh2, Hp; apply lookup_app_l_Some; exact Hp).
  pose proof (callable_prepared p0 (Some a) None None m m1 Hc eq_refl Ep0)
    as Hc1.
  destruct (grown_histories p0 (Some a) None None iters m)
    as (_ & _ & _ & _ & _ & GN & GD & Gk).
  destruct (prepared_self p0 (Some a) None None m)
    as (EN & ED & Ep & El & _).
  destruct (prepared_computed p0 (Some a) None None m pv Hp) as (_ & Cb & Cq).
  specialize (Cb eq_refl). destruct (Cq eq_refl) as (k & Ek & Hq).
  destruct (prepared_heap1 p0 (Some a) None None m) as [ext Eh1].
  pose proof (callable_contract _ _ _ _ _ Hc1) as Hct.
  pose proof (callable_kde _ _ _ _ _ Hc1) as Hkd.
  fold l1 m1 in Eh2, Ep2, EN, ED, Ep, El, Cb, Ek, Hq, Eh1, GN, GD, Gk.
  change (grown iters (self m1)) with (self m2) in GN, GD, Gk.
  exists k, pv.
  split; [apply prepare_and_grow_ok with pv; [exact Hp|lia]|].
  split; [exact Hp|]. split; [rewrite <- Hp; exact Ep0|].
  split.
  { change (heap2 m2) with (heap2 m1). rewrite Eh2, Ep2.
    apply list_lookup_middle. reflexivity. }
  split; [rewrite Ep2; apply lookup_lt_Some in Hp; lia|].
  split; [rewrite GN, GD; exact Sp|].
  split; [exact Hct|]. split; [rewrite Gk; exact Ek|].
  split; [intros g; rewrite GN, GD, <- EN, <- ED; apply (Hkd k Ek)|].
  split; [reflexivity|].
  split.
  { change (heap1 m2) with (heap1 m1). rewrite Eh1.
    apply lookup_app_l_Some. exact Ha. }
  split; [exact Cb|].
  split; [destruct Hct as [_ Cl]; rewrite <- El, Cl, GN; apply Sp|].
  split; [exact Hq|]. rewrite kde_call_shape, GN. apply Sp.
Qed.

(** X21.  An array of one entry passed as [lnprior0] is not rejected:
    lines 95-122 take it as it is, and line 135 of the first step
    broadcasts it, the ratio of every walker being computed with the one
    entry as its log prior. *)
Theorem one_entry_lnprior0_is_broadcast p0 (a : nat) iters m (v : float) :
  callable p0 None None None m -> heap1 m !! a = Some [v] ->
  nwalkers (self m) <> 1%nat -> 0 <= iters ->
  exists (l1 : locals) (m1 : machine) (k : kde) (b q r : vec),
    enter p0 (Some a) None None iters m = (Ok l1, m1) /\
    lnprior l1 = a /\ heap1 m1 !! lnprior l1 = Some [v] /\
    heap1 m1 !! lnlike l1 = Some b /\ heap1 m1 !! lnq l1 = Some q /\
    _kde (self m1) = Some k /\
    let c := candidates_at m1 k in
    ln_mh_ratio_of (lnprior_p c) (lnlike_p c) [v] b q (lnq_p c) = Ok r /\
    r = ratios c (replicate (nwalkers (self m)) v) b q /\
    length r = nwalkers (self m) /\
    forall j x1 x2 x4 x5 x6,
      lnprior_p c !! j = Some x1 -> lnlike_p c !! j = Some x2 ->
      b !! j = Some x4 -> q !! j = Some x5 -> lnq_p c !! j = Some x6 ->
      r !! j = Some (x1 + x2 - v - x4 + x5 - x6)%float.
Proof.
  intros Hc Ha Hn Hk.
  destruct (entered_one_entry p0 a iters m v Hc Ha Hk)
    as (k & pv & Ee & Hp & _ & _ & _ & _ & Hct & Ek & Hd & El & Ha2 & Hb & Lb
        & Hq & Lq).
  destruct (grown_histories p0 (Some a) None None iters m)
    as (_ & _ & _ & _ & _ & GN & _).
  set (l1 := (prepared p0 (Some a) None None m).1) in *.
  set (m1 := (prepared p0 (Some a) None None m).2) in *.
  set (m2 := set_self (grown iters (self m1)) m1) in *.
  change (grown iters (self m1)) with (self m2) in GN.
  destruct (candidates_shapes m2 k Hct Hd) as (_ & E1 & E2 & E3).
  pose proof (ratio_one_entry _ _ _ _ _ v (nwalkers (self m2)) E1 E2 Lb Lq E3)
    as Er.
  rewrite GN in Er at 1. specialize (Er Hn).
  eexists l1, m2, k, _, _, _.
  split; [exact Ee|]. split; [exact El|]. split; [exact Ha2|].
  split; [exact Hb|]. split; [exact Hq|]. split; [exact Ek|].
  split; [exact Er|]. split; [rewrite GN; reflexivity|].
  split.
  { rewrite !length_zip_with, length_replicate, E1, E2, E3, Lb, Lq. lia. }
  intros j x1 x2 x4 x5 x6 H1 H2 H4 H5 H6.
  assert (j < nwalkers (self m2))%nat as Hj
    by (rewrite <- E1; eapply lookup_lt_Some; exact H1).
  rewrite !lookup_zip_with, H1, H2, H4, H5, H6.
  rewrite lookup_replicate_2 by exact Hj. reflexivity.
Qed.

(** X22.  When the first step of such a call accepts a walker, line 147
    moves the accepted walkers to their candidates in the array [p], the
    copy of [p0], and line 148 raises [IndexError]: the mask has
    [nwalkers] entries, the array one.  The call stops there: the arrays
    of scalars are as lines 95-112 left them, the counter is as before
    the call and the histories are longer by [iterations] rows of zeros,
    rows to spare over a sampler that can be called with [p0] again. *)
Theorem one_entry_lnprior0_fails_at_the_update p0 (a : nat) iters ui m l1 m1 k
    (v : float) (pv : mat) (b q r : vec) :
  callable p0 None None None m -> heap1 m !! a = Some [v] ->
  nwalkers (self m) <> 1%nat -> 1 <= iters ->
  enter p0 (Some a) None None iters m = (Ok l1, m1) ->
  _kde (self m1) = Some k -> heap2 m1 !! p l1 = Some pv ->
  heap1 m1 !! lnlike l1 = Some b -> heap1 m1 !! lnq l1 = Some q ->
  ln_mh_ratio_of (lnprior_p (candidates_at m1 k)) (lnlike_p (candidates_at m1 k))
    [v] b q (lnq_p (candidates_at m1 k)) = Ok r ->
  any (verdicts r (variates r (gen_after_draw m1 k))) = true ->
  let c := candidates_at m1 k in
  let acc := verdicts r (variates r (gen_after_draw m1 k)) in
  exists (m' mc : machine),
    advance l1 m1 = (Raise IndexError, m') /\
    sample p0 (Some a) None None iters ui m = (Raise IndexError, m') /\
    heap2 m' !! p l1 = Some (masked_copy pv acc (p_p c)) /\
    (forall j, acc !! j = Some true ->
               masked_copy pv acc (p_p c) !! j = p_p c !! j) /\
    heap2 m' !! p0 = heap2 m !! p0 /\
    heap1 m' = heap1 m1 /\ self m' = self m1 /\
    iterations (self m') = iterations (self m) /\
    spare iters m' mc /\ callable p0 None None None mc.
Proof.
  intros Hc Ha Hn Hk Ee Ek Hp1 Hb Hq Er Hany c acc.
  destruct (entered_one_entry p0 a iters m v Hc Ha ltac:(lia))
    as (k' & pv' & Ee' & Hp & Hp0 & Hp2 & Hne & Sp & Hct & Ek' & Hd & El & Ha2
        & Hb' & Lb & Hq' & Lq).
  destruct (grown_histories p0 (Some a) None None iters m)
    as (_ & _ & _ & _ & Git & GN & _).
  set (l0 := (prepared p0 (Some a) None None m).1) in *.
  set (m0 := (prepared p0 (Some a) None None m).2) in *.
  set (m2 := set_self (grown iters (self m0)) m0) in *.
  change (grown iters (self m0)) with (self m2) in Git, GN.
  assert (l1 = l0 /\ m1 = m2) as [-> ->].
  { rewrite Ee' in Ee. injection Ee as <- <-. split; reflexivity. }
  assert (k' = k) as -> by congruence.
  assert (pv' = pv) as -> by congruence.
  assert (b = _get_lnlike (self m) pv) as -> by congruence.
  assert (q = kde_call k pv) as -> by congruence.
  destruct (candidates_shapes m2 k Hct Hd) as (Spp & E1 & E2 & E3).
  assert (nwalkers (self m2) <> 1%nat) as Hn2 by (rewrite GN; exact Hn).
  pose proof (ratio_one_entry_length _ _ _ _ _ r v (nwalkers (self m2))
                E1 E2 Lb Lq E3 Hn2 Er) as Lr.
  pose proof (advance_one_entry l0 m2 k pv v _ _ r Hct Hd Ek Hp1 Sp Ha2 Hb Hq
                Hn2 Er Lr Hany) as Eadv.
  fold c acc in Eadv.
  match type of Eadv with
  | _ = (_, ?x) => exists x, (set_self (self m0) x)
  end.
  split; [exact Eadv|].
  split.
  { rewrite (sample_unfold _ _ _ _ _ _ _ pv Hp) by lia. fold l0 m0 m2.
    destruct (Z.to_nat iters) as [|n] eqn:En; [lia|].
    simpl loop. apply bind_raise. unfold step. apply bind_raise. exact Eadv. }
  cbn [self heap1 heap2 gen fits set_heap2 set_gen set_self].
  split; [apply list_lookup_insert_eq; eapply lookup_lt_Some; exact Hp1|].
  split.
  { intros j Hj. destruct Sp as [Lp _], Spp as [Lpp _].
    assert (length acc = nwalkers (self m2)) as Lacc
      by (unfold acc; rewrite length_verdicts; exact Lr).
    apply (masked_copy_lookup pv (p_p c) acc j true);
      [congruence|fold c in Lpp; congruence|exact Hj]. }
  assert (<[p l0 := masked_copy pv acc (p_p c)]> (heap2 m2) !! p0 = heap2 m !! p0)
    as Ep0.
  { rewrite list_lookup_insert_ne by exact Hne. rewrite Hp0, Hp. reflexivity. }
  split; [exact Ep0|].
  split; [reflexivity|]. split; [reflexivity|]. split; [exact Git|].
  split; [repeat split|].
  apply (callable_prepared p0 (Some a) None None m);
    [exact Hc|reflexivity|exact Ep0].
Qed.

End OneEntry.

(** ** The scripted proposal on concrete runs *)

Module ScriptedRuns.

Import Scripted.

Lemma length_read n g : length (read n g) = n.
Proof.
  unfold read. rewrite length_take, length_app, length_replicate. lia.
Qed.

#[export] Instance shapes : ExternalsShapes.
Proof.
  split.
  - intros n g. apply length_read.
  - intros k x. apply length_map.
  - intros k n g. simpl. rewrite length_map. apply length_read.
  - intros pts po g d n g' Hne Hw. simpl.
    destruct Hw as [|r pts' Hr _]; [congruence|]. simpl.
    apply Forall_fmap, Forall_true. intros x. simpl.
    rewrite length_map. exact Hr.
Qed.

Lemma contract_sampler (m : machine) :
  _get_lnprior (self m) = lnpriorfn -> _get_lnlike (self m) = lnlikefn ->
  contract (self m).
Proof.
  intros E1 E2. unfold contract. rewrite E1, E2.
  split; intros x; apply length_map.
Qed.

Lemma draws_fit_width (s : Sampler) (k : mat) :
  length (hd [] k) = dim s -> draws_fit s k.
Proof.
  intros E g. simpl. apply Forall_fmap, Forall_true. intros x. simpl.
  rewrite length_map. exact E.
Qed.

Lemma shape2_intro n d (a : mat) :
  length a = n -> forallb (fun r => (length r =? d)%nat) a = true -> shape2 n d a.
Proof.
  intros L F. split; [exact L|]. clear L.
  induction a as [|r a IH]; [constructor|].
  simpl in F. apply andb_true_iff in F as [Fr F].
  constructor; [apply Nat.eqb_eq; exact Fr|apply IH; exact F].
Qed.

Lemma primed_ready : ready at_loop primed.
Proof.
  split; [split|].
  - apply contract_sampler; reflexivity.
  - eexists. split; [reflexivity|]. apply draws_fit_width. reflexivity.
  - eexists. split; [reflexivity|]. apply shape2_intro; reflexivity.
  - eexists. split; reflexivity.
  - eexists. split; reflexivity.
  - eexists. split; reflexivity.
  - exists 1%nat. split; [repeat split|]. vm_compute. split; [discriminate|reflexivity].
Qed.

Lemma primed_nan_ready : ready at_loop primed_nan.
Proof.
  split; [split|].
  - apply contract_sampler; reflexivity.
  - eexists. split; [reflexivity|]. apply draws_fit_width. reflexivity.
  - eexists. split; [reflexivity|]. apply shape2_intro; reflexivity.
  - eexists. split; reflexivity.
  - eexists. split; reflexivity.
  - eexists. split; reflexivity.
  - exists 1%nat. split; [repeat split|]. vm_compute. split; [discriminate|reflexivity].
Qed.

Lemma boot_callable n vecs mats g p0 (pv : mat) lnprior0 lnlike0 lnq0 :
  mats !! p0 = Some pv -> length pv = n ->
  forallb (fun r => (length r =? 1)%nat) pv = true ->
  given1 (boot n vecs mats g) lnprior0 n ->
  given1 (boot n vecs mats g) lnlike0 n ->
  given1 (boot n vecs mats g) lnq0 n ->
  callable p0 lnprior0 lnlike0 lnq0 (boot n vecs mats g).
Proof.
  intros Hp Lp Wp Ga Gb Gq. split; try assumption.
  - apply contract_sampler; reflexivity.
  - intros k Hk. discriminate.
  - exists pv. split; [exact Hp|]. apply shape2_intro; assumption.
  - exists 0%nat. repeat split.
Qed.

Lemma start_callable : callable 0 None None None start.
Proof. apply boot_callable with [[2]; [1]]%float; try reflexivity; exact I. Qed.

Lemma start_with_lnq_callable : callable 0 None None (Some 0%nat) start_with_lnq.
Proof.
  apply boot_callable with [[2]; [1]]%float; try reflexivity; try exact I.
  eexists. split; reflexivity.
Qed.




(** C8 on [primed_nan] with [update_interval = 2]: the second walker,
    whose ratio is [nan]; the one step of the call does not rebuild the
    proposal. *)
Lemma nan_ratio_rejects_witness :
  PrimFloat.ltb 0 nan = false /\
  (forall y, PrimFloat.ltb y nan = false) /\
  exists (acc : list bool) (m1 : machine) (l' : locals) (m' : machine)
         (flags : vec),
    advance at_loop primed_nan = (Ok acc, m1) /\
    step 2 at_loop primed_nan = (Ok l', m') /\
    acc !! 1%nat = Some false /\
    accepted (self m') !! Z.to_nat (iterations (self primed_nan)) = Some flags /\
    flags !! 1%nat = Some 0%float /\
    entry2 m' (p l') 1 = entry2 primed_nan (p at_loop) 1 /\
    entry1 m' (lnprior l') 1 = entry1 primed_nan (lnprior at_loop) 1 /\
    entry1 m' (lnlike l') 1 = entry1 primed_nan (lnlike at_loop) 1 /\
    entry1 m1 (lnq at_loop) 1 = entry1 primed_nan (lnq at_loop) 1 /\
    (due 2 m1 = false ->
     entry1 m' (lnq l') 1 = entry1 primed_nan (lnq at_loop) 1) /\
    (due 2 m1 = true ->
       lnq l' = length (heap1 m1) /\
       exists (pv : mat) (k' : kde),
         heap2 m1 !! p at_loop = Some pv /\ _kde (self m') = Some k' /\
         heap1 m' !! lnq l' = Some (kde_call k' pv) /\
         entry1 m' (lnq l') 1 = kde_call k' pv !! 1%nat).
Proof.
  apply (nan_ratio_rejects 2 at_loop primed_nan fitted_nan
           [0; neg_infinity]%float [-1; 2]%float [-0; -3]%float
           [0; nan]%float 1 nan).
  - exact primed_nan_ready.
  - vm_compute. reflexivity.
  - vm_compute. reflexivity.
  - vm_compute. reflexivity.
  - vm_compute. reflexivity.
  - lia.
  - vm_compute. reflexivity.
  - vm_compute. reflexivity.
  - vm_compute. reflexivity.
Defined.

(** C8 as claimed fails on [primed_nan] with [update_interval = 1]: the
    second walker has the ratio [nan] and is rejected, its position [-2],
    its log prior [-inf] and its log likelihood [2] are kept, and lines
    146-150 keep its log proposal density [-3]; but the step ends with
    the counter at [1], rebuilds the proposal on the positions [3] and
    [-2], and the walker's log proposal density is [-5] after it. *)
Lemma nan_walker_rescored_at_a_rebuild :
  ratio_at at_loop primed_nan fitted_nan = [0; nan]%float /\
  (advance at_loop primed_nan).1 = Ok [true; false] /\
  entry2 primed_nan (p at_loop) 1 = Some [-2]%float /\
  entry1 primed_nan (lnq at_loop) 1 = Some (-3)%float /\
  entry1 (after (advance at_loop) primed_nan) (lnq at_loop) 1 = Some (-3)%float /\
  due 1 (after (advance at_loop) primed_nan) = true /\
  (step 1 at_loop primed_nan).1 =
    Ok {| p := 1; lnprior := 0; lnlike := 1; lnq := 3 |} /\
  entry2 (after (step 1 at_loop) primed_nan) 1 1 = Some [-2]%float /\
  entry1 (after (step 1 at_loop) primed_nan) 3 1 = Some (-5)%float.
Proof. vm_compute. repeat split. Qed.

(** C3 as claimed fails on [primed] with [update_interval = 1]: the second
    walker is rejected, and its log proposal density, [-1] before the step,
    is [-0] after it, the density under the proposal rebuilt at the end of
    the step. *)
Lemma rejected_walker_rescored :
  (advance at_loop primed).1 = Ok [true; false] /\
  entry1 primed (lnq at_loop) 1 = Some (-1)%float /\
  (step 1 at_loop primed).1 =
    Ok {| p := 1; lnprior := 0; lnlike := 1; lnq := 3 |} /\
  entry1 (after (step 1 at_loop) primed) 3 1 = Some (-0)%float.
Proof. vm_compute. repeat split. Qed.

(** C3 as the code has it, on [primed]: the second walker. *)
Lemma rejected_walker_kept_witness :
  let c := candidates_at primed fitted in
  exists (acc : list bool) (m1 : machine) (l' : locals) (m' : machine),
    advance at_loop primed = (Ok acc, m1) /\
    step 1 at_loop primed = (Ok l', m') /\
    p l' = p at_loop /\ lnprior l' = lnprior at_loop /\
    lnlike l' = lnlike at_loop /\
    (acc !! 1%nat = Some false ->
       entry2 m' (p l') 1 = entry2 primed (p at_loop) 1 /\
       entry1 m' (lnprior l') 1 = entry1 primed (lnprior at_loop) 1 /\
       entry1 m' (lnlike l') 1 = entry1 primed (lnlike at_loop) 1 /\
       entry1 m1 (lnq at_loop) 1 = entry1 primed (lnq at_loop) 1) /\
    (acc !! 1%nat = Some true ->
       entry2 m' (p l') 1 = p_p c !! 1%nat /\
       (NoDup [lnprior at_loop; lnlike at_loop; lnq at_loop] ->
          entry1 m' (lnprior l') 1 = lnprior_p c !! 1%nat /\
          entry1 m' (lnlike l') 1 = lnlike_p c !! 1%nat /\
          entry1 m1 (lnq at_loop) 1 = lnq_p c !! 1%nat)) /\
    (due 1 m1 = false ->
       lnq l' = lnq at_loop /\
       entry1 m' (lnq l') 1 = entry1 m1 (lnq at_loop) 1) /\
    (due 1 m1 = true ->
       lnq l' = length (heap1 m1) /\
       exists (pv : mat) (k' : kde),
         heap2 m1 !! p at_loop = Some pv /\ _kde (self m') = Some k' /\
         heap1 m' !! lnq l' = Some (kde_call k' pv)).
Proof.
  apply (rejected_walker_kept 1 at_loop primed fitted 1).
  - exact primed_ready.
  - vm_compute. reflexivity.
  - lia.
Defined.

(** C6 on [primed] with [update_interval = 1]. *)
Lemma rebuild_rescores_witness :
  exists (acc : list bool) (m1 : machine) (l' : locals) (m' : machine)
         (pv : mat),
    advance at_loop primed = (Ok acc, m1) /\
    step 1 at_loop primed = (Ok l', m') /\
    rebuild at_loop m1 = (Ok l', m') /\
    heap2 m1 !! p at_loop = Some pv /\
    let k' := (OptimizedKDE pv (_pool (self m1)) (gen m1)).1 in
    _kde (self m') = Some k' /\
    heap1 m' !! lnq l' = Some (kde_call k' pv) /\
    length (kde_call k' pv) = nwalkers (self primed) /\
    p l' = p at_loop /\ lnprior l' = lnprior at_loop /\
    lnlike l' = lnlike at_loop /\
    heap2 m' = heap2 m1 /\
    heap1 m' !! lnprior l' = heap1 m1 !! lnprior at_loop /\
    heap1 m' !! lnlike l' = heap1 m1 !! lnlike at_loop /\
    (forall x, (x < length (heap1 m1))%nat -> heap1 m' !! x = heap1 m1 !! x).
Proof.
  apply (rebuild_rescores 1 at_loop primed fitted).
  - exact primed_ready.
  - vm_compute. reflexivity.
  - lia.
  - vm_compute. reflexivity.
Defined.



(** C5 as claimed fails on [start] with [update_interval = 2]: a first call
    of one step fits the first proposal, with the counter at [0], and
    leaves the counter at [1]; a second call of one step, from the
    positions the first returned, rebuilds the proposal after its first
    step, the counter being [2] then. *)
Lemma rebuild_after_first_step_of_a_call :
  (sample 0 None None None 1 2 start).1 =
    Ok {| p := 1; lnprior := 0; lnlike := 1; lnq := 2 |} /\
  iterations (self (after (sample 0 None None None 1 2) start)) = 1 /\
  fit_counts (after (sample 0 None None None 1 2) start) = [0] /\
  (sample 1 None None None 1 2 (after (sample 0 None None None 1 2) start)).1 =
    Ok {| p := 2; lnprior := 3; lnlike := 4; lnq := 6 |} /\
  fit_counts
    (after (sample 1 None None None 1 2)
       (after (sample 0 None None None 1 2) start)) = [0; 2].
Proof. vm_compute. repeat split. Qed.

(** C5 as the code has it, on [start]. *)
Lemma proposal_fits_of_a_call_witness :
  let c := iterations (self start) in
  exists (l' : locals) (m' : machine),
    sample 0 None None None 1 2 start = (Ok l', m') /\
    fit_counts m' =
      fit_counts start ++
      match _kde (self start) with None => [c] | Some _ => [] end ++
      rebuild_counts c 1 2 /\
    (forall x, x ∈ rebuild_counts c 1 2 <-> c < x <= c + 1 /\ x mod 2 = 0).
Proof.
  apply (proposal_fits_of_a_call 0 None None None 1 2 start).
  - exact start_callable.
  - lia.
  - lia.
Defined.

(** C7 as claimed fails on [start]: in a call of two steps, after the
    first step the histories have two rows and the counter is [1]. *)
Lemma history_longer_than_counter_in_a_call :
  (enter 0 None None None 2 start).1 = Ok at_loop /\
  length (_chain (self (after (enter 0 None None None 2) start))) = 2%nat /\
  iterations (self (after (enter 0 None None None 2) start)) = 0 /\
  (loop 1 2 at_loop (after (enter 0 None None None 2) start)).1 = Ok at_loop /\
  length (_chain (self (after (loop 1 2 at_loop)
                          (after (enter 0 None None None 2) start)))) = 2%nat /\
  iterations (self (after (loop 1 2 at_loop)
                      (after (enter 0 None None None 2) start))) = 1.
Proof. vm_compute. repeat split. Qed.

(** C7 as the code has it, on [start]: a call of two steps. *)
Lemma history_lengths_in_a_call_witness :
  (forall n d f g po,
     history_lengths (__init__ n d f g po) 0 /\
     iterations (__init__ n d f g po) = 0) /\
  iterations (self start) = Z.of_nat 0 /\
  exists (l1 : locals) (m1 : machine),
    enter 0 None None None 2 start = (Ok l1, m1) /\
    (forall i, (i <= Z.to_nat 2)%nat ->
       exists (li : locals) (mi : machine),
         loop i 2 l1 m1 = (Ok li, mi) /\
         history_lengths (self mi) (0 + Z.to_nat 2) /\
         iterations (self mi) = Z.of_nat 0 + Z.of_nat i) /\
    exists (l' : locals) (m' : machine),
      sample 0 None None None 2 2 start = (Ok l', m') /\
      history_lengths (self m') (0 + Z.to_nat 2) /\
      iterations (self m') = Z.of_nat (0 + Z.to_nat 2).
Proof.
  apply (history_lengths_in_a_call 0 None None None 2 2 start 0).
  - exact start_callable.
  - repeat split.
  - lia.
  - lia.
Defined.

(** C9 as claimed fails on [start_long]: with an [lnprior0] of three
    numbers for two walkers the call raises, and the sampler that had no
    proposal and empty histories has a proposal and histories of one row,
    and the store two more arrays of scalars and one more of positions. *)
Lemma wrong_length_fails_after_mutation :
  (sample 0 (Some 0%nat) None None 1 10 start_long).1 = Raise ValueError /\
  _kde (self start_long) = None /\
  _kde (self (after (sample 0 (Some 0%nat) None None 1 10) start_long))
    = Some [[2]; [1]]%float /\
  _chain (self start_long) = [] /\
  _chain (self (after (sample 0 (Some 0%nat) None None 1 10) start_long))
    = [[[0]; [0]]]%float /\
  accepted (self (after (sample 0 (Some 0%nat) None None 1 10) start_long))
    = [[0; 0]]%float /\
  length (heap1 start_long) = 1%nat /\
  length (heap1 (after (sample 0 (Some 0%nat) None None 1 10) start_long)) = 3%nat /\
  fit_counts (after (sample 0 (Some 0%nat) None None 1 10) start_long) = [0].
Proof. vm_compute. repeat split. Qed.

(** C9 as the code has it, on [start_long]. *)
Lemma wrong_length_fails_in_the_first_step_witness :
  let k := Z.to_nat 1 in
  let N := nwalkers (self start_long) in
  let D := dim (self start_long) in
  exists (l1 : locals) (m1 m' : machine),
    enter 0 (Some 0%nat) None None 1 start_long = (Ok l1, m1) /\
    advance l1 m1 = (Raise ValueError, m') /\
    sample 0 (Some 0%nat) None None 1 10 start_long = (Raise ValueError, m') /\
    self m' = self m1 /\ heap1 m' = heap1 m1 /\ heap2 m' = heap2 m1 /\
    fits m' = fits m1 /\
    iterations (self m') = iterations (self start_long) /\
    _chain (self m') = _chain (self start_long) ++ replicate k (zeros2 N D) /\
    _lnpost (self m') = _lnpost (self start_long) ++ replicate k (zeros1 N) /\
    _lnprop (self m') = _lnprop (self start_long) ++ replicate k (zeros1 N) /\
    accepted (self m') = accepted (self start_long) ++ replicate k (zeros1 N) /\
    is_Some (_kde (self m')) /\
    fit_counts m' =
      fit_counts start_long ++
      match _kde (self start_long) with
      | None => [iterations (self start_long)]
      | Some _ => []
      end /\
    heap2 m' = heap2 start_long ++ [[[2]; [1]]%float] /\
    exists ext, heap1 m' = heap1 start_long ++ ext.
Proof.
  apply (wrong_length_fails_in_the_first_step 0 (Some 0%nat) None None 1 10
           start_long [[2]; [1]]%float).
  - apply contract_sampler; reflexivity.
  - reflexivity.
  - reflexivity.
  - eexists. reflexivity.
  - exact I.
  - exact I.
  - left. exists [0; 0; 0]%float. split; [reflexivity|]. split; vm_compute; lia.
  - vm_compute. lia.
  - lia.
Defined.

(** C10 as claimed fails on [start_with_lnq] with [update_interval = 1]:
    [lnq0] is the array at address [0]; the array returned as [lnq] is the
    one at address [3], made when the proposal was rebuilt, and the two
    hold different numbers. *)
Lemma returned_lnq_is_not_lnq0 :
  (sample 0 None None (Some 0%nat) 1 1 start_with_lnq).1 =
    Ok {| p := 1; lnprior := 1; lnlike := 2; lnq := 3 |} /\
  heap1 (after (sample 0 None None (Some 0%nat) 1 1) start_with_lnq) !! 0%nat
    = Some [-1; -1]%float /\
  heap1 (after (sample 0 None None (Some 0%nat) 1 1) start_with_lnq) !! 3%nat
    = Some [-0; -0]%float.
Proof. vm_compute. repeat split. Qed.

(** C10 as the code has it, on [start_with_lnq]. *)
Lemma arrays_of_a_call_witness :
  let c := iterations (self start_with_lnq) in
  exists (l' : locals) (m' : machine),
    sample 0 None None (Some 0%nat) 1 1 start_with_lnq = (Ok l', m') /\
    p l' = length (heap2 start_with_lnq) /\ p l' <> 0%nat /\
    (forall x, (x < length (heap2 start_with_lnq))%nat ->
               heap2 m' !! x = heap2 start_with_lnq !! x) /\
    (forall a, None = Some a -> lnprior l' = a) /\
    (forall a, None = Some a -> lnlike l' = a) /\
    (forall a, Some 0%nat = Some a -> rebuild_counts c 1 1 = [] -> lnq l' = a) /\
    (forall a, Some 0%nat = Some a -> rebuild_counts c 1 1 <> [] ->
               (length (heap1 start_with_lnq) <= lnq l')%nat /\ lnq l' <> a).
Proof.
  apply (arrays_of_a_call 0 None None (Some 0%nat) 1 1 start_with_lnq).
  - exact start_with_lnq_callable.
  - lia.
  - lia.
Defined.

Lemma primed_escape_ready : ready at_loop primed_escape.
Proof.
  split; [split|].
  - apply contract_sampler; reflexivity.
  - eexists. split; [reflexivity|]. apply draws_fit_width. reflexivity.
  - eexists. split; [reflexivity|]. apply shape2_intro; reflexivity.
  - eexists. split; reflexivity.
  - eexists. split; reflexivity.
  - eexists. split; reflexivity.
  - exists 1%nat. split; [repeat split|]. vm_compute. split; [discriminate|reflexivity].
Qed.

Lemma start_with_lnq_unused_callable : callable 0 None None None start_with_lnq.
Proof. apply boot_callable with [[2]; [1]]%float; try reflexivity; exact I. Qed.

Lemma start_with_lnprior_callable :
  callable 0 (Some 0%nat) None None start_with_lnprior.
Proof.
  apply boot_callable with [[2]; [1]]%float; try reflexivity; try exact I.
  eexists. split; reflexivity.
Qed.

Lemma scripted_rowwise :
  rowwise lnpriorfn /\ rowwise lnlikefn /\ forall k, rowwise (kde_call k).
Proof.
  split; [|split].
  - eexists. intros x. reflexivity.
  - eexists. intros x. reflexivity.
  - intros k. eexists. intros x. reflexivity.
Qed.

(** X1 on [start]: a call of no step, with [update_interval = 0]. *)
Lemma sample_without_iterations_witness :
  exists (l' : locals) (m' : machine),
    sample 0 None None None 0 0 start = (Ok l', m') /\
    prologue 0 None None None start = (Ok l', m') /\
    iterations (self m') = iterations (self start) /\
    _chain (self m') = _chain (self start) /\
    _lnpost (self m') = _lnpost (self start) /\
    _lnprop (self m') = _lnprop (self start) /\
    accepted (self m') = accepted (self start) /\
    heap2 m' = heap2 start ++ [[[2]; [1]]%float] /\
    p l' = length (heap2 start) /\
    ((None : option nat) = None ->
       heap1 m' !! lnprior l' = Some (_get_lnprior (self start) [[2]; [1]]%float)) /\
    ((None : option nat) = None ->
       heap1 m' !! lnlike l' = Some (_get_lnlike (self start) [[2]; [1]]%float)) /\
    ((None : option nat) = None ->
       exists k, _kde (self m') = Some k /\
                 heap1 m' !! lnq l' = Some (kde_call k [[2]; [1]]%float)) /\
    fit_counts m' =
      fit_counts start ++
      match _kde (self start) with
      | None => [iterations (self start)]
      | Some _ => []
      end /\
    (forall k, _kde (self start) = Some k ->
               _kde (self m') = Some k /\ gen m' = gen start).
Proof.
  apply (sample_without_iterations 0 None None None 0 start [[2]; [1]]%float).
  vm_compute. reflexivity.
Defined.

(** X2 on [start]: a call with [iterations = -1]. *)
Lemma negative_iterations_raise_witness :
  exists (l1 : locals) (m' : machine),
    prologue 0 None None None start = (Ok l1, m') /\
    grow (-1) m' = (Raise ValueError, m') /\
    sample 0 None None None (-1) 1 start = (Raise ValueError, m') /\
    iterations (self m') = iterations (self start) /\
    _chain (self m') = _chain (self start) /\
    _lnpost (self m') = _lnpost (self start) /\
    _lnprop (self m') = _lnprop (self start) /\
    accepted (self m') = accepted (self start) /\
    is_Some (_kde (self m')) /\
    fit_counts m' =
      fit_counts start ++
      match _kde (self start) with
      | None => [iterations (self start)]
      | Some _ => []
      end /\
    heap2 m' = heap2 start ++ [[[2]; [1]]%float] /\
    exists ext, heap1 m' = heap1 start ++ ext.
Proof.
  apply (negative_iterations_raise 0 None None None (-1) 1 start [[2]; [1]]%float).
  - vm_compute. reflexivity.
  - lia.
Defined.

(** X3 on [start]: a call of one step with [update_interval = 0]. *)
Lemma zero_update_interval_raises_witness :
  exists (l1 : locals) (m1 : machine) (acc : list bool) (m' : machine),
    enter 0 None None None 1 start = (Ok l1, m1) /\
    advance l1 m1 = (Ok acc, m') /\
    refresh 0 l1 m' = (Raise ZeroDivisionError, m') /\
    sample 0 None None None 1 0 start = (Raise ZeroDivisionError, m') /\
    iterations (self m') = iterations (self start) + 1 /\
    history_lengths (self m') (0 + Z.to_nat 1) /\
    accepted (self m') !! 0%nat = Some (map of_bool acc) /\
    fit_counts m' =
      fit_counts start ++
      match _kde (self start) with
      | None => [iterations (self start)]
      | Some _ => []
      end.
Proof.
  apply (zero_update_interval_raises 0 None None None 1 start 0).
  - exact start_callable.
  - repeat split.
  - lia.
Defined.

(** X4 on [primed] with [update_interval = 1]. *)
Lemma step_snapshot_witness :
  exists (acc : list bool) (m1 : machine) (l' : locals) (m' : machine)
         (pv : mat) (a b q : vec),
    advance at_loop primed = (Ok acc, m1) /\
    step 1 at_loop primed = (Ok l', m') /\
    heap2 m1 !! p at_loop = Some pv /\ heap1 m1 !! lnprior at_loop = Some a /\
    heap1 m1 !! lnlike at_loop = Some b /\ heap1 m1 !! lnq at_loop = Some q /\
    _chain (self m') !! Z.to_nat (iterations (self primed)) = Some pv /\
    _lnpost (self m') !! Z.to_nat (iterations (self primed))
      = Some (zip_with PrimFloat.add a b) /\
    _lnprop (self m') !! Z.to_nat (iterations (self primed)) = Some q /\
    accepted (self m') !! Z.to_nat (iterations (self primed))
      = Some (map of_bool acc) /\
    heap2 m' !! p l' = Some pv /\
    heap1 m' !! lnprior l' = Some a /\ heap1 m' !! lnlike l' = Some b /\
    (due 1 m1 = false -> heap1 m' !! lnq l' = Some q).
Proof.
  apply (step_snapshot 1 at_loop primed fitted).
  - exact primed_ready.
  - vm_compute. reflexivity.
  - lia.
Defined.

(** X5 on [primed]: the first walker, whose ratio is [2]. *)
Lemma positive_ratio_moves_walker_witness :
  exists (acc : list bool) (m1 : machine) (l' : locals) (m' : machine)
         (flags : vec),
    advance at_loop primed = (Ok acc, m1) /\
    step 1 at_loop primed = (Ok l', m') /\
    worse_of [2; neg_infinity]%float !! 0%nat = Some false /\
    acc !! 0%nat = Some true /\
    accepted (self m') !! Z.to_nat (iterations (self primed)) = Some flags /\
    flags !! 0%nat = Some 1%float /\
    entry2 m' (p l') 0 = p_p (candidates_at primed fitted) !! 0%nat /\
    (NoDup [lnprior at_loop; lnlike at_loop; lnq at_loop] ->
       entry1 m' (lnprior l') 0 = lnprior_p (candidates_at primed fitted) !! 0%nat /\
       entry1 m' (lnlike l') 0 = lnlike_p (candidates_at primed fitted) !! 0%nat).
Proof.
  apply (positive_ratio_moves_walker 1 at_loop primed fitted [0; 0]%float
           [-2; -1]%float [-0; -1]%float [2; neg_infinity]%float 0 2%float).
  - exact primed_ready.
  - vm_compute. reflexivity.
  - vm_compute. reflexivity.
  - vm_compute. reflexivity.
  - vm_compute. reflexivity.
  - lia.
  - vm_compute. reflexivity.
  - vm_compute. reflexivity.
  - vm_compute. reflexivity.
Defined.

(** X6 on [primed]: the second walker, whose candidate [-1] is outside the
    prior. *)
Lemma candidate_outside_support_rejected_witness :
  exists (r : vec) (acc : list bool) (m1 : machine) (l' : locals) (m' : machine),
    ln_mh_ratio_of (lnprior_p (candidates_at primed fitted))
      (lnlike_p (candidates_at primed fitted))
      [0; 0]%float [-2; -1]%float [-0; -1]%float
      (lnq_p (candidates_at primed fitted)) = Ok r /\
    r !! 1%nat = Some neg_infinity /\
    (forall y, PrimFloat.ltb (log y) neg_infinity = false) /\
    advance at_loop primed = (Ok acc, m1) /\
    step 1 at_loop primed = (Ok l', m') /\
    acc !! 1%nat = Some false /\
    entry2 m' (p l') 1 = entry2 primed (p at_loop) 1 /\
    entry1 m' (lnprior l') 1 = Some 0%float /\
    entry1 m' (lnlike l') 1 = Some (-1)%float.
Proof.
  apply (candidate_outside_support_rejected 1 at_loop primed fitted [0; 0]%float
           [-2; -1]%float [-0; -1]%float 1 1%float 0%float (-1)%float (-1)%float
           (-3)%float).
  - exact primed_ready.
  - vm_compute. reflexivity.
  - vm_compute. reflexivity.
  - vm_compute. reflexivity.
  - vm_compute. reflexivity.
  - lia.
  - vm_compute. reflexivity.
  - vm_compute. reflexivity.
  - vm_compute. reflexivity.
  - vm_compute. reflexivity.
  - vm_compute. reflexivity.
  - vm_compute. reflexivity.
  - vm_compute. reflexivity.
  - vm_compute. reflexivity.
  - vm_compute. reflexivity.
  - vm_compute. reflexivity.
  - vm_compute. reflexivity.
Defined.

(** X7 on [primed_escape]: the first walker, at [-2], outside the prior,
    whose candidate [3] is inside it. *)
Lemma walker_outside_support_moves_witness :
  exists (r : vec) (acc : list bool) (m1 : machine) (l' : locals) (m' : machine),
    ln_mh_ratio_of (lnprior_p (candidates_at primed_escape fitted_outside))
      (lnlike_p (candidates_at primed_escape fitted_outside))
      [neg_infinity; 0]%float [2; -1]%float [-0; -3]%float
      (lnq_p (candidates_at primed_escape fitted_outside)) = Ok r /\
    r !! 0%nat = Some infinity /\
    worse_of r !! 0%nat = Some false /\
    advance at_loop primed_escape = (Ok acc, m1) /\
    step 1 at_loop primed_escape = (Ok l', m') /\
    acc !! 0%nat = Some true /\
    entry2 m' (p l') 0 = p_p (candidates_at primed_escape fitted_outside) !! 0%nat.
Proof.
  apply (walker_outside_support_moves 1 at_loop primed_escape fitted_outside
           [neg_infinity; 0]%float [2; -1]%float [-0; -3]%float 0
           0%float (-3)%float 2%float (-0)%float (-5)%float).
  - exact primed_escape_ready.
  - vm_compute. reflexivity.
  - vm_compute. reflexivity.
  - vm_compute. reflexivity.
  - vm_compute. reflexivity.
  - lia.
  - vm_compute. reflexivity.
  - vm_compute. reflexivity.
  - vm_compute. reflexivity.
  - vm_compute. reflexivity.
  - vm_compute. reflexivity.
  - vm_compute. reflexivity.
  - vm_compute. reflexivity.
  - vm_compute. reflexivity.
  - vm_compute. reflexivity.
  - vm_compute. reflexivity.
Defined.

(** X8 on [start_with_lnq], whose array at address [0] is not passed to
    the call. *)
Lemma other_arrays_untouched_witness :
  exists (l' : locals) (m' : machine),
    sample 0 None None None 1 1 start_with_lnq = (Ok l', m') /\
    heap1 m' !! 0%nat = heap1 start_with_lnq !! 0%nat.
Proof.
  apply (other_arrays_untouched 0 None None None 1 1 start_with_lnq 0).
  - exact start_with_lnq_unused_callable.
  - lia.
  - lia.
  - vm_compute. lia.
  - discriminate.
  - discriminate.
  - discriminate.
Defined.

(** X9 on [start]: a call of one step. *)
Lemma last_row_is_the_returned_ensemble_witness :
  exists (l' : locals) (m' : machine) (pv : mat) (a b : vec),
    sample 0 None None None 1 2 start = (Ok l', m') /\
    heap2 m' !! p l' = Some pv /\
    heap1 m' !! lnprior l' = Some a /\ heap1 m' !! lnlike l' = Some b /\
    last (_chain (self m')) = Some pv /\
    last (_lnpost (self m')) = Some (zip_with PrimFloat.add a b) /\
    (iterations (self m') mod 2 <> 0 ->
       exists q, heap1 m' !! lnq l' = Some q /\ last (_lnprop (self m')) = Some q).
Proof.
  apply (last_row_is_the_returned_ensemble 0 None None None 1 2 start 0).
  - exact start_callable.
  - repeat split.
  - lia.
  - lia.
Defined.

(** X10 on [start_with_lnprior], the log priors of the two walkers being
    passed as [lnprior0]. *)
Lemma returned_scalars_are_those_of_the_positions_witness :
  exists (l' : locals) (m' : machine) (pv' : mat) (k' : kde),
    sample 0 (Some 0%nat) None None 1 2 start_with_lnprior = (Ok l', m') /\
    heap2 m' !! p l' = Some pv' /\ _kde (self m') = Some k' /\
    heap1 m' !! lnprior l' = Some (_get_lnprior (self start_with_lnprior) pv') /\
    heap1 m' !! lnlike l' = Some (_get_lnlike (self start_with_lnprior) pv') /\
    heap1 m' !! lnq l' = Some (kde_call k' pv').
Proof.
  apply (returned_scalars_are_those_of_the_positions 0 (Some 0%nat) None None
           1 2 start_with_lnprior [[2]; [1]]%float 0).
  - exact start_with_lnprior_callable.
  - vm_compute. reflexivity.
  - repeat split.
  - lia.
  - lia.
  - exact (proj1 scripted_rowwise).
  - exact (proj1 (proj2 scripted_rowwise)).
  - exact (proj2 (proj2 scripted_rowwise)).
  - unfold given_addresses. cbn. apply NoDup_singleton.
  - vm_compute. reflexivity.
  - exact I.
  - intros a E. discriminate.
Defined.

(** X11 on [start_with_lnprior]. *)
Lemma lnpost_rows_are_those_of_the_chain_witness :
  exists (l' : locals) (m' : machine),
    sample 0 (Some 0%nat) None None 1 2 start_with_lnprior = (Ok l', m') /\
    forall i, (0 <= i < 0 + Z.to_nat 1)%nat ->
      exists pvi : mat,
        _chain (self m') !! i = Some pvi /\
        _lnpost (self m') !! i =
          Some (zip_with PrimFloat.add
                  (_get_lnprior (self start_with_lnprior) pvi)
                  (_get_lnlike (self start_with_lnprior) pvi)).
Proof.
  apply (lnpost_rows_are_those_of_the_chain 0 (Some 0%nat) None None
           1 2 start_with_lnprior [[2]; [1]]%float 0).
  - exact start_with_lnprior_callable.
  - vm_compute. reflexivity.
  - repeat split.
  - lia.
  - lia.
  - exact (proj1 scripted_rowwise).
  - exact (proj1 (proj2 scripted_rowwise)).
  - exact (proj2 (proj2 scripted_rowwise)).
  - unfold given_addresses. cbn. apply NoDup_singleton.
  - vm_compute. reflexivity.
  - exact I.
  - intros a E. discriminate.
Defined.

(** X12 on [start]. *)
Lemma sampler_callable_again_witness :
  exists (l' : locals) (m' : machine),
    sample 0 None None None 1 2 start = (Ok l', m') /\
    callable (p l') (Some (lnprior l')) (Some (lnlike l')) (Some (lnq l')) m' /\
    callable (p l') None None None m' /\
    is_Some (_kde (self m')) /\
    nwalkers (self m') = nwalkers (self start) /\ dim (self m') = dim (self start).
Proof.
  apply (sampler_callable_again 0 None None None 1 2 start).
  - exact start_callable.
  - lia.
  - lia.
Defined.

(** X13 on [start]: the first step of a call of two steps. *)
Lemma steps_of_a_longer_call_witness :
  exists (l0 : locals) (m0 : machine) (l1 : locals) (m1 : machine)
         (la : locals) (ma : machine),
    enter 0 None None None (1 + 1) start = (Ok l0, m0) /\
    loop (Z.to_nat 1) 2 l0 m0 = (Ok l1, m1) /\
    sample 0 None None None 1 2 start = (Ok la, ma) /\
    l1 = la /\ self m1 = grown 1 (self ma) /\
    heap1 m1 = heap1 ma /\ heap2 m1 = heap2 ma /\
    gen m1 = gen ma /\ fits m1 = fits ma.
Proof.
  apply (steps_of_a_longer_call 0 None None None 1 1 2 start).
  - exact start_callable.
  - lia.
  - lia.
  - lia.
Defined.

(** X14 on [start]: two calls of one step and one call of two steps. *)
Lemma two_calls_compose_witness :
  exists (la : locals) (ma : machine) (lb : locals) (mb : machine)
         (lc : locals) (mc : machine),
    sample 0 None None None 1 2 start = (Ok la, ma) /\
    sample (p la) (Some (lnprior la)) (Some (lnlike la)) (Some (lnq la)) 1 2 ma
      = (Ok lb, mb) /\
    sample 0 None None None (1 + 1) 2 start = (Ok lc, mc) /\
    self mb = self mc /\ gen mb = gen mc /\ fits mb = fits mc /\
    heap1 mb = heap1 mc /\
    lnprior lb = lnprior lc /\ lnlike lb = lnlike lc /\ lnq lb = lnq lc /\
    heap2 mb !! p lb = heap2 mc !! p lc.
Proof.
  apply (two_calls_compose 0 None None None 1 1 2 start).
  - exact start_callable.
  - lia.
  - lia.
  - lia.
Defined.

Lemma primed_two_shaped : shaped at_loop primed_two.
Proof.
  split.
  - apply contract_sampler; reflexivity.
  - eexists. split; [reflexivity|]. apply draws_fit_width. reflexivity.
  - eexists. split; [reflexivity|]. apply shape2_intro; reflexivity.
  - eexists. split; reflexivity.
  - eexists. split; reflexivity.
  - eexists. split; reflexivity.
Qed.

(** X15 on [primed_two]: the second walker, rejected in the second step. *)
Lemma rejected_walker_repeats_in_the_histories_witness :
  exists (l1 : locals) (m1 : machine) (acc : list bool) (ma : machine)
         (l2 : locals) (m2 : machine) (c1 c2 : mat) (s1 s2 flags : vec),
    step 3 at_loop primed_two = (Ok l1, m1) /\
    advance l1 m1 = (Ok acc, ma) /\ step 3 l1 m1 = (Ok l2, m2) /\
    loop 2 3 at_loop primed_two = (Ok l2, m2) /\
    _chain (self m2) !! Z.to_nat (iterations (self primed_two)) = Some c1 /\
    _chain (self m2) !! S (Z.to_nat (iterations (self primed_two))) = Some c2 /\
    _lnpost (self m2) !! Z.to_nat (iterations (self primed_two)) = Some s1 /\
    _lnpost (self m2) !! S (Z.to_nat (iterations (self primed_two))) = Some s2 /\
    accepted (self m2) !! S (Z.to_nat (iterations (self primed_two))) = Some flags /\
    (acc !! 1%nat = Some false ->
       c2 !! 1%nat = c1 !! 1%nat /\ s2 !! 1%nat = s1 !! 1%nat /\
       flags !! 1%nat = Some 0%float).
Proof.
  apply (rejected_walker_repeats_in_the_histories 3 at_loop primed_two 2 1).
  - exact primed_two_shaped.
  - repeat split.
  - vm_compute. discriminate.
  - vm_compute. discriminate.
  - lia.
Defined.

(** X16 on the sampler of [start]. *)
Lemma first_call_of_a_new_sampler_witness :
  exists (l1 : locals) (m1 : machine) (l' : locals) (m' : machine),
    enter 0 None None None 1
      {| self := __init__ 2 1 lnpriorfn lnlikefn None; heap1 := [];
         heap2 := [ [[2]; [1]] ]%float; gen := [1; -1; 0.5]%float;
         fits := [] |} = (Ok l1, m1) /\
    _kde (self m1) =
      Some (OptimizedKDE [[2]; [1]]%float None [1; -1; 0.5]%float).1 /\
    fits m1 = [(0, [[2]; [1]]%float)] /\
    heap1 m1 !! lnprior l1 = Some (lnpriorfn [[2]; [1]]%float) /\
    heap1 m1 !! lnlike l1 = Some (lnlikefn [[2]; [1]]%float) /\
    heap1 m1 !! lnq l1 =
      Some (kde_call (OptimizedKDE [[2]; [1]]%float None [1; -1; 0.5]%float).1
              [[2]; [1]]%float) /\
    sample 0 None None None 1 2
      {| self := __init__ 2 1 lnpriorfn lnlikefn None; heap1 := [];
         heap2 := [ [[2]; [1]] ]%float; gen := [1; -1; 0.5]%float;
         fits := [] |} = (Ok l', m') /\
    iterations (self m') = 1 /\
    history_lengths (self m') (Z.to_nat 1) /\
    nwalkers (self m') = 2%nat /\ dim (self m') = 1%nat /\
    fit_counts m' = 0 :: rebuild_counts 0 1 2.
Proof.
  apply (first_call_of_a_new_sampler (H := externals) 2 1 lnpriorfn lnlikefn
           None [] [ [[2]; [1]] ]%float [1; -1; 0.5]%float 0 [[2]; [1]]%float
           1 2).
  - intros x. apply length_map.
  - intros x. apply length_map.
  - reflexivity.
  - apply shape2_intro; reflexivity.
  - lia.
  - lia.
Defined.

(** X17 on [start_with_lnq] with [update_interval = 1]: a call of two
    steps, the proposal being rebuilt after the first. *)
Lemma lnq0_is_left_after_a_rebuild_witness :
  exists (l0 : locals) (m0 : machine) (l1 : locals) (m1 : machine)
         (l' : locals) (m' : machine),
    enter 0 None None (Some 0%nat) (1 + 1) start_with_lnq = (Ok l0, m0) /\
    lnq l0 = 0%nat /\
    loop (Z.to_nat 1) 1 l0 m0 = (Ok l1, m1) /\
    loop (Z.to_nat 1) 1 l1 m1 = (Ok l', m') /\
    sample 0 None None (Some 0%nat) (1 + 1) 1 start_with_lnq = (Ok l', m') /\
    lnq l1 <> 0%nat /\ lnq l' <> 0%nat /\
    heap1 m' !! 0%nat = heap1 m1 !! 0%nat.
Proof.
  apply (lnq0_is_left_after_a_rebuild 0 None None 0 1 1 1 start_with_lnq).
  - exact start_with_lnq_callable.
  - discriminate.
  - discriminate.
  - lia.
  - lia.
  - lia.
  - vm_compute. reflexivity.
Defined.

(** X18 on [start_three]: three points for two walkers. *)
Lemma wrong_walker_count_fails_in_the_first_step_witness :
  exists (l1 : locals) (m1 m' : machine),
    enter 0 None None None 1 start_three = (Ok l1, m1) /\
    heap1 m1 !! lnprior l1 =
      Some (_get_lnprior (self start_three) [[2]; [1]; [0]]%float) /\
    length (_get_lnprior (self start_three) [[2]; [1]; [0]]%float) =
      length [[2]; [1]; [0]]%float /\
    advance l1 m1 = (Raise ValueError, m') /\
    sample 0 None None None 1 10 start_three = (Raise ValueError, m') /\
    iterations (self m') = iterations (self start_three) /\
    _chain (self m') =
      _chain (self start_three) ++
      replicate (Z.to_nat 1)
        (zeros2 (nwalkers (self start_three)) (dim (self start_three))) /\
    accepted (self m') =
      accepted (self start_three) ++
      replicate (Z.to_nat 1) (zeros1 (nwalkers (self start_three))) /\
    (_kde (self start_three) = None ->
       _kde (self m') =
         Some (OptimizedKDE [[2]; [1]; [0]]%float (_pool (self start_three))
                 (gen start_three)).1 /\
       fits m' =
         fits start_three ++
         [(iterations (self start_three), [[2]; [1]; [0]]%float)]).
Proof.
  apply (wrong_walker_count_fails_in_the_first_step 0 1 10 start_three
           [[2]; [1]; [0]]%float).
  - apply contract_sampler; reflexivity.
  - reflexivity.
  - vm_compute. lia.
  - vm_compute. lia.
  - vm_compute. lia.
  - lia.
Defined.

Lemma settled_callable : callable 0 None None None settled.
Proof.
  split.
  - apply contract_sampler; reflexivity.
  - intros k Hk. injection Hk as <-. apply draws_fit_width. reflexivity.
  - eexists. split; [reflexivity|]. apply shape2_intro; reflexivity.
  - exact I.
  - exact I.
  - exact I.
  - exists 0%nat. split; [repeat split|reflexivity].
Qed.

Lemma start_long_callable : callable 0 None None None start_long.
Proof. apply boot_callable with [[2]; [1]]%float; try reflexivity; exact I. Qed.

(** X19 on [failed], the machine that the failed call of C9 leaves: a
    call of two steps returns with the counter at [2] and histories of
    three rows, the last of them rows of zeros. *)
Lemma call_with_rows_to_spare_witness :
  history_lengths (self failed) (0 + Z.to_nat 1) /\
  iterations (self failed) = Z.of_nat 0 /\
  exists (l' : locals) (m' mx' : machine),
    sample 0 None None None 2 1 settled = (Ok l', m') /\
    sample 0 None None None 2 1 failed = (Ok l', mx') /\
    spare 1 mx' m' /\
    iterations (self mx') = Z.of_nat (0 + Z.to_nat 2) /\
    history_lengths (self m') (0 + Z.to_nat 2) /\
    history_lengths (self mx') (0 + Z.to_nat 2 + Z.to_nat 1) /\
    (1 <= 1 ->
       last (_chain (self mx')) =
         Some (zeros2 (nwalkers (self settled)) (dim (self settled))) /\
       last (_lnpost (self mx')) = Some (zeros1 (nwalkers (self settled))) /\
       last (_lnprop (self mx')) = Some (zeros1 (nwalkers (self settled))) /\
       last (accepted (self mx')) = Some (zeros1 (nwalkers (self settled)))).
Proof.
  apply (call_with_rows_to_spare 0 None None None 2 1 1 failed settled 0).
  - exact settled_callable.
  - vm_compute. repeat split.
  - vm_compute. repeat split.
  - lia.
  - lia.
  - lia.
Defined.

(** X20 on [start_long], with the array of three numbers as [lnprior0]. *)
Lemma failed_call_leaves_rows_to_spare_witness :
  exists (m' mc : machine),
    sample 0 (Some 0%nat) None None 1 1 start_long = (Raise ValueError, m') /\
    spare 1 m' mc /\
    callable 0 None None None mc /\
    iterations (self mc) = iterations (self start_long) /\
    _chain (self mc) = _chain (self start_long) /\
    _lnpost (self mc) = _lnpost (self start_long) /\
    _lnprop (self mc) = _lnprop (self start_long) /\
    accepted (self mc) = accepted (self start_long) /\
    heap2 mc !! 0%nat = heap2 start_long !! 0%nat.
Proof.
  apply (failed_call_leaves_rows_to_spare 0 (Some 0%nat) None None 1 1 start_long).
  - exact start_long_callable.
  - eexists. reflexivity.
  - exact I.
  - exact I.
  - left. exists [0; 0; 0]%float. split; [reflexivity|]. split; vm_compute; lia.
  - vm_compute. lia.
  - lia.
Defined.

Lemma start_one_callable : callable 0 None None None start_one.
Proof. apply boot_callable with [[2]; [1]]%float; try reflexivity; exact I. Qed.

(** X21 on [start_one], with the array of one number as [lnprior0]. *)
Lemma one_entry_lnprior0_is_broadcast_witness :
  exists (l1 : locals) (m1 : machine) (k : kde) (b q r : vec),
    enter 0 (Some 0%nat) None None 1 start_one = (Ok l1, m1) /\
    lnprior l1 = 0%nat /\ heap1 m1 !! lnprior l1 = Some [0%float] /\
    heap1 m1 !! lnlike l1 = Some b /\ heap1 m1 !! lnq l1 = Some q /\
    _kde (self m1) = Some k /\
    let c := candidates_at m1 k in
    ln_mh_ratio_of (lnprior_p c) (lnlike_p c) [0%float] b q (lnq_p c) = Ok r /\
    r = ratios c (replicate (nwalkers (self start_one)) 0%float) b q /\
    length r = nwalkers (self start_one) /\
    forall j x1 x2 x4 x5 x6,
      lnprior_p c !! j = Some x1 -> lnlike_p c !! j = Some x2 ->
      b !! j = Some x4 -> q !! j = Some x5 -> lnq_p c !! j = Some x6 ->
      r !! j = Some (x1 + x2 - 0 - x4 + x5 - x6)%float.
Proof.
  apply (one_entry_lnprior0_is_broadcast 0 0 1 start_one 0%float).
  - exact start_one_callable.
  - reflexivity.
  - vm_compute. lia.
  - lia.
Defined.

(** X22 on [start_one]: the first walker is accepted with the ratio [2],
    line 147 moves it from [2] to [1] and line 148 raises. *)
Lemma one_entry_lnprior0_fails_at_the_update_witness :
  let c := candidates_at primed_one fitted in
  let acc := verdicts [2; neg_infinity]%float
               (variates [2; neg_infinity]%float
                  (gen_after_draw primed_one fitted)) in
  exists (m' mc : machine),
    advance at_loop primed_one = (Raise IndexError, m') /\
    sample 0 (Some 0%nat) None None 1 1 start_one = (Raise IndexError, m') /\
    heap2 m' !! p at_loop = Some (masked_copy [[2]; [1]]%float acc (p_p c)) /\
    (forall j, acc !! j = Some true ->
               masked_copy [[2]; [1]]%float acc (p_p c) !! j = p_p c !! j) /\
    heap2 m' !! 0%nat = heap2 start_one !! 0%nat /\
    heap1 m' = heap1 primed_one /\ self m' = self primed_one /\
    iterations (self m') = iterations (self start_one) /\
    spare 1 m' mc /\ callable 0 None None None mc.
Proof.
  apply (one_entry_lnprior0_fails_at_the_update 0 0 1 1 start_one at_loop
           primed_one fitted 0%float [[2]; [1]]%float [-2; -1]%float
           [-0; -1]%float [2; neg_infinity]%float).
  - exact start_one_callable.
  - reflexivity.
  - vm_compute. lia.
  - lia.
  - vm_compute. reflexivity.
  - vm_compute. reflexivity.
  - vm_compute. reflexivity.
  - vm_compute. reflexivity.
  - vm_compute. reflexivity.
  - vm_compute. reflexivity.
  - vm_compute. reflexivity.
Defined.

End ScriptedRuns.
